(** * Glyssa: the speech-playback / line-highlight engine

    A shallow embedding of the Google TTS service of the code tutor
    (the module that exports [googleTTSService]) and the properties of its
    marker extraction, backend health policy, remote synthesis adapter and
    playback life cycle.  Line numbers in the comments are those of that
    module.

    Modelling conventions.
    - A JavaScript string is the list of its UTF-16 code units ([N]).
    - A regular expression literal of the source is written as a term of
      [regex]; [rmatch] is a backtracking matcher in continuation-passing
      style with the priorities of ECMAScript (leftmost alternative first,
      greedy quantifiers, no empty iteration of a star).
    - [Date.now()] is an integer number of milliseconds ([Z]); one call of
      an exported function reads one clock value.
    - A JavaScript number that the code computes with is an IEEE 754
      double, the primitive [float] with its own operations; a count
      ([length], an index) is a natural number, turned into a double where
      the code computes with it.  The clock and the due times of the timers
      are exact: a due time is the clock value plus the delay, the rational
      value of the double that [setTimeout] is given.
    - In a run of the page one call of an exported function is one step: no
      handler runs while [speak] waits for the answer of the endpoint.
      [speak_start] and [speak_resume] are the two runs of code of a call
      during whose wait handlers do run.
    - The page runs in a browser: [window], [fetch], [atob], [TextEncoder],
      [Audio] and [setTimeout] exist; the Web Speech API may be missing.
    - [console.log] and friends, and the choice of a voice, are not
      modelled. *)

From Stdlib Require Import String Ascii List Bool Arith NArith ZArith QArith Qround Lia.
From Stdlib Require Import PrimFloat SpecFloat FloatOps.
Import ListNotations.

Local Open Scope nat_scope.
Set Warnings "-inexact-float".

(* ------------------------------------------------------------------ *)
(** ** JavaScript strings *)

Definition char := N.
Definition jsstring := list char.

(** An ASCII literal of the source as a [jsstring]. *)
Definition lit (s : string) : jsstring :=
  map N_of_ascii (list_ascii_of_string s).

Definition chr (a : ascii) : char := N_of_ascii a.

(** The double quote, which a literal of this file cannot hold. *)
Definition dquote : char := 34%N.

Definition char_in (cs : list char) (c : char) : bool :=
  existsb (N.eqb c) cs.

Definition in_range (lo hi c : char) : bool :=
  (N.leb lo c && N.leb c hi)%bool.

(** [\d] *)
Definition is_digit (c : char) : bool := in_range 48%N 57%N c.

(** [\w] *)
Definition is_word (c : char) : bool :=
  (in_range 97%N 122%N c || in_range 65%N 90%N c || in_range 48%N 57%N c || N.eqb c 95%N)%bool.

(** [\s]: ECMAScript WhiteSpace and LineTerminator code points. *)
Definition is_space (c : char) : bool :=
  (in_range 9%N 13%N c || N.eqb c 32%N || N.eqb c 160%N || N.eqb c 5760%N
   || in_range 8192%N 8202%N c || N.eqb c 8232%N || N.eqb c 8233%N
   || N.eqb c 8239%N || N.eqb c 8287%N || N.eqb c 12288%N || N.eqb c 65279%N)%bool.

Fixpoint drop_while (p : char -> bool) (s : jsstring) : jsstring :=
  match s with
  | [] => []
  | c :: s' => if p c then drop_while p s' else s
  end.

Fixpoint take_while (p : char -> bool) (s : jsstring) : jsstring :=
  match s with
  | [] => []
  | c :: s' => if p c then c :: take_while p s' else []
  end.

(** [String.prototype.trim] *)
Definition trim (s : jsstring) : jsstring :=
  rev (drop_while is_space (rev (drop_while is_space s))).

(** [String.prototype.startsWith] *)
Fixpoint startsWith (s p : jsstring) {struct p} : bool :=
  match p, s with
  | [], _ => true
  | _ :: _, [] => false
  | a :: p', c :: s' => (N.eqb a c && startsWith s' p')%bool
  end.

(** [String.prototype.indexOf]: [None] stands for -1. *)
Fixpoint indexOf_from (i : nat) (s p : jsstring) : option nat :=
  if startsWith s p then Some i
  else match s with
       | [] => None
       | _ :: s' => indexOf_from (S i) s' p
       end.

Definition indexOf (s p : jsstring) : option nat := indexOf_from 0 s p.

(** [String.prototype.includes] *)
Definition includes (s p : jsstring) : bool :=
  match indexOf s p with Some _ => true | None => false end.

(** [String.prototype.substring] for [0 <= a <= b]. *)
Definition substring (a b : nat) (s : jsstring) : jsstring :=
  firstn (b - a) (skipn a s).

(** [s.split(sep)] for a separator of one code unit. *)
Fixpoint split_chr (sep : char) (s : jsstring) : list jsstring :=
  match s with
  | [] => [[]]
  | c :: s' =>
      if N.eqb c sep then [] :: split_chr sep s'
      else match split_chr sep s' with
           | [] => [[c]]
           | w :: ws => (c :: w) :: ws
           end
  end.

(** The value of a string of decimal digits, most significant first. *)
Definition digits_value (ds : jsstring) : Z :=
  fold_left (fun acc c => (acc * 10 + (Z.of_N c - 48))%Z) ds 0%Z.

(** [parseInt(s, 10)]: leading white space, an optional sign, then the longest
    run of decimal digits; [None] stands for NaN.  The source applies it to
    runs of digits captured by [(\d+)]; values beyond 2^53, which a double
    rounds, are kept exact. *)
Definition parseInt (s : jsstring) : option Z :=
  let s1 := drop_while is_space s in
  let '(sign, s2) :=
    match s1 with
    | c :: t => if N.eqb c 45%N then ((-1)%Z, t)
                else if N.eqb c 43%N then (1%Z, t) else (1%Z, s1)
    | [] => (1%Z, s1)
    end in
  match take_while is_digit s2 with
  | [] => None
  | ds => Some (sign * digits_value ds)%Z
  end.

(** Decimal rendering of a natural number: the template literal [${n}]. *)
Fixpoint dec_digits (fuel : nat) (n : N) (acc : jsstring) : jsstring :=
  match fuel with
  | O => acc
  | S f =>
      let acc' := (48 + N.modulo n 10)%N :: acc in
      if N.ltb n 10%N then acc' else dec_digits f (N.div n 10%N) acc'
  end.

Definition dec_of_N (n : N) : jsstring :=
  dec_digits (S (N.to_nat (N.log2 n))) n [].

Definition dec_of_Z (z : Z) : jsstring :=
  if (z <? 0)%Z then 45%N :: dec_of_N (Z.to_N (- z)) else dec_of_N (Z.to_N z).

(** [new TextEncoder().encode(s).length]: the length of the UTF-8 encoding of a
    UTF-16 string.  A surrogate pair is one code point of four bytes; a lone
    surrogate is replaced by U+FFFD (three bytes). *)
Fixpoint utf8_length (s : jsstring) : nat :=
  match s with
  | [] => 0
  | c :: s' =>
      if N.ltb c 128%N then 1 + utf8_length s'
      else if N.ltb c 2048%N then 2 + utf8_length s'
      else if in_range 55296%N 56319%N c then
        match s' with
        | d :: s'' =>
            if in_range 56320%N 57343%N d then 4 + utf8_length s''
            else 3 + utf8_length s'
        | [] => 3
        end
      else 3 + utf8_length s'
  end.

(* ------------------------------------------------------------------ *)
(** ** Regular expressions *)

Inductive regex : Type :=
| Eps : regex
| Cls : (char -> bool) -> regex
| Seq : regex -> regex -> regex
| Alt : regex -> regex -> regex
| Star : regex -> regex
| Grp : nat -> regex -> regex
| Bol : regex
| Eol : regex
| WordB : regex.

(** The state of a match attempt: the code units before the cursor (nearest
    first, back to the start of the whole input), the code units from the
    cursor on, and the capture groups set so far. *)
Record mstate : Type := MS {
  ms_before : list char;
  ms_rest : jsstring;
  ms_caps : list (nat * jsstring)
}.

Definition cont := mstate -> option mstate.

Fixpoint star_loop (m : cont -> mstate -> option mstate) (k : cont)
         (fuel : nat) (st : mstate) : option mstate :=
  match fuel with
  | O => k st
  | S f =>
      match m (fun st' =>
                 if length (ms_rest st') <? length (ms_rest st)
                 then star_loop m k f st' else None) st with
      | Some x => Some x
      | None => k st
      end
  end.

Definition word_before (st : mstate) : bool :=
  match ms_before st with c :: _ => is_word c | [] => false end.

Definition word_after (st : mstate) : bool :=
  match ms_rest st with c :: _ => is_word c | [] => false end.

Fixpoint rmatch (r : regex) (k : cont) (st : mstate) {struct r} : option mstate :=
  match r with
  | Eps => k st
  | Cls p =>
      match ms_rest st with
      | c :: s => if p c then k (MS (c :: ms_before st) s (ms_caps st)) else None
      | [] => None
      end
  | Seq a b => rmatch a (rmatch b k) st
  | Alt a b =>
      match rmatch a k st with
      | Some x => Some x
      | None => rmatch b k st
      end
  | Star a => star_loop (rmatch a) k (S (length (ms_rest st))) st
  | Grp n a =>
      rmatch a (fun st' =>
        let len := length (ms_before st') - length (ms_before st) in
        k (MS (ms_before st') (ms_rest st')
              ((n, rev (firstn len (ms_before st'))) :: ms_caps st'))) st
  | Bol => match ms_before st with [] => k st | _ :: _ => None end
  | Eol => match ms_rest st with [] => k st | _ :: _ => None end
  | WordB => if xorb (word_before st) (word_after st) then k st else None
  end.

Definition Plus (r : regex) : regex := Seq r (Star r).
Definition Opt (r : regex) : regex := Alt r Eps.
Definition Chr (a : ascii) : regex := Cls (N.eqb (chr a)).
Definition NotChr (a : ascii) : regex := Cls (fun c => negb (N.eqb c (chr a))).
Definition OneOf (s : string) : regex := Cls (char_in (lit s)).

Fixpoint Str_of (cs : jsstring) : regex :=
  match cs with
  | [] => Eps
  | c :: cs' => Seq (Cls (N.eqb c)) (Str_of cs')
  end.

(** A literal run of characters. *)
Definition Str (s : string) : regex := Str_of (lit s).

Fixpoint seqs (rs : list regex) : regex :=
  match rs with
  | [] => Eps
  | [r] => r
  | r :: rs' => Seq r (seqs rs')
  end.

Fixpoint alts (rs : list regex) : regex :=
  match rs with
  | [] => Cls (fun _ => false)
  | [r] => r
  | r :: rs' => Alt r (alts rs')
  end.

(** The result of one successful match. *)
Record rmatchres : Type := MR {
  mr_index : nat;
  mr_text : jsstring;
  mr_caps : list (nat * jsstring)
}.

(** Capture group [n] of a match: [None] is [undefined]. *)
Fixpoint cap_lookup (n : nat) (cs : list (nat * jsstring)) : option jsstring :=
  match cs with
  | [] => None
  | (m, s) :: cs' => if Nat.eqb m n then Some s else cap_lookup n cs'
  end.

Definition cap (n : nat) (m : rmatchres) : option jsstring :=
  cap_lookup n (mr_caps m).

(** [$n] in a replacement string: an unset group is the empty string. *)
Definition cap_text (n : nat) (m : rmatchres) : jsstring :=
  match cap n m with Some s => s | None => [] end.

(** One attempt at the current position. *)
Definition exec_at (r : regex) (bef : list char) (s : jsstring) : option rmatchres :=
  match rmatch r Some (MS bef s []) with
  | Some st' =>
      let len := length s - length (ms_rest st') in
      Some (MR (length bef) (firstn len s) (ms_caps st'))
  | None => None
  end.

(** All matches of a global regex, left to right and not overlapping: the loop
    [while ((m = re.exec(text)) !== null)], and [text.match(re)] with [/g].
    [skip] counts the code units of the last match still to step over. *)
Fixpoint scan_from (r : regex) (skip : nat) (bef : list char) (s : jsstring)
  : list rmatchres :=
  match skip with
  | S k =>
      match s with
      | [] => []
      | c :: s' => scan_from r k (c :: bef) s'
      end
  | O =>
      match exec_at r bef s with
      | Some m =>
          m :: match s with
               | [] => []
               | c :: s' => scan_from r (length (mr_text m) - 1) (c :: bef) s'
               end
      | None =>
          match s with
          | [] => []
          | c :: s' => scan_from r 0 (c :: bef) s'
          end
      end
  end.

Definition scan (r : regex) (s : jsstring) : list rmatchres := scan_from r 0 [] s.

(** [re.test(s)] for a regex without the global flag. *)
Definition test (r : regex) (s : jsstring) : bool :=
  match scan r s with [] => false | _ :: _ => true end.

(** [s.replace(re, f)] with the global flag. *)
Fixpoint replace_from (r : regex) (f : rmatchres -> jsstring) (skip : nat)
         (bef : list char) (s : jsstring) : jsstring :=
  match skip with
  | S k =>
      match s with
      | [] => []
      | c :: s' => replace_from r f k (c :: bef) s'
      end
  | O =>
      match exec_at r bef s with
      | Some m =>
          f m ++
          match s with
          | [] => []
          | c :: s' =>
              match length (mr_text m) with
              | O => c :: replace_from r f 0 (c :: bef) s'
              | S n => replace_from r f n (c :: bef) s'
              end
          end
      | None =>
          match s with
          | [] => []
          | c :: s' => c :: replace_from r f 0 (c :: bef) s'
          end
      end
  end.

Definition replace_all (r : regex) (f : rmatchres -> jsstring) (s : jsstring) : jsstring :=
  replace_from r f 0 [] s.

(** Replacement by a constant string. *)
Definition replace_with (r : regex) (by_ : jsstring) (s : jsstring) : jsstring :=
  replace_all r (fun _ => by_) s.

(** [s.split(re)] for a separator that never matches the empty string. *)
Fixpoint split_from (r : regex) (skip : nat) (bef : list char) (cur : jsstring)
         (s : jsstring) : list jsstring :=
  match skip with
  | S k =>
      match s with
      | [] => [rev cur]
      | c :: s' => split_from r k (c :: bef) cur s'
      end
  | O =>
      match s with
      | [] => [rev cur]
      | c :: s' =>
          match exec_at r bef s with
          | Some m =>
              match length (mr_text m) with
              | O => split_from r 0 (c :: bef) (c :: cur) s'
              | S n => rev cur :: split_from r n (c :: bef) [] s'
              end
          | None => split_from r 0 (c :: bef) (c :: cur) s'
          end
      end
  end.

Definition split_re (r : regex) (s : jsstring) : list jsstring :=
  split_from r 0 [] [] s.

(* ------------------------------------------------------------------ *)
(** ** Speech state and backend health (lines 23-123) *)

(** What [speechState.currentUtterance] holds: an [HTMLAudioElement] of the
    remote backend or a [SpeechSynthesisUtterance] of the local one. *)
Inductive media : Type :=
| AudioElement (id : nat)
| Utterance (id : nat).

(** Callbacks handed to [speak] are closures of the caller; the model names
    them by the number of the session that supplied them. *)
Definition callback := nat.

Record SpeechState : Type := mkSpeechState {
  isPlaying : bool;
  currentUtterance : option media;
  lineNumberCallback : option callback;
  onFinishCallback : option callback;
  quotaExceededUntil : option Z;
  fallbackMode : bool;
  fallbackReasonLog : list (Z * jsstring);
  consecutiveErrors : Z;
  lastErrorTime : option Z;
  hasError : bool
}.

(** [const speechState = {...}] *)
Definition initialSpeechState : SpeechState :=
  mkSpeechState false None None None None false [] 0%Z None false.

Definition set_isPlaying (b : bool) (s : SpeechState) : SpeechState :=
  mkSpeechState b (currentUtterance s) (lineNumberCallback s) (onFinishCallback s)
    (quotaExceededUntil s) (fallbackMode s) (fallbackReasonLog s)
    (consecutiveErrors s) (lastErrorTime s) (hasError s).

Definition set_currentUtterance (u : option media) (s : SpeechState) : SpeechState :=
  mkSpeechState (isPlaying s) u (lineNumberCallback s) (onFinishCallback s)
    (quotaExceededUntil s) (fallbackMode s) (fallbackReasonLog s)
    (consecutiveErrors s) (lastErrorTime s) (hasError s).

Definition set_callbacks (onLine onFinish : option callback) (s : SpeechState)
  : SpeechState :=
  mkSpeechState (isPlaying s) (currentUtterance s) onLine onFinish
    (quotaExceededUntil s) (fallbackMode s) (fallbackReasonLog s)
    (consecutiveErrors s) (lastErrorTime s) (hasError s).

Definition set_fallbackMode (b : bool) (s : SpeechState) : SpeechState :=
  mkSpeechState (isPlaying s) (currentUtterance s) (lineNumberCallback s)
    (onFinishCallback s) (quotaExceededUntil s) b (fallbackReasonLog s)
    (consecutiveErrors s) (lastErrorTime s) (hasError s).

Definition set_fallbackReasonLog (l : list (Z * jsstring)) (s : SpeechState)
  : SpeechState :=
  mkSpeechState (isPlaying s) (currentUtterance s) (lineNumberCallback s)
    (onFinishCallback s) (quotaExceededUntil s) (fallbackMode s) l
    (consecutiveErrors s) (lastErrorTime s) (hasError s).

Definition set_consecutiveErrors (n : Z) (s : SpeechState) : SpeechState :=
  mkSpeechState (isPlaying s) (currentUtterance s) (lineNumberCallback s)
    (onFinishCallback s) (quotaExceededUntil s) (fallbackMode s)
    (fallbackReasonLog s) n (lastErrorTime s) (hasError s).

Definition set_lastErrorTime (t : option Z) (s : SpeechState) : SpeechState :=
  mkSpeechState (isPlaying s) (currentUtterance s) (lineNumberCallback s)
    (onFinishCallback s) (quotaExceededUntil s) (fallbackMode s)
    (fallbackReasonLog s) (consecutiveErrors s) t (hasError s).

Definition set_hasError (b : bool) (s : SpeechState) : SpeechState :=
  mkSpeechState (isPlaying s) (currentUtterance s) (lineNumberCallback s)
    (onFinishCallback s) (quotaExceededUntil s) (fallbackMode s)
    (fallbackReasonLog s) (consecutiveErrors s) (lastErrorTime s) b.

(** Truthiness of an optional number: [undefined] and [0] are falsy. *)
Definition truthy_num (x : option Z) : bool :=
  match x with
  | Some v => negb (v =? 0)%Z
  | None => false
  end.

Definition num_or0 (x : option Z) : Z :=
  match x with Some v => v | None => 0%Z end.

(** [shouldUseFallbackDirectly()] with [Date.now() = now]. *)
Definition shouldUseFallbackDirectly (now : Z) (s : SpeechState) : bool :=
  if fallbackMode s then true
  else if (truthy_num (quotaExceededUntil s)
           && (now <? num_or0 (quotaExceededUntil s))%Z)%bool then true
  else if (3 <=? consecutiveErrors s)%Z then true
  else
    let cooldownPeriod := (30 * 1000)%Z in
    if (truthy_num (lastErrorTime s)
        && (now - num_or0 (lastErrorTime s) <? cooldownPeriod)%Z)%bool then true
    else false.

(** [recordFailure(reason)].  A log entry keeps the clock value in place of
    the locale time string. *)
Definition recordFailure (now : Z) (reason : jsstring) (s : SpeechState)
  : SpeechState :=
  let s := set_consecutiveErrors (consecutiveErrors s + 1)%Z s in
  let s := set_lastErrorTime (Some now) s in
  let s := set_fallbackReasonLog (fallbackReasonLog s ++ [(now, reason)]) s in
  let s := if 10 <? length (fallbackReasonLog s)
           then set_fallbackReasonLog (tl (fallbackReasonLog s)) s else s in
  if (5 <=? consecutiveErrors s)%Z then set_fallbackMode true s else s.

(** [resetErrorState()].  [lastErrorAge] is [None] for [Infinity]. *)
Definition resetErrorState (now : Z) (s : SpeechState) : SpeechState :=
  let s := set_consecutiveErrors 0%Z s in
  let s := set_lastErrorTime None s in
  if (fallbackMode s && (consecutiveErrors s =? 0)%Z)%bool then
    let lastErrorAge :=
      if truthy_num (lastErrorTime s)
      then Some (now - num_or0 (lastErrorTime s))%Z else None in
    let older :=
      match lastErrorAge with
      | Some a => (5 * 60 * 1000 <? a)%Z
      | None => true
      end in
    if older then set_fallbackMode false s else s
  else s.

(* ------------------------------------------------------------------ *)
(** ** Marker extraction: [extractLineReferences] (lines 1121-1260) *)

Record marker : Type := mkMarker {
  text : jsstring;
  lineNumber : Z
}.

Definition sp : regex := Cls is_space.
Definition dg : regex := Cls is_digit.

(** [<tag[^>]*>] *)
Definition open_tag (name : string) : regex :=
  seqs [Str name; Star (NotChr ">"); Chr ">"].

(** The tag stripping of [extractLineReferences]. *)
Definition cleanReferenceText (t : jsstring) : jsstring :=
  let t := replace_with (open_tag "<break") (lit ", ") t in
  let t := replace_with (open_tag "<emphasis") [] t in
  let t := replace_with (Str "</emphasis>") [] t in
  let t := replace_with (Str "<p>") [] t in
  let t := replace_with (Str "</p>") [] t in
  let t := replace_with (Str "<s>") [] t in
  let t := replace_with (Str "</s>") [] t in
  let t := replace_with (open_tag "<phoneme") [] t in
  let t := replace_with (Str "</phoneme>") [] t in
  let t := replace_with (open_tag "<sub") [] t in
  let t := replace_with (Str "</sub>") [] t in
  let t := replace_with (open_tag "<say-as") [] t in
  replace_with (Str "</say-as>") [] t.

(** [(?:\s*-\s*\d+)?] *)
Definition range_tail : regex :=
  Opt (seqs [Star sp; Chr "-"; Star sp; Plus dg]).

(** [\[\s*[Ll]ine\s*(\d+)(?:\s*-\s*\d+)?\s*\]] *)
Definition bracketed_ref : regex :=
  seqs [Chr "["; Star sp; OneOf "Ll"; Str "ine"; Star sp; Grp 1 (Plus dg);
        range_tail; Star sp; Chr "]"].

(** [(?:^|\s)[Ll]ine\s*(\d+)(?:\s*-\s*\d+)?\s*(?:\:|\.|,|;|\s|$)] *)
Definition bare_ref : regex :=
  seqs [Alt Bol sp; OneOf "Ll"; Str "ine"; Star sp; Grp 2 (Plus dg);
        range_tail; Star sp;
        alts [Chr ":"; Chr "."; Chr ","; Chr ";"; sp; Eol]].

(** The primary pattern [lineRegex]. *)
Definition lineRegex : regex := Alt bracketed_ref bare_ref.

(** The lenient pattern [/[Ll]ine\s*(\d+)/g]. *)
Definition fallbackRegex : regex :=
  seqs [OneOf "Ll"; Str "ine"; Star sp; Grp 1 (Plus dg)].

(** [a || b] on capture groups: [undefined] and the empty string are falsy. *)
Definition cap_or (a b : option jsstring) : option jsstring :=
  match a with
  | Some (_ :: _) => a
  | _ => b
  end.

(** [parseInt(x, 10)] of a possibly undefined capture group. *)
Definition parseInt_cap (x : option jsstring) : option Z :=
  match x with
  | Some s => parseInt s
  | None => None
  end.

(** One turn of a [while ((match = re.exec(..)) !== null)] loop of the
    extractor: the marker pushed for a match, if any. *)
Definition marker_of_match (num : rmatchres -> option jsstring) (m : rmatchres)
  : list marker :=
  match parseInt_cap (num m) with
  | Some lineNum => [mkMarker (mr_text m) (lineNum - 1)%Z]
  | None => []
  end.

Definition primary_markers (cleanText : jsstring) : list marker :=
  flat_map (marker_of_match (fun m => cap_or (cap 1 m) (cap 2 m)))
           (scan lineRegex cleanText).

Definition lenient_markers (cleanText : jsstring) : list marker :=
  flat_map (marker_of_match (cap 1)) (scan fallbackRegex cleanText).

(** A trimmed code line that is neither empty nor the start of a comment. *)
Definition meaningful (line : jsstring) : bool :=
  (negb (match line with [] => true | _ :: _ => false end)
   && negb (startsWith line (lit "//"))
   && negb (startsWith line (lit "/*"))
   && negb (startsWith line (lit "*"))
   && negb (startsWith line (lit "#")))%bool.

(** The loop [for (let i = 0; i < 5; i++)]: [fuel] turns are left and [i] is
    the loop counter.  The result is [finalLineNumber]. *)
Fixpoint look_ahead (codeLines : list jsstring) (lineNumber maxLine : Z)
         (i : Z) (fuel : nat) (finalLineNumber : Z) : Z :=
  match fuel with
  | O => finalLineNumber
  | S f =>
      let checkLine := (lineNumber + i)%Z in
      if (maxLine <? checkLine)%Z then finalLineNumber
      else
        let line := trim (nth (Z.to_nat checkLine) codeLines []) in
        if meaningful line then checkLine
        else look_ahead codeLines lineNumber maxLine (i + 1)%Z f finalLineNumber
  end.

(** The body of [lineMarkers.map(marker => ...)]. *)
Definition validate_marker (codeLines : list jsstring) (mk : marker) : marker :=
  let len := Z.of_nat (length codeLines) in
  let lineNumber := lineNumber mk in
  let lineNumber :=
    if (lineNumber <? 0)%Z then 0%Z
    else if (len <=? lineNumber)%Z then (len - 1)%Z
    else lineNumber in
  let maxLine := (len - 1)%Z in
  mkMarker (text mk) (look_ahead codeLines lineNumber maxLine 0 5 lineNumber).

Definition nonempty_code (codeToValidate : option jsstring) : option jsstring :=
  match codeToValidate with
  | Some (_ :: _) => codeToValidate
  | _ => None
  end.

(** The loop [for (let i = 1; i <= numMarkers; i++)] of the synthetic markers. *)
Fixpoint synthetic_from (len interval : Z) (i : Z) (fuel : nat) : list marker :=
  match fuel with
  | O => []
  | S f =>
      let lineNumber := (i * interval)%Z in
      (if (lineNumber <? len)%Z
       then [mkMarker (lit "Synthetic marker " ++ dec_of_Z i) lineNumber]
       else [])
      ++ synthetic_from len interval (i + 1)%Z f
  end.

Definition numMarkers_of (len : Z) : Z :=
  Z.min 8 (Z.max 3 (len / 15)).

Definition syntheticMarkers (codeLines : list jsstring) : list marker :=
  let len := Z.of_nat (length codeLines) in
  let numMarkers := numMarkers_of len in
  let interval := (len / (numMarkers + 1))%Z in
  synthetic_from len interval 1 (Z.to_nat numMarkers).

(** [extractLineReferences(text, codeToValidate)].  Nothing in the [try] block
    can throw on strings, so the [catch] path is left out. *)
Definition extractLineReferences (t : jsstring) (codeToValidate : option jsstring)
  : list marker :=
  let cleanText := cleanReferenceText t in
  let lineMarkers := primary_markers cleanText in
  let lineMarkers :=
    match lineMarkers with
    | [] => lenient_markers cleanText
    | _ :: _ => lineMarkers
    end in
  match nonempty_code codeToValidate, lineMarkers with
  | Some code, _ :: _ =>
      let codeLines := split_chr 10%N code in
      map (validate_marker codeLines) lineMarkers
  | _, _ :: _ => lineMarkers
  | Some code, [] => syntheticMarkers (split_chr 10%N code)
  | None, [] => []
  end.

(* ------------------------------------------------------------------ *)
(** ** SSML conversion: [textToSSML] (lines 213-254) *)

Inductive VoiceType : Type := standard | wavenet | neural2.
Inductive SsmlGender : Type := MALE | FEMALE | NEUTRAL.

Record VoiceOptions : Type := mkVoice {
  languageCode : jsstring;
  name : jsstring;
  ssmlGender : SsmlGender;
  type : VoiceType
}.

Definition defaultVoice : VoiceOptions :=
  mkVoice (lit "en-US") (lit "en-US-Neural2-D") MALE neural2.

Definition bslash : regex := Chr "\".

(** [.]: any code unit but a line terminator. *)
Definition any_char : regex :=
  Cls (fun c => negb (char_in [10; 13; 8232; 8233]%N c)).

(** [(?:\\s*-\\s*\\d+)?] as the regex literal of line 226 reads: every doubled
    backslash is a literal backslash, followed by plain letters. *)
Definition escaped_range_tail : regex :=
  Opt (seqs [bslash; Star (Chr "s"); Chr "-"; bslash; Star (Chr "s");
             bslash; Plus (Chr "d")]).

(** [lineMarkerRegex] of [textToSSML], as written at line 226. *)
Definition lineMarkerRegex : regex :=
  Alt
    (seqs [bslash; OneOf "\s*[Ll"; Str "ine"; bslash; Star (Chr "s");
           Grp 1 (seqs [bslash; Plus (Chr "d")]); escaped_range_tail;
           bslash; Star (Chr "s"); bslash; Chr "]"])
    (seqs [Alt Bol (seqs [bslash; Chr "s"]); OneOf "Ll"; Str "ine";
           bslash; Star (Chr "s");
           Grp 2 (seqs [bslash; Plus (Chr "d")]); escaped_range_tail;
           bslash; Star (Chr "s");
           alts [seqs [bslash; Chr ":"]; seqs [bslash; any_char]; Chr ",";
                 Chr ";"; seqs [bslash; Chr "s"]; Eol]]).

(** [<break time="..."/>] *)
Definition break_tag (time : string) : jsstring :=
  lit "<break time=" ++ [dquote] ++ lit time ++ [dquote] ++ lit "/>".

Definition emphasis (inner : jsstring) : jsstring :=
  lit "<emphasis level=" ++ [dquote] ++ lit "moderate" ++ [dquote] ++ lit ">"
  ++ inner ++ lit "</emphasis>".

Definition keywordRegex : regex :=
  seqs [WordB;
        Grp 1 (alts [Str "function"; Str "class"; Str "const"; Str "let";
                     Str "var"; Str "return"; Str "if"; Str "else"; Str "for";
                     Str "while"; Str "try"; Str "catch"; Str "import";
                     Str "from"; Str "export"]);
        WordB].

Definition backtickRegex : regex :=
  seqs [Chr "`"; Grp 1 (Plus (NotChr "`")); Chr "`"].

Definition textToSSML (t : jsstring) (voiceOptions : VoiceOptions)
           (removeLiteralLineMarkers : bool) : jsstring :=
  let escapedText := replace_with (Chr "&") (lit "&amp;") t in
  let escapedText := replace_with (Chr "<") (lit "&lt;") escapedText in
  let escapedText := replace_with (Chr ">") (lit "&gt;") escapedText in
  let escapedText := replace_with (Cls (N.eqb dquote)) (lit "&quot;") escapedText in
  let escapedText := replace_with (Chr "'") (lit "&apos;") escapedText in
  let escapedText :=
    if removeLiteralLineMarkers
    then replace_with lineMarkerRegex (lit " ") escapedText
    else escapedText in
  let ssml := escapedText in
  let ssml := replace_with (seqs [Chr "."; sp]) (lit "." ++ break_tag "350ms" ++ lit " ") ssml in
  let ssml := replace_with (seqs [Chr ";"; sp]) (lit ";" ++ break_tag "300ms" ++ lit " ") ssml in
  let ssml := replace_with (seqs [Chr ":"; sp]) (lit ":" ++ break_tag "250ms" ++ lit " ") ssml in
  let ssml := replace_with (seqs [Chr "!"; sp]) (lit "!" ++ break_tag "400ms" ++ lit " ") ssml in
  let ssml := replace_with (seqs [Chr "?"; sp]) (lit "?" ++ break_tag "400ms" ++ lit " ") ssml in
  let ssml := replace_all keywordRegex (fun m => emphasis (mr_text m)) ssml in
  let ssml := replace_all backtickRegex (fun m => emphasis (cap_text 1 m)) ssml in
  lit "<speak><prosody rate=" ++ [dquote] ++ lit "0.95" ++ [dquote] ++ lit ">"
  ++ ssml ++ lit "</prosody></speak>".

(* ------------------------------------------------------------------ *)
(** ** The remote synthesis adapter: [synthesizeSpeech] (lines 261-421) *)

(** A computation that returns or throws; [Throw (Some m)] is an [Error] with
    message [m], [Throw None] any other thrown value. *)
Inductive result (A : Type) : Type :=
| Ok (a : A)
| Throw (message : option jsstring).
Arguments Ok {A} a.
Arguments Throw {A} message.

Definition bind {A B : Type} (x : result A) (f : A -> result B) : result B :=
  match x with
  | Ok a => f a
  | Throw m => Throw m
  end.

(** [try { body } catch (e) { handler(e) }] *)
Definition try_catch {A : Type} (body : result A)
           (handler : option jsstring -> result A) : result A :=
  match body with
  | Ok a => Ok a
  | Throw m => handler m
  end.

Notation "x <- e ;; k" := (bind e (fun x => k))
  (at level 61, e at next level, right associativity).

(** The fields of the parsed response body that the adapter reads. *)
Record responseData : Type := mkData {
  success : bool;
  audio : option jsstring;
  error : option jsstring
}.

(** What the page gets from [fetch('/api/tts')]: the status, and what
    [response.text()] and [response.json()] resolve to (or reject with). *)
Record response : Type := mkResponse {
  status : Z;
  body_text : result jsstring;
  body_json : result responseData
}.

(** [response.ok] *)
Definition response_ok (r : response) : bool :=
  ((200 <=? status r) && (status r <=? 299))%Z%bool.

(** The behaviour of the network for one call: [fetch] rejects, or resolves. *)
Inductive network : Type :=
| FetchRejects (message : option jsstring)
| FetchResolves (r : response).

(** The request body sent to the endpoint. *)
Record payload : Type := mkPayload {
  p_text : jsstring;
  p_isSSML : bool;
  p_languageCode : jsstring;
  p_name : jsstring;
  p_ssmlGender : SsmlGender
}.

(** [`tts-fallback-${Date.now()}`] *)
Definition fallbackId (now : Z) : jsstring := lit "tts-fallback-" ++ dec_of_Z now.

(** [/\bline\s+\d+\b/i] *)
Definition lineWordRegex : regex :=
  seqs [WordB; OneOf "lL"; OneOf "iI"; OneOf "nN"; OneOf "eE"; Plus sp;
        Plus dg; WordB].

(** [/^[A-Za-z0-9+/=]+$/] *)
Definition is_base64_char (c : char) : bool :=
  (in_range 65%N 90%N c || in_range 97%N 122%N c || in_range 48%N 57%N c
   || N.eqb c 43%N || N.eqb c 47%N || N.eqb c 61%N)%bool.

Definition base64Regex : regex := seqs [Bol; Plus (Cls is_base64_char); Eol].

(** ['='.repeat(n)] *)
Definition pad_eq (n : nat) : jsstring := repeat 61%N n.

(** The padding step shared by [synthesizeSpeech] and [playSpeech]. *)
Definition fix_padding (a : jsstring) : jsstring :=
  if negb (length a mod 4 =? 0) then
    let paddingNeeded := 4 - length a mod 4 in
    if paddingNeeded <? 4 then a ++ pad_eq paddingNeeded else a
  else a.

Definition is_ascii_ws (c : char) : bool := char_in [9; 10; 12; 13; 32]%N c.

Definition strip_trailing_eq (s : jsstring) : jsstring :=
  match rev s with
  | 61%N :: 61%N :: r => rev r
  | 61%N :: r => rev r
  | _ => s
  end.

(** [atob(s)], by the forgiving-base64 decoding of the HTML standard: the
    length of the decoded byte string, or [None] when [atob] throws. *)
Definition atob_length (s : jsstring) : option nat :=
  let s := filter (fun c => negb (is_ascii_ws c)) s in
  let s := if length s mod 4 =? 0 then strip_trailing_eq s else s in
  if length s mod 4 =? 1 then None
  else if forallb (fun c => (is_base64_char c && negb (N.eqb c 61%N))%bool) s
       then Some (length s * 6 / 8)
       else None.

Definition atob (s : jsstring) : result nat :=
  match atob_length s with
  | Some n => Ok n
  | None => Throw (Some (lit "The string to be decoded is not correctly encoded."))
  end.

(** The text with generated references to every significant line that
    [synthesizeSpeech] builds when the text has no line marker (lines 269-289). *)
Fixpoint enhance_lines (codeLines : list jsstring) (i : nat) : jsstring :=
  match codeLines with
  | [] => []
  | l :: rest =>
      let line := trim l in
      (if (negb (match line with [] => true | _ :: _ => false end)
           && negb (startsWith line (lit "//"))
           && negb (startsWith line (lit "/*"))
           && negb (startsWith line (lit "*")))%bool
       then break_tag "0.5s" ++ lit " [Line " ++ dec_of_N (N.of_nat (i + 1))
            ++ lit "]: " ++ line ++ lit " " ++ break_tag "0.8s"
       else [])
      ++ enhance_lines rest (S i)
  end.

Definition enhancedText (codeLines : list jsstring) : jsstring :=
  lit "This code has " ++ dec_of_N (N.of_nat (length codeLines))
  ++ lit " lines. Let's examine it line by line. " ++ break_tag "1s"
  ++ enhance_lines codeLines 0.

(** The SSML document sent to the endpoint: lines 264-296. *)
Definition wrappedSSML_of (t : jsstring) (voiceOptions : VoiceOptions)
           (codeToValidate : option jsstring) : jsstring :=
  let hasLineMarkers :=
    (includes t (lit "[Line") || includes t (lit "Line ")
     || test lineWordRegex t)%bool in
  let t :=
    match nonempty_code codeToValidate with
    | Some code => if negb hasLineMarkers then enhancedText (split_chr 10%N code) else t
    | None => t
    end in
  let ssmlText := textToSSML t voiceOptions false in
  if startsWith (trim ssmlText) (lit "<speak>") then ssmlText
  else lit "<speak>" ++ ssmlText ++ lit "</speak>".

(** What one call leaves behind: the string the promise resolves to, the
    speech state, and the requests that went to the network. *)
Record synth_out : Type := mkOut {
  so_value : jsstring;
  so_state : SpeechState;
  so_requests : list payload
}.

Definition truthy_str (x : option jsstring) : bool :=
  match x with Some (_ :: _) => true | _ => false end.

Definition str_or_empty (x : option jsstring) : jsstring :=
  match x with Some s => s | None => [] end.

(** The [try] block of [synthesizeSpeech] (lines 333-415), after the request
    [req] has been handed to [fetch].  The two inner [try]/[catch] blocks wrap
    [response.json()] and [atob] alone. *)
Definition api_call (now : Z) (net : network) (req : payload) (s : SpeechState)
  : result synth_out :=
  resp <- match net with
          | FetchRejects m => Throw m
          | FetchResolves r => Ok r
          end ;;
  if negb (response_ok resp) then
    errorText <- body_text resp ;;
    Ok (mkOut (fallbackId now)
          (recordFailure now
             (lit "API error (" ++ dec_of_Z (status resp) ++ lit "): "
              ++ substring 0 100 errorText) s)
          [req])
  else
    match body_json resp with
    | Throw _ =>
        Ok (mkOut (fallbackId now)
              (recordFailure now (lit "Invalid JSON response from API") s) [req])
    | Ok data =>
        if (success data && truthy_str (audio data)
            && (0 <? length (str_or_empty (audio data))))%bool then
          let audio := fix_padding (str_or_empty (audio data)) in
          if negb (test base64Regex audio) then
            Ok (mkOut (fallbackId now)
                  (recordFailure now
                     (lit "Invalid base64 characters in audio data") s)
                  [req])
          else
            match atob (substring 0 100 audio) with
            | Throw _ =>
                Ok (mkOut (fallbackId now)
                      (recordFailure now (lit "Invalid base64 encoding") s)
                      [req])
            | Ok _ => Ok (mkOut audio (resetErrorState now s) [req])
            end
        else if truthy_str (error data) then
          Ok (mkOut (fallbackId now)
                (recordFailure now
                   (lit "API returned error: " ++ str_or_empty (error data)) s)
                [req])
        else
          Ok (mkOut (fallbackId now)
                (recordFailure now
                   (lit "Invalid or missing audio data from API") s)
                [req])
    end.

(** [synthesizeSpeech(text, voiceOptions, codeToValidate)] at clock value
    [now], with [net] the behaviour of the network if it is called. *)
Definition synthesizeSpeech (now : Z) (net : network) (t : jsstring)
           (voiceOptions : VoiceOptions) (codeToValidate : option jsstring)
           (s : SpeechState) : result synth_out :=
  let wrappedSSML := wrappedSSML_of t voiceOptions codeToValidate in
  let textBytes := utf8_length wrappedSSML in
  if 5000 <? textBytes then Ok (mkOut (fallbackId now) s [])
  else
    let req := mkPayload wrappedSSML true (languageCode voiceOptions)
                 (name voiceOptions) (ssmlGender voiceOptions) in
    if shouldUseFallbackDirectly now s then Ok (mkOut (fallbackId now) s [])
    else
      try_catch (api_call now net req s)
        (fun m =>
           let reason :=
             match m with
             | Some message => message
             | None => lit "Unknown error in synthesizeSpeech"
             end in
           Ok (mkOut (fallbackId now) (recordFailure now reason s) [req])).

(* ------------------------------------------------------------------ *)
(** ** JavaScript numbers *)

(** A count as a number: the double nearest to it (the count itself below
    2^53, and every length is). *)
Definition num (n : nat) : float :=
  SF2Prim (binary_normalize prec emax (Z.of_nat n) 0 false).

(** The integer value of a double: sign, mantissa and exponent. *)
Definition signed (s : bool) (m : positive) : Z :=
  if s then Z.neg m else Z.pos m.

(** [Math.floor(x)] for a finite [x], as an integer; [None] for [NaN] and
    the infinities, which [Math.floor] leaves as they are. *)
Definition Math_floor (x : float) : option Z :=
  match Prim2SF x with
  | S754_zero _ => Some 0%Z
  | S754_finite s m e =>
      Some (if (0 <=? e)%Z then signed s m * 2 ^ e
            else signed s m / 2 ^ (- e))%Z
  | _ => None
  end.

(** The rational value of a finite double. *)
Definition Q_of_float (x : float) : option Q :=
  match Prim2SF x with
  | S754_zero _ => Some 0%Q
  | S754_finite s m e =>
      Some (if (0 <=? e)%Z then inject_Z (signed s m * 2 ^ e)
            else (signed s m # 2 ^ Z.to_pos (- e))%Q)
  | _ => None
  end.

(** The delay of a timer: the value of the number that [setTimeout] is
    given, and 0 for [NaN] and the infinities.  (A browser cuts the delay to
    whole milliseconds; the clock of the model moves in whole milliseconds
    too.) *)
Definition delay_of (x : float) : Q :=
  match Q_of_float x with Some q => q | None => 0%Q end.

(** [Math.max(0, x)] *)
Definition Math_max_0 (x : float) : float :=
  if PrimFloat.is_nan x then x
  else if (0 <? x)%float then x else 0%float.

(** [x || 1] for a number: [0], [-0] and [NaN] are falsy. *)
Definition or_one (x : float) : float :=
  if (PrimFloat.is_nan x || PrimFloat.is_zero x)%bool then 1%float else x.

(* ------------------------------------------------------------------ *)
(** ** The page: timers, media elements and what the caller observes *)

(** What a pending [setTimeout] does when it fires.  Both read the callback
    from [speechState] at that moment. *)
Inductive action : Type :=
| Highlight (line : Z)
    (* if (speechState.lineNumberCallback) speechState.lineNumberCallback(line) *)
| EnsureFinish.
    (* if (speechState.onFinishCallback) speechState.onFinishCallback() *)

Record timer : Type := mkTimer {
  t_id : nat;
  t_due : Q;            (* clock value, in ms, at which it fires *)
  t_action : action;
  t_session : nat       (* ghost: the [speak] call that armed it *)
}.

(** An [Audio] element made by [playSpeech], with what its handlers close
    over: the [timers] array, [text] and [lineMarkers]. *)
Record audio_el : Type := mkAudio {
  a_id : nat;
  a_timers : list nat;
  a_text : jsstring;
  a_markers : list marker
}.

(** A [SpeechSynthesisUtterance] made by [useBrowserSpeechAPI], with the inner
    [timers] array (declared at line 854) its [onend] handler closes over. *)
Record utterance : Type := mkUtterance {
  u_id : nat;
  u_text : jsstring;
  u_timers : list nat
}.

(** What can be seen from outside, oldest first. *)
Inductive obs : Type :=
| SpeakCalled (session : nat)
| SpeakReturned (session : nat) (value : bool)
| StopReturned
| HighlightCalled (cb : callback) (line : Z) (armedBy : nat)
| FinishCalled (cb : callback)
| Requested (p : payload)
| AudioPlay (id : nat)
| AudioPause (id : nat)
| SynthSpeak (id : nat)
| SynthCancel.

Record world : Type := mkWorld {
  speech : SpeechState;
  clock : Z;
  pending : list timer;
  audios : list audio_el;
  utterances : list utterance;
  fresh : nat;          (* next timer or media handle *)
  session : nat;        (* ghost: number of [speak] calls so far *)
  history : list obs
}.

Definition initialWorld : world :=
  mkWorld initialSpeechState 0 [] [] [] 0 0 [].

Definition with_speech (f : SpeechState -> SpeechState) (w : world) : world :=
  mkWorld (f (speech w)) (clock w) (pending w) (audios w) (utterances w)
    (fresh w) (session w) (history w).

Definition with_clock (t : Z) (w : world) : world :=
  mkWorld (speech w) t (pending w) (audios w) (utterances w)
    (fresh w) (session w) (history w).

Definition with_pending (p : list timer) (w : world) : world :=
  mkWorld (speech w) (clock w) p (audios w) (utterances w)
    (fresh w) (session w) (history w).

Definition with_audios (a : list audio_el) (w : world) : world :=
  mkWorld (speech w) (clock w) (pending w) a (utterances w)
    (fresh w) (session w) (history w).

Definition with_utterances (u : list utterance) (w : world) : world :=
  mkWorld (speech w) (clock w) (pending w) (audios w) u
    (fresh w) (session w) (history w).

Definition with_fresh (n : nat) (w : world) : world :=
  mkWorld (speech w) (clock w) (pending w) (audios w) (utterances w)
    n (session w) (history w).

Definition with_session (n : nat) (w : world) : world :=
  mkWorld (speech w) (clock w) (pending w) (audios w) (utterances w)
    (fresh w) n (history w).

Definition observe (o : obs) (w : world) : world :=
  mkWorld (speech w) (clock w) (pending w) (audios w) (utterances w)
    (fresh w) (session w) (history w ++ [o]).

(** [setTimeout(action, delay)]: the handle is the second component. *)
Definition setTimeout (a : action) (delay : Q) (w : world) : world * nat :=
  let id := fresh w in
  let tm := mkTimer id (inject_Z (clock w) + delay)%Q a (session w) in
  (with_fresh (S id) (with_pending (pending w ++ [tm]) w), id).

(** [timers.forEach(timer => clearTimeout(timer))] *)
Definition clearTimeouts (ids : list nat) (w : world) : world :=
  with_pending
    (filter (fun tm => negb (existsb (Nat.eqb (t_id tm)) ids)) (pending w)) w.

(** [if (speechState.onFinishCallback) speechState.onFinishCallback()] *)
Definition call_onFinish (w : world) : world :=
  match onFinishCallback (speech w) with
  | Some cb => observe (FinishCalled cb) w
  | None => w
  end.

(** [if (speechState.lineNumberCallback) speechState.lineNumberCallback(line)]
    inside a timer armed by session [armedBy]. *)
Definition call_lineNumber (line : Z) (armedBy : nat) (w : world) : world :=
  match lineNumberCallback (speech w) with
  | Some cb => observe (HighlightCalled cb line armedBy) w
  | None => w
  end.

Definition fire (tm : timer) (w : world) : world :=
  match t_action tm with
  | Highlight line => call_lineNumber line (t_session tm) w
  | EnsureFinish => call_onFinish w
  end.

(** The pending timer that fires next before or at time [t]: the earliest
    due, and among equals the one armed first. *)
Fixpoint next_due (t : Z) (best : option timer) (ts : list timer) : option timer :=
  match ts with
  | [] => best
  | tm :: ts' =>
      if Qle_bool (t_due tm) (inject_Z t) then
        match best with
        | Some b =>
            if Qle_bool (t_due b) (t_due tm) then next_due t best ts'
            else next_due t (Some tm) ts'
        | None => next_due t (Some tm) ts'
        end
      else next_due t best ts'
  end.

(** The event loop runs every timer due by [t], in order. *)
Fixpoint run_timers (fuel : nat) (t : Z) (w : world) : world :=
  match fuel with
  | O => w
  | S f =>
      match next_due t None (pending w) with
      | Some tm => run_timers f t (fire tm (clearTimeouts [t_id tm] w))
      | None => w
      end
  end.

Definition advance (t : Z) (w : world) : world :=
  with_clock t (run_timers (length (pending w)) t w).

(* ------------------------------------------------------------------ *)
(** ** The local backend: [useBrowserSpeechAPI] (lines 662-997) *)

(** The browser the page runs in. *)
Record browser : Type := mkBrowser {
  hasSpeechSynthesis : bool      (* 'speechSynthesis' in window *)
}.

(** The tag stripping of [useBrowserSpeechAPI] (lines 716-734). *)
Definition cleanSpeechText (t : jsstring) : jsstring :=
  let t := replace_with (open_tag "<break") (lit ", ") t in
  let t := replace_with (open_tag "<emphasis") [] t in
  let t := replace_with (Str "</emphasis>") [] t in
  let t := replace_with (open_tag "<voice") [] t in
  let t := replace_with (Str "</voice>") [] t in
  let t := replace_with (open_tag "<prosody") [] t in
  let t := replace_with (Str "</prosody>") [] t in
  let t := replace_with (open_tag "<speak") [] t in
  let t := replace_with (Str "</speak>") [] t in
  let t := replace_with (open_tag "<say-as") [] t in
  let t := replace_with (Str "</say-as>") [] t in
  let t := replace_with (Str "<p>") [] t in
  let t := replace_with (Str "</p>") (lit ". ") t in
  let t := replace_with (Str "<s>") [] t in
  let t := replace_with (Str "</s>") (lit ". ") t in
  let t := replace_with (open_tag "<") [] t in
  let t := replace_all (seqs [Str "[Line"; Star sp; Grp 1 (Plus dg); Chr "]"])
             (fun m => lit "Line " ++ cap_text 1 m) t in
  replace_all
    (seqs [Str "[Lines"; Star sp; Grp 1 (Plus dg); Star sp; Chr "-"; Star sp;
           Grp 2 (Plus dg); Chr "]"])
    (fun m => lit "Lines " ++ cap_text 1 m ++ lit " to " ++ cap_text 2 m) t.

(** [utterance.rate = 0.9], read back at line 839 as the same double.  (A
    browser that keeps the rate in single precision reads back another
    number; [totalDurationMs] takes the rate as a parameter.) *)
Definition utteranceRate : float := 0.9%float.

(** Lines 834-849: the estimated duration of the speech, in milliseconds, for
    an utterance of rate [rate]. *)
Definition wordCount_of (cleanText : jsstring) : nat :=
  length (split_re (Plus sp) cleanText).

Definition pauseCount_of (cleanText : jsstring) : nat :=
  length (scan (OneOf ",.;:?!") cleanText).

Definition totalDurationMs (cleanText : jsstring) (rate : float) : float :=
  let wordCount := wordCount_of cleanText in
  let baseWordsPerSecond := 2.5%float in
  let speechRate := or_one rate in
  let wordsPerSecond := (baseWordsPerSecond / speechRate)%float in
  let pauseCount := pauseCount_of cleanText in
  let pauseDuration := 250%float in
  let baseDuration := ((num wordCount / wordsPerSecond) * 1000)%float in
  let pauseTime := (num pauseCount * pauseDuration)%float in
  (baseDuration + pauseTime)%float.

(** Lines 813-829: markers made from the sentences of the text. *)
Fixpoint sentence_markers (sentences : list jsstring) (lineCount : Z)
         (acc : list marker) : list marker :=
  match sentences with
  | [] => acc
  | s :: rest =>
      if 10 <? length (trim s) then
        let acc' := acc ++ [mkMarker s (lineCount mod 10)%Z] in
        if 10 <=? length acc' then acc'
        else sentence_markers rest (lineCount + 1)%Z acc'
      else sentence_markers rest lineCount acc
  end.

(** Lines 771-829: the markers the local backend ends up with. *)
Definition local_markers (cleanText : jsstring) (lineMarkers : list marker)
  : list marker :=
  let lineMarkers :=
    match lineMarkers with
    | [] =>
        match primary_markers cleanText with
        | [] => lenient_markers cleanText
        | ms => ms
        end
    | _ :: _ => lineMarkers
    end in
  match lineMarkers with
  | [] => sentence_markers (split_re (seqs [OneOf ".!?"; Plus sp]) cleanText) 0 []
  | _ :: _ => lineMarkers
  end.

(** [findApproximatePositions]: the position (a fraction of the text) and the
    text around marker number [markerIndex]. *)
Definition approximatePosition (cleanText : jsstring) (n : nat)
           (markerIndex : nat) (mk : marker) : float * jsstring :=
  let markerPattern := substring 0 (Nat.min 15 (length (text mk))) (text mk) in
  match indexOf cleanText markerPattern with
  | Some (S p) =>
      let patternIndex := S p in
      ((num patternIndex / num (length cleanText))%float,
       substring (patternIndex - 10) (Nat.min (length cleanText) (patternIndex + 30))
                 cleanText)
  | _ =>
      (if n <=? 1 then 0.2%float
       else (0.1 + 0.8 * (num markerIndex / num (n - 1)))%float,
       lit "[position estimated]")
  end.

(** [/[.!?]\s*$/] *)
Definition sentenceEndRegex : regex := seqs [OneOf ".!?"; Star sp; Eol].

(** The timing of marker number [index], as [calculateAdaptiveHighlightTiming]
    computes it. *)
Definition adaptiveTiming (cleanText : jsstring) (total : float) (n : nat)
           (index : nat) (mk : marker) : float :=
  let '(position, textAroundMarker) := approximatePosition cleanText n index mk in
  let basicTiming := (position * total)%float in
  let initialDelay := 500%float in
  let progressiveFactor := Math_max_0 (1 - (num index / num n) * 1.5)%float in
  let progressiveDelay := (initialDelay * progressiveFactor)%float in
  let minSpaceBetweenHighlights := 400%float in
  let spacingAdjustment :=
    (num index * (minSpaceBetweenHighlights * 0.5) * (1 - position))%float in
  let textBeforeMarker := substring 0 10 textAroundMarker in
  let sentenceBreakDelay :=
    if test sentenceEndRegex textBeforeMarker then 500%float else 0%float in
  (basicTiming + progressiveDelay + spacingAdjustment + sentenceBreakDelay)%float.

(** Arms one timer per marker; [delay] gives the delay of marker number
    [index].  Returns the handles in the order of arming. *)
Fixpoint arm_highlights (delay : nat -> marker -> option Q) (index : nat)
         (ms : list marker) (w : world) : world * list nat :=
  match ms with
  | [] => (w, [])
  | mk :: rest =>
      match delay index mk with
      | Some d =>
          let '(w1, id) := setTimeout (Highlight (lineNumber mk)) d w in
          let '(w2, ids) := arm_highlights delay (S index) rest w1 in
          (w2, id :: ids)
      | None => arm_highlights delay (S index) rest w
      end
  end.

Definition is_some {A : Type} (x : option A) : bool :=
  match x with Some _ => true | None => false end.

(** [useBrowserSpeechAPI(text, speechState, lineMarkers)].  The second
    component is the [lineMarkers] array as the call leaves it (the source
    pushes into the caller's array when it is empty). *)
Definition useBrowserSpeechAPI (b : browser) (t : jsstring)
           (lineMarkers : list marker) (w : world) : world * list marker :=
  (* lines 669-697: the outer [timers] array and the fail-safe highlights *)
  let w :=
    if ((0 <? length lineMarkers) && is_some (lineNumberCallback (speech w)))%bool
    then
      let totalDuration := 10000%float in
      fst (arm_highlights
             (fun index _ =>
                Some (delay_of ((totalDuration / num (length lineMarkers))
                                * num index)%float))
             0 lineMarkers w)
    else w in
  (* lines 699-707: the safety timer, pushed to the outer array *)
  let w := fst (setTimeout EnsureFinish 15000%Q w) in
  if negb (hasSpeechSynthesis b) then (call_onFinish w, lineMarkers)
  else
    let cleanText := cleanSpeechText t in
    let lineMarkers := local_markers cleanText lineMarkers in
    let total := totalDurationMs cleanText utteranceRate in
    (* line 854: a second array named [timers], local to the [try] block *)
    let '(w, timers) :=
      arm_highlights
        (fun index mk =>
           Some (delay_of
                   (adaptiveTiming cleanText total (length lineMarkers) index mk)))
        0 lineMarkers w in
    let id := fresh w in
    let w := with_fresh (S id) w in
    let w := with_utterances (utterances w ++ [mkUtterance id cleanText timers]) w in
    let w := with_speech (set_currentUtterance (Some (Utterance id))) w in
    (observe (SynthSpeak id) w, lineMarkers).

(** [utterance.onstart] *)
Definition utterance_onstart (w : world) : world :=
  with_speech (set_isPlaying true) w.

(** [utterance.onend] (lines 942-948) *)
Definition utterance_onend (u : utterance) (w : world) : world :=
  let w := with_speech (set_isPlaying false) w in
  let w := clearTimeouts (u_timers u) w in
  call_onFinish w.

(** [utterance.onerror] (lines 950-986) *)
Definition utterance_onerror (w : world) : world :=
  let w := with_speech (set_hasError true) w in
  fst (setTimeout EnsureFinish 12000%Q w).

(* ------------------------------------------------------------------ *)
(** ** The remote backend: [playSpeech] (lines 426-649) *)

(** Lines 541-542 and 560: [highlightTime], from the two word counts. *)
Definition highlightTime (wordsBefore wordCount : nat) : option Z :=
  let estimatedDuration := (num wordCount / 2.5)%float in
  Math_floor ((num wordsBefore / num wordCount) * estimatedDuration * 1000)%float.

(** Lines 539-572: the delay of the highlight of marker [mk], or [None] when
    its text is not found in [text]. *)
Definition remoteHighlightTime (t : jsstring) (mk : marker) : option Q :=
  let wordCount := length (split_re (Plus sp) t) in
  match indexOf t (text mk) with
  | None => None
  | Some markerPosition =>
      let textBefore := substring 0 markerPosition t in
      let wordsBefore := length (split_re (Plus sp) textBefore) in
      Some (match highlightTime wordsBefore wordCount with
            | Some ms => inject_Z ms
            | None => 0%Q
            end)
  end.

(** [playSpeech(audioIdOrData, text, lineMarkers)] for the string that
    [speak] passes.  The page has a [window]; the [catch] of the outer [try]
    has nothing to catch in this model. *)
Definition playSpeech (b : browser) (audioIdOrData : jsstring) (t : jsstring)
           (lineMarkers : list marker) (w : world) : world :=
  let isGoogleTTS := negb (startsWith audioIdOrData (lit "tts-fallback-")) in
  if isGoogleTTS then
    if length audioIdOrData <? 10 then
      fst (useBrowserSpeechAPI b t lineMarkers w)
    else if negb (test base64Regex audioIdOrData) then
      fst (useBrowserSpeechAPI b t lineMarkers w)
    else
      let audioIdOrData := fix_padding audioIdOrData in
      match atob audioIdOrData with
      | Throw _ => fst (useBrowserSpeechAPI b t lineMarkers w)
      | Ok decodedLength =>
          if decodedLength <? 100 then
            fst (useBrowserSpeechAPI b t lineMarkers w)
          else
            let '(w, timers) :=
              arm_highlights (fun _ mk => remoteHighlightTime t mk) 0
                             lineMarkers w in
            let id := fresh w in
            let w := with_fresh (S id) w in
            let w := with_audios
                       (audios w ++ [mkAudio id timers t lineMarkers]) w in
            let w := with_speech (set_currentUtterance (Some (AudioElement id))) w in
            observe (AudioPlay id) w
      end
  else w.

(** [audio.onplay] *)
Definition audio_onplay (w : world) : world :=
  with_speech (set_isPlaying true) w.

(** [audio.onended] (lines 575-587) *)
Definition audio_onended (a : audio_el) (w : world) : world :=
  let w := with_speech (set_isPlaying false) w in
  let w := clearTimeouts (a_timers a) w in
  call_onFinish w.

(** An [error] event on the audio element runs the listener added at line 511
    and then the [onerror] handler assigned last (lines 608-626); each falls
    back to the local backend, on the same [lineMarkers] array. *)
Definition audio_error (b : browser) (a : audio_el) (w : world) : world :=
  let '(w, markers) := useBrowserSpeechAPI b (a_text a) (a_markers a) w in
  let w := with_speech (set_isPlaying false) w in
  let w := clearTimeouts (a_timers a) w in
  fst (useBrowserSpeechAPI b (a_text a) markers w).

(** The rejection handler of [audio.play()] (lines 632-640). *)
Definition audio_play_rejected (b : browser) (a : audio_el) (w : world) : world :=
  let w := clearTimeouts (a_timers a) w in
  fst (useBrowserSpeechAPI b (a_text a) (a_markers a) w).

(* ------------------------------------------------------------------ *)
(** ** The orchestrator: [stop] and [speak] (lines 1007-1022, 1262-1339) *)

Definition stop (w : world) : world :=
  let w :=
    match currentUtterance (speech w) with
    | Some (AudioElement id) =>
        with_speech (set_currentUtterance None) (observe (AudioPause id) w)
    | Some (Utterance _) =>
        with_speech (set_currentUtterance None) (observe SynthCancel w)
    | None => w
    end in
  with_speech (set_isPlaying false) w.

(** [!text || text.trim() === ''] *)
Definition blank (t : jsstring) : bool :=
  match trim t with [] => true | _ :: _ => false end.

(** Lines 1269-1276: the previous session is stopped and the state of the new
    one is set. *)
Definition begin_session (onLineNumber onFinish : option callback) (w : world)
  : world :=
  let w := stop w in
  let w := with_speech (set_isPlaying false) w in
  let w := with_speech (set_currentUtterance None) w in
  let w := with_speech (set_callbacks onLineNumber onFinish) w in
  with_speech (set_hasError false) w.

(** Lines 1294-1299: the local backend is used directly. *)
Definition speak_local (b : browser) (t : jsstring) (lineMarkers : list marker)
           (w : world) : bool * world :=
  (true, fst (useBrowserSpeechAPI b t lineMarkers w)).

(** Lines 1301-1338: the remote backend is tried; [Throw] is the [catch]. *)
Definition speak_remote (b : browser) (net : network) (t : jsstring)
           (voiceOptionsToUse : VoiceOptions) (lineMarkers : list marker)
           (w : world) : bool * world :=
  match synthesizeSpeech (clock w) net t voiceOptionsToUse None (speech w) with
  | Ok out =>
      let w := with_speech (fun _ => so_state out) w in
      let w := fold_left (fun w p => observe (Requested p) w)
                         (so_requests out) w in
      let w :=
        if startsWith (so_value out) (lit "tts-fallback-")
        then fst (useBrowserSpeechAPI b t lineMarkers w)
        else playSpeech b (so_value out) t lineMarkers w in
      (true, with_speech (resetErrorState (clock w)) w)
  | Throw m =>
      let reason :=
        match m with
        | Some message => message
        | None => lit "Unknown error in speak orchestration"
        end in
      let w := with_speech (recordFailure (clock w) reason) w in
      (false, fst (useBrowserSpeechAPI b t lineMarkers w))
  end.

(** [speak(text, onLineNumber, onFinish, voiceOptionsParam, codeContent)].
    The call is taken as one step: [net] is what the network does if it is
    asked, and the clock does not move while the request is in flight.
    [speak_start] and [speak_resume] below are the two runs of code that a
    call is made of when handlers run while it waits. *)
Definition speak (b : browser) (net : network) (t : jsstring)
           (onLineNumber onFinish : option callback)
           (voiceOptionsParam : option VoiceOptions)
           (codeContent : option jsstring) (w : world) : bool * world :=
  let w := begin_session onLineNumber onFinish w in
  if blank t then (false, call_onFinish w)
  else
    let lineMarkers := extractLineReferences t codeContent in
    let voiceOptionsToUse :=
      match voiceOptionsParam with Some v => v | None => defaultVoice end in
    if shouldUseFallbackDirectly (clock w) (speech w)
    then speak_local b t lineMarkers w
    else speak_remote b net t voiceOptionsToUse lineMarkers w.

(* ------------------------------------------------------------------ *)
(** ** Runs of the page *)

(** What happens to the page, one event at a time. *)
Inductive event : Type :=
| CallSpeak (net : network) (t : jsstring) (onLineNumber onFinish : option callback)
            (voice : option VoiceOptions) (code : option jsstring)
| CallStop
| TimePasses (until : Z)
| UtteranceStarts (id : nat)
| UtteranceEnds (id : nat)
| UtteranceErrors (id : nat)
| AudioStarts (id : nat)
| AudioEnds (id : nat)
| AudioErrors (id : nat)
| AudioPlayRejected (id : nat).

Definition find_utterance (id : nat) (w : world) : option utterance :=
  find (fun u => Nat.eqb (u_id u) id) (utterances w).

Definition find_audio (id : nat) (w : world) : option audio_el :=
  find (fun a => Nat.eqb (a_id a) id) (audios w).

(** One event; [None] when the event cannot happen in this state. *)
Definition step (b : browser) (e : event) (w : world) : option world :=
  match e with
  | CallSpeak net t onLine onFinish voice code =>
      let n := S (session w) in
      let w := observe (SpeakCalled n) (with_session n w) in
      let '(r, w) := speak b net t onLine onFinish voice code w in
      Some (observe (SpeakReturned n r) w)
  | CallStop => Some (observe StopReturned (stop w))
  | TimePasses t =>
      if (clock w <=? t)%Z then Some (advance t w) else None
  | UtteranceStarts id =>
      match find_utterance id w with
      | Some _ => Some (utterance_onstart w)
      | None => None
      end
  | UtteranceEnds id =>
      match find_utterance id w with
      | Some u => Some (utterance_onend u w)
      | None => None
      end
  | UtteranceErrors id =>
      match find_utterance id w with
      | Some _ => Some (utterance_onerror w)
      | None => None
      end
  | AudioStarts id =>
      match find_audio id w with
      | Some _ => Some (audio_onplay w)
      | None => None
      end
  | AudioEnds id =>
      match find_audio id w with
      | Some a => Some (audio_onended a w)
      | None => None
      end
  | AudioErrors id =>
      match find_audio id w with
      | Some a => Some (audio_error b a w)
      | None => None
      end
  | AudioPlayRejected id =>
      match find_audio id w with
      | Some a => Some (audio_play_rejected b a w)
      | None => None
      end
  end.

Fixpoint run (b : browser) (es : list event) (w : world) : option world :=
  match es with
  | [] => Some w
  | e :: es' =>
      match step b e w with
      | Some w' => run b es' w'
      | None => None
      end
  end.

(* ------------------------------------------------------------------ *)
(** ** The playing flag: [isSpeaking] (lines 1027-1029) *)

Definition isSpeaking (w : world) : bool := isPlaying (speech w).

(* ------------------------------------------------------------------ *)
(** ** The first extractor: [extractLineNumbers] (lines 129-205) *)

(** [(?:-\s*(\d+))?]: the end of a range, in group [n]. *)
Definition range_end (n : nat) : regex :=
  Opt (seqs [Chr "-"; Star sp; Grp n (Plus dg)]).

(** The pattern [lineRegex] of line 136, with its four groups. *)
Definition numberedLineRegex : regex :=
  Alt (seqs [Chr "["; Star sp; OneOf "Ll"; Str "ine"; Star sp; Grp 1 (Plus dg);
             range_end 2; Star sp; Chr "]"])
      (seqs [Alt Bol sp; OneOf "Ll"; Str "ine"; Star sp; Grp 3 (Plus dg);
             range_end 4; Star sp;
             alts [Chr "]"; Chr ":"; Chr "."; Chr ","; Chr ";"; sp; Eol]]).

(** [s.lastIndexOf(c, fromIndex)] for one code unit [c]: the last index at
    most [fromIndex]; [None] stands for -1. *)
Fixpoint lastIndexOf_from (i : nat) (c : char) (s : jsstring) (best : option nat)
  : option nat :=
  match s with
  | [] => best
  | x :: s' => lastIndexOf_from (S i) c s' (if N.eqb x c then Some i else best)
  end.

Definition lastIndexOf (s : jsstring) (c : char) (fromIndex : nat) : option nat :=
  lastIndexOf_from 0 c (firstn (S fromIndex) s) None.

(** [s.indexOf(p, fromIndex)] *)
Definition indexOf_at (s p : jsstring) (fromIndex : nat) : option nat :=
  indexOf_from fromIndex (skipn fromIndex s) p.

(** Lines 150-164: the sentence around a match, at most 100 code units back
    and 150 on. *)
Definition contextText (t : jsstring) (startIndex : nat) (fullMatch : jsstring)
  : jsstring :=
  let contextStart :=
    match lastIndexOf t 46%N startIndex with Some i => i | None => 0 end in
  let contextStart :=
    if 100 <? startIndex - contextStart then startIndex - 100 else contextStart in
  let far := Nat.min (length t) (startIndex + length fullMatch + 100) in
  let contextEnd :=
    match indexOf_at t (lit ".") (startIndex + length fullMatch) with
    | None => far
    | Some e => if 150 <? e - startIndex then far else e + 1
    end in
  trim (substring contextStart contextEnd t).

(** [!codeLine || codeLine.startsWith('//') || codeLine.startsWith('/*')
    || codeLine.startsWith('*')] *)
Definition empty_or_comment (codeLine : jsstring) : bool :=
  (match codeLine with [] => true | _ :: _ => false end
   || startsWith codeLine (lit "//")
   || startsWith codeLine (lit "/*")
   || startsWith codeLine (lit "*"))%bool.

(** [nextLine && !nextLine.startsWith('//') && !nextLine.startsWith('/*')
    && !nextLine.startsWith('*')] *)
Definition valid_line (nextLine : jsstring) : bool :=
  (negb (match nextLine with [] => true | _ :: _ => false end)
   && negb (startsWith nextLine (lit "//"))
   && negb (startsWith nextLine (lit "/*"))
   && negb (startsWith nextLine (lit "*")))%bool.

(** The loop [while (nextLineNumber < codeLines.length)] of lines 175-187:
    the value of [nextLineNumber] at the [break], if the loop gets there. *)
Fixpoint next_valid (codeLines : list jsstring) (nextLineNumber : nat)
         (fuel : nat) : option nat :=
  match fuel with
  | O => None
  | S f =>
      if nextLineNumber <? length codeLines then
        let nextLine := trim (nth nextLineNumber codeLines []) in
        if valid_line nextLine then Some nextLineNumber
        else next_valid codeLines (S nextLineNumber) f
      else None
  end.

(** A marker of [extractLineNumbers]; the line number [None] is [NaN]. *)
Record numbered : Type := mkNumbered {
  n_text : jsstring;
  n_lineNumber : option Z
}.

(** One turn of the loop of lines 144-197: the markers pushed for a match. *)
Definition numbered_of_match (t : jsstring) (codeLines : option (list jsstring))
           (m : rmatchres) : list numbered :=
  let lineNumber := parseInt_cap (cap_or (cap_or (cap 1 m) (cap 2 m)) (cap 3 m)) in
  let fullMatch := mr_text m in
  let startIndex := mr_index m in
  let contextText := contextText t startIndex fullMatch in
  let as_given :=
    [mkNumbered contextText
       (match lineNumber with Some n => Some (n - 1)%Z | None => None end)] in
  match codeLines, lineNumber with
  | Some codeLines, Some n =>
      if ((0 <? n) && (n <=? Z.of_nat (length codeLines)))%Z%bool then
        let codeLine := trim (nth (Z.to_nat (n - 1)) codeLines []) in
        if empty_or_comment codeLine then
          match next_valid codeLines (Z.to_nat n) (length codeLines) with
          | Some nextLineNumber =>
              [mkNumbered contextText (Some (Z.of_nat nextLineNumber - 1)%Z)]
          | None => []
          end
        else as_given
      else as_given
  | _, _ => as_given
  end.

(** [extractLineNumbers(text, codeToValidate)] *)
Definition extractLineNumbers (t : jsstring) (codeToValidate : option jsstring)
  : list numbered :=
  let codeLines :=
    match nonempty_code codeToValidate with
    | Some code => Some (split_chr 10%N code)
    | None => None
    end in
  flat_map (numbered_of_match t codeLines) (scan numberedLineRegex t).

(* ------------------------------------------------------------------ *)
(** ** The endpoint [/api/tts]: [initClient] and the [POST] handler

    The route that [synthesizeSpeech] calls.  Line numbers are those of the
    route module.  The server has an environment (two variables and a key
    file) and a Google client; what they do is given by their outcomes. *)

(** What a [catch] receives: an [Error] with its message, or another value
    with what [String(value)] makes of it. *)
Inductive thrown : Type :=
| AnError (message : jsstring)
| NotAnError (asString : jsstring).

Inductive outcome (A : Type) : Type :=
| Returns (a : A)
| Throws (e : thrown).
Arguments Returns {A} a.
Arguments Throws {A} e.

(** [error instanceof Error ? error.message : String(error)] *)
Definition message_of (e : thrown) : jsstring :=
  match e with
  | AnError message => message
  | NotAnError asString => asString
  end.

(** [error instanceof Error] *)
Definition instanceof_Error (e : thrown) : bool :=
  match e with AnError _ => true | NotAnError _ => false end.

(** The voice of a request to Google, each field a string. *)
Record tts_voice : Type := mkTtsVoice {
  tv_languageCode : jsstring;
  tv_name : jsstring;
  tv_ssmlGender : jsstring
}.

(** [request_config] (lines 148-159): the input is SSML or plain text; the
    audio configuration is constant and left out. *)
Inductive tts_input : Type :=
| InputSsml (ssml : jsstring)
| InputText (text : jsstring).

Record tts_request : Type := mkTtsRequest {
  tr_input : tts_input;
  tr_voice : tts_voice
}.

(** A [TextToSpeechClient]: what [client.synthesizeSpeech(request)] resolves
    to, the bytes of [response.audioContent] ([None] when the field is
    missing), or what it rejects with. *)
Definition tts_client : Type := tts_request -> outcome (option (list N)).

(** The environment of the server process.
    - [credentials_json]: [process.env.GOOGLE_APPLICATION_CREDENTIALS_JSON],
      [None] when unset or empty, else the outcome of parsing it and making a
      client of it (lines 37-38).
    - [key_file]: [None] when no file is at [keyFilePath]; else the outcome of
      [fs.readFileSync], and then of the [try] block of lines 54-64, which
      parses the text and makes a client.
    - [credentials_path]: [process.env.GOOGLE_APPLICATION_CREDENTIALS], [None]
      when unset or empty, else the outcome of [new TextToSpeechClient()]. *)
Record environment : Type := mkEnvironment {
  credentials_json : option (outcome tts_client);
  key_file : option (outcome (outcome tts_client));
  credentials_path : option (outcome tts_client)
}.

(** The two variables of the module: [client] and [initError]. *)
Record route_state : Type := mkRouteState {
  client : option tts_client;
  initError : option jsstring
}.

(** Option 3 and the end of the [try] block of [initClient] (lines 74-88). *)
Definition initClient_from_path (env : environment) (initError : option jsstring)
  : bool * route_state :=
  match credentials_path env with
  | Some (Returns c) => (true, mkRouteState (Some c) initError)
  | _ =>
      (false,
       mkRouteState None
         (Some (lit "No valid credentials found. Please provide valid Google Cloud credentials.")))
  end.

(** [initClient()] (lines 25-95) *)
Definition initClient (env : environment) (st : route_state) : bool * route_state :=
  let initError := initError st in
  match credentials_json env with
  | Some (Returns c) => (true, mkRouteState (Some c) initError)
  | _ =>
      match key_file env with
      | Some (Throws e) =>
          (false,
           mkRouteState None
             (Some (lit "Client initialization error: " ++ message_of e)))
      | Some (Returns (Returns c)) => (true, mkRouteState (Some c) initError)
      | Some (Returns (Throws e)) =>
          initClient_from_path env
            (Some (lit "Invalid credentials JSON: " ++ message_of e))
      | None => initClient_from_path env initError
      end
  end.

(** The fields of the request body that the handler reads; a missing field
    is [None]. *)
Record voice_fields : Type := mkVoiceFields {
  vf_languageCode : option jsstring;
  vf_name : option jsstring;
  vf_ssmlGender : option jsstring
}.

Record request_body : Type := mkBody {
  b_text : option jsstring;
  b_isSSML : bool;
  b_voiceOptions : option voice_fields
}.

(** What [NextResponse.json(body, { status })] sends: the status and the
    fields of the body; a missing field is [None]. *)
Record json_response : Type := mkJson {
  r_status : Z;
  r_audio : option jsstring;
  r_error : option jsstring;
  r_success : option bool;
  r_details : option jsstring
}.

(** [x || fallback] for an optional string *)
Definition or_default (x : option jsstring) (fallback : jsstring) : jsstring :=
  match x with
  | Some (c :: s) => c :: s
  | _ => fallback
  end.

(** The character of base64 for a value of six bits. *)
Definition base64_digit (i : N) : char :=
  if (i <? 26)%N then (65 + i)%N
  else if (i <? 52)%N then (97 + (i - 26))%N
  else if (i <? 62)%N then (48 + (i - 52))%N
  else if (i =? 62)%N then 43%N
  else 47%N.

(** [Buffer.from(bytes).toString('base64')]: three bytes make four
    characters, and the last group is padded with [=]. *)
Fixpoint toBase64 (bytes : list N) : jsstring :=
  match bytes with
  | [] => []
  | [a] =>
      [base64_digit ((a / 4) mod 64); base64_digit (((a mod 4) * 16) mod 64);
       61%N; 61%N]
  | [a; b] =>
      [base64_digit ((a / 4) mod 64);
       base64_digit (((a mod 4) * 16 + b / 16) mod 64);
       base64_digit (((b mod 16) * 4) mod 64); 61%N]
  | a :: b :: c :: rest =>
      [base64_digit ((a / 4) mod 64);
       base64_digit (((a mod 4) * 16 + b / 16) mod 64);
       base64_digit (((b mod 16) * 4 + c / 64) mod 64);
       base64_digit (c mod 64)]
      ++ toBase64 rest
  end%N.

(** The [catch] of the handler (lines 224-252). *)
Definition error_response (e : thrown) : json_response :=
  let errorMessage := message_of e in
  if (instanceof_Error e && includes errorMessage (lit "429"))%bool then
    mkJson 429 None
           (Some (lit "Google Cloud API quota exceeded. Please try again later."))
           (Some false) None
  else
    let '(status, responseMessage) :=
      if (includes errorMessage (lit "permission denied")
          || includes errorMessage (lit "forbidden"))%bool
      then (403%Z,
            lit "Google Cloud API permission denied. Please check your API credentials and permissions.")
      else if includes errorMessage (lit "not found")
      then (404%Z,
            lit "Resource not found. Please check your Google Cloud project configuration.")
      else (500%Z, errorMessage) in
    mkJson status None (Some responseMessage) (Some false) (Some errorMessage).

(** Lines 123-222: the [try] block of the handler once a client is there. *)
Definition synthesize_with (c : tts_client) (body : outcome request_body)
  : outcome json_response :=
  match body with
  | Throws e => Throws e
  | Returns body =>
      match b_text body with
      | Some (x :: s) =>
          let text := x :: s in
          let voiceOptions := b_voiceOptions body in
          let field (f : voice_fields -> option jsstring) :=
            match voiceOptions with Some v => f v | None => None end in
          let voice :=
            mkTtsVoice (or_default (field vf_languageCode) (lit "en-US"))
                       (or_default (field vf_name) (lit "en-US-Studio-M"))
                       (or_default (field vf_ssmlGender) (lit "MALE")) in
          let request_config :=
            mkTtsRequest (if b_isSSML body then InputSsml text else InputText text)
                         voice in
          match c request_config with
          | Throws syntError => Throws syntError
          | Returns (Some (y :: bytes)) =>
              let audioContent := y :: bytes in
              if length audioContent <? 100 then
                Returns (mkJson 500 None
                           (Some (lit "Invalid audio content received from Google TTS API"))
                           (Some false) None)
              else
                let base64Audio := toBase64 audioContent in
                Returns (mkJson 200 (Some base64Audio) None (Some true) None)
          | Returns _ =>
              Returns (mkJson 500 None
                         (Some (lit "No audio content returned from Google TTS API"))
                         (Some false) None)
          end
      | _ =>
          Returns (mkJson 400 None (Some (lit "Text parameter is required")) None None)
      end
  end.

(** [`${initError}`] *)
Definition show_initError (x : option jsstring) : jsstring :=
  match x with Some s => s | None => lit "null" end.

(** [POST(request)] (lines 100-253): [body] is the outcome of
    [request.json()].  The second component is the state of the module
    afterwards. *)
Definition POST (env : environment) (st : route_state) (body : outcome request_body)
  : json_response * route_state :=
  let '(ok, st) := initClient env st in
  if negb ok then
    (mkJson 500 None
            (Some (lit "Failed to initialize TTS client: " ++ show_initError (initError st)))
            None None,
     st)
  else
    match client st with
    | None =>
        (mkJson 500 None (Some (lit "Text-to-Speech client not initialized")) None None,
         st)
    | Some c =>
        match synthesize_with c body with
        | Returns r => (r, st)
        | Throws e => (error_response e, st)
        end
    end.

(** What the page gets from [fetch] when the route has answered with [r]:
    the status, the body as text ([bodyText], the JSON document) and the
    parsed body as [synthesizeSpeech] reads it. *)
Definition fetched (r : json_response) (bodyText : jsstring) : network :=
  FetchResolves
    (mkResponse (r_status r) (Ok bodyText)
       (Ok (mkData (match r_success r with Some b => b | None => false end)
                   (r_audio r) (r_error r)))).

(* ------------------------------------------------------------------ *)
(** ** [speak] around its wait for the endpoint

    [speak] is suspended where [synthesizeSpeech] awaits [fetch] (line 343)
    and the reading of the body (lines 352 and 361); handlers of the page can
    run meanwhile.  Between these awaits the code touches no state, so a call
    is two runs of code: [speak_start], up to the request, and
    [speak_resume], from the answer on, in the state of the page at that
    time.  ([await useBrowserSpeechAPI(...)] and an [await] of
    [synthesizeSpeech] that has returned without a request let no handler
    run.) *)

Inductive speak_phase : Type :=
| Returned (result : bool) (w : world)
| Awaiting (req : payload) (lineMarkers : list marker) (w : world).

(** Lines 1269-1303 and, inside [synthesizeSpeech], lines 291-343. *)
Definition speak_start (b : browser) (t : jsstring)
           (onLineNumber onFinish : option callback)
           (voiceOptionsParam : option VoiceOptions)
           (codeContent : option jsstring) (w : world) : speak_phase :=
  let w := begin_session onLineNumber onFinish w in
  if blank t then Returned false (call_onFinish w)
  else
    let lineMarkers := extractLineReferences t codeContent in
    let voiceOptionsToUse :=
      match voiceOptionsParam with Some v => v | None => defaultVoice end in
    if shouldUseFallbackDirectly (clock w) (speech w)
    then Returned true (fst (useBrowserSpeechAPI b t lineMarkers w))
    else
      let wrappedSSML := wrappedSSML_of t voiceOptionsToUse None in
      let textBytes := utf8_length wrappedSSML in
      let local (w : world) :=
        (* the fallback identifier comes back: lines 1305-1307 and 1319 *)
        let w := fst (useBrowserSpeechAPI b t lineMarkers w) in
        Returned true (with_speech (resetErrorState (clock w)) w) in
      if 5000 <? textBytes then local w
      else
        let req := mkPayload wrappedSSML true (languageCode voiceOptionsToUse)
                     (name voiceOptionsToUse) (ssmlGender voiceOptionsToUse) in
        if shouldUseFallbackDirectly (clock w) (speech w) then local w
        else Awaiting req lineMarkers (observe (Requested req) w).

(** Lines 350-420 of [synthesizeSpeech] and lines 1305-1338 of [speak], in
    the state [w] of the page when the answer [net] has come. *)
Definition speak_resume (b : browser) (net : network) (t : jsstring)
           (req : payload) (lineMarkers : list marker) (w : world)
  : bool * world :=
  let now := clock w in
  match try_catch (api_call now net req (speech w))
          (fun m =>
             let reason :=
               match m with
               | Some message => message
               | None => lit "Unknown error in synthesizeSpeech"
               end in
             Ok (mkOut (fallbackId now) (recordFailure now reason (speech w)) [req]))
  with
  | Ok out =>
      let w := with_speech (fun _ => so_state out) w in
      let w :=
        if startsWith (so_value out) (lit "tts-fallback-")
        then fst (useBrowserSpeechAPI b t lineMarkers w)
        else playSpeech b (so_value out) t lineMarkers w in
      (true, with_speech (resetErrorState (clock w)) w)
  | Throw m =>
      let reason :=
        match m with
        | Some message => message
        | None => lit "Unknown error in speak orchestration"
        end in
      let w := with_speech (recordFailure (clock w) reason) w in
      (false, fst (useBrowserSpeechAPI b t lineMarkers w))
  end.

(* ================================================================== *)
(** * Notions used to state the properties *)

(** ** Observations on a run *)

(** How often the finish callback [cb] was called. *)
Definition finish_count (cb : callback) (h : list obs) : nat :=
  length (filter (fun o => match o with
                           | FinishCalled c => Nat.eqb c cb
                           | _ => false
                           end) h).

Definition is_stop (o : obs) : bool :=
  match o with StopReturned => true | _ => false end.

Definition is_return (n : nat) (o : obs) : bool :=
  match o with SpeakReturned m _ => Nat.eqb m n | _ => false end.

(** What was observed after the last observation that satisfies [p]. *)
Fixpoint after_last (p : obs -> bool) (h : list obs) : list obs :=
  match h with
  | [] => []
  | o :: h' =>
      if (p o && negb (existsb p h'))%bool then h' else after_last p h'
  end.

(** The highlight calls made by timers that session [n] armed. *)
Definition stale_highlights (n : nat) (h : list obs) : list obs :=
  filter (fun o => match o with
                   | HighlightCalled _ _ armedBy => Nat.eqb armedBy n
                   | _ => false
                   end) h.

(** The requests sent to the network. *)
Definition requests_of (h : list obs) : list payload :=
  flat_map (fun o => match o with Requested p => [p] | _ => [] end) h.

(** ** The backend policy of the specification *)

(** The backend a [speak] call starts with. *)
Inductive backend : Type := Local | Remote.

(** The decision policy in the words of the specification: five rules,
    evaluated in order, the first that applies wins.  A timestamp is either
    absent or a clock value. *)
Definition spec_backend_policy (now : Z) (s : SpeechState) : backend :=
  if fallbackMode s then Local
  else if match quotaExceededUntil s with
          | Some untilTime => (now <? untilTime)%Z
          | None => false
          end then Local
  else if (3 <=? consecutiveErrors s)%Z then Local
  else if match lastErrorTime s with
          | Some failedAt => (now - failedAt <? 30000)%Z
          | None => false
          end then Local
  else Remote.

(** Timestamps stored in the state are values of [Date.now()], never [0]
    (which JavaScript takes for an absent one). *)
Definition timestamps_set (s : SpeechState) : Prop :=
  quotaExceededUntil s <> Some 0%Z /\ lastErrorTime s <> Some 0%Z.

(** ** Failure modes of the remote call *)

(** The ways the remote call can fail: the network, the status, the body, the
    audio field, the base64 text. *)
Inductive failure_mode : network -> Prop :=
| NetworkError (m : option jsstring) :
    failure_mode (FetchRejects m)
| BadStatus (r : response) :
    response_ok r = false -> failure_mode (FetchResolves r)
| MalformedJson (r : response) (m : option jsstring) :
    response_ok r = true -> body_json r = Throw m ->
    failure_mode (FetchResolves r)
| MissingAudio (r : response) (d : responseData) :
    response_ok r = true -> body_json r = Ok d ->
    (success d && truthy_str (audio d))%bool = false ->
    failure_mode (FetchResolves r)
| InvalidBase64Chars (r : response) (d : responseData) :
    response_ok r = true -> body_json r = Ok d ->
    test base64Regex (fix_padding (str_or_empty (audio d))) = false ->
    failure_mode (FetchResolves r)
| UndecodableBase64 (r : response) (d : responseData) :
    response_ok r = true -> body_json r = Ok d ->
    atob_length (substring 0 100 (fix_padding (str_or_empty (audio d)))) = None ->
    failure_mode (FetchResolves r).

(** ** Marker extraction *)

(** The reference "[Line ds]" for a run of digits [ds]. *)
Definition bracketed (ds : jsstring) : jsstring :=
  lit "[Line " ++ ds ++ lit "]".

(** Line [j] (zero-based) of the code is neither empty nor a comment start. *)
Definition line_meaningful (codeLines : list jsstring) (j : Z) : bool :=
  meaningful (trim (nth (Z.to_nat j) codeLines [])).

(** The synthetic marker number [i] for an interval. *)
Definition synthetic_marker (interval : Z) (i : nat) : marker :=
  mkMarker (lit "Synthetic marker " ++ dec_of_Z (Z.of_nat i))
           (Z.of_nat i * interval)%Z.


(** ** The matcher: notions for its proofs *)

(** Some character class of [r] accepts [c]. *)
Fixpoint accepts (r : regex) (c : char) : bool :=
  match r with
  | Cls p => p c
  | Seq a b => (accepts a c || accepts b c)%bool
  | Alt a b => (accepts a c || accepts b c)%bool
  | Star a => accepts a c
  | Grp _ a => accepts a c
  | _ => false
  end.

(** The cursor of [st1] is [xs] further than the cursor of [st]. *)
Definition advanced (xs : list char) (st st1 : mstate) : Prop :=
  ms_rest st = xs ++ ms_rest st1 /\ ms_before st1 = rev xs ++ ms_before st.

(** Whatever [m] matches before it continues is made of accepted code units. *)
Definition consumes_spec (accept : char -> bool)
           (m : cont -> mstate -> option mstate) : Prop :=
  forall k st res,
    m k st = Some res ->
    exists st1 xs,
      advanced xs st st1 /\ forallb accept xs = true /\ k st1 = Some res.

(** The next code unit, if any, is not in the class [p]. *)
Definition stops (p : char -> bool) (r : jsstring) : Prop :=
  match r with [] => True | c :: _ => p c = false end.

(** [m] matches one code unit of the class [p]. *)
Definition class_matcher (p : char -> bool)
           (m : cont -> mstate -> option mstate) : Prop :=
  forall k bef s caps,
    m k (MS bef s caps)
    = match s with
      | c :: s' => if p c then k (MS (c :: bef) s' caps) else None
      | [] => None
      end.

(** The regex can only start a match on the code unit [a]. *)
Fixpoint starts_on (a : char) (r : regex) : Prop :=
  match r with
  | Cls p => forall c, p c = true -> c = a
  | Seq r1 _ => starts_on a r1
  | _ => False
  end.

(** The match stays where it is: no code unit is consumed before [H]. *)
Ltac stay st H :=
  exists st, (@nil char);
  split; [split; reflexivity | split; [reflexivity | exact H]].

(** The index of a match counted from one code unit further left. *)
Ltac shift_index :=
  cbn [length];
  match goal with
  | |- context [length ?bef + S (length ?pre)] =>
      replace (length bef + S (length pre)) with (S (length bef) + length pre)
        by lia
  end;
  reflexivity.

(* ------------------------------------------------------------------ *)
(** ** Inputs of the examples *)

Definition chrome : browser := mkBrowser true.

(** A browser without the Web Speech API. *)
Definition silent_browser : browser := mkBrowser false.

Definition narration : jsstring :=
  lit "Hello there. [Line 1] starts here. [Line 2] ends here.".

(** 136 base64 characters, which decode to 102 bytes. *)
Definition good_audio : jsstring := repeat 65%N 136.

Definition good_response : network :=
  FetchResolves (mkResponse 200 (Ok []) (Ok (mkData true (Some good_audio) None))).

(** One failure a little while ago: the state is in its cooldown. *)
Definition cooling_state : SpeechState :=
  mkSpeechState false None None None None false [] 1%Z (Some 1000%Z) false.

Definition cooling_world : world :=
  mkWorld cooling_state 20000 [] [] [] 0 0 [].

(** [n] failures in a row, a second apart, the first at [start]. *)
Fixpoint fail_times (n : nat) (start : Z) (s : SpeechState) : SpeechState :=
  match n with
  | O => s
  | S k => fail_times k (start + 1000)%Z (recordFailure start (lit "API error") s)
  end.

(** A [speak] call whose request fails, at clock value [t]. *)
Definition failing_speak (t : Z) : list event :=
  [TimePasses t;
   CallSpeak (FetchRejects None) (lit "Hello world") (Some 1) (Some 1) None None].

Definition requests_after (es : list event) : option nat :=
  match run chrome es initialWorld with
  | Some w => Some (length (requests_of (history w)))
  | None => None
  end.

(** The local backend speaks, the utterance ends after two seconds, and the
    page lives on to the fifteenth second. *)
Definition local_session_run : list event :=
  [CallSpeak (FetchRejects None) narration (Some 1) (Some 1) None None;
   UtteranceStarts 5; TimePasses 2000; UtteranceEnds 5; TimePasses 15000].

(** The remote audio plays and [stop] is called after half a second. *)
Definition remote_stopped_run : list event :=
  [CallSpeak good_response narration (Some 1) (Some 1) None None;
   AudioStarts 2; TimePasses 500; CallStop; TimePasses 5000].

(** The local backend speaks, [stop] is called after 100 ms, and the browser
    reports the end of the cancelled utterance. *)
Definition local_stopped_run : list event :=
  [CallSpeak (FetchRejects None) narration (Some 1) (Some 1) None None;
   UtteranceStarts 5; TimePasses 100; CallStop; UtteranceEnds 5;
   TimePasses 6000].

(** A second [speak] call supersedes the first after 100 ms, and the browser
    reports the end of the cancelled utterance. *)
Definition superseded_run : list event :=
  [CallSpeak (FetchRejects None) narration (Some 1) (Some 1) None None;
   UtteranceStarts 5; TimePasses 100;
   CallSpeak (FetchRejects None) (lit "Another text without references.")
             (Some 2) (Some 2) None None;
   UtteranceEnds 5; TimePasses 6000].

Definition history_of (b : browser) (es : list event) : list obs :=
  match run b es initialWorld with
  | Some w => history w
  | None => []
  end.

Definition sample_clean_text : jsstring :=
  lit "Hello there. Line 1 starts here, Line 2 ends here.".

Definition three_line_code : jsstring :=
  lit "let a = 1;" ++ [10%N] ++ lit "let b = 2;" ++ [10%N] ++ lit "f(a, b);".

(** Sixty empty lines. *)
Definition sixty_lines : jsstring := repeat 10%N 59.

(** Six empty lines, then a statement on line 7. *)
Definition late_code : jsstring := repeat 10%N 6 ++ lit "x = 1".

Definition six_line_code : jsstring :=
  lit "const a = 1;" ++ [10%N] ++ lit "// setup" ++ [10%N] ++ [10%N]
  ++ lit "let s = init();" ++ [10%N] ++ lit "s.run();" ++ [10%N] ++ lit "done();".

(** 5000 letters: with the SSML wrapper, more than 5000 bytes. *)
Definition long_text : jsstring := repeat 97%N 5000.

(** ** The backend health *)

(** No failure is on record and no rule of the policy applies: the health
    part of [speechState] as the module starts with. *)
Definition healthy (s : SpeechState) : Prop :=
  fallbackMode s = false /\ quotaExceededUntil s = None
  /\ consecutiveErrors s = 0%Z /\ lastErrorTime s = None.

(** The fields of [speechState] that the backend policy and its bookkeeping
    read and write. *)
Definition health_of (s : SpeechState)
  : bool * option Z * list (Z * jsstring) * Z * option Z :=
  (fallbackMode s, quotaExceededUntil s, fallbackReasonLog s,
   consecutiveErrors s, lastErrorTime s).

(** The speech state is the same but for the medium in [currentUtterance]. *)
Definition same_but_medium (s s' : SpeechState) : Prop :=
  s' = s \/ exists m, s' = set_currentUtterance (Some m) s.

Definition is_finish (o : obs) : bool :=
  match o with FinishCalled _ => true | _ => false end.

Definition is_synth_speak (o : obs) : bool :=
  match o with SynthSpeak _ => true | _ => false end.

(** Four [speak] calls a second apart, the request failing each time. *)
Definition four_failures : list event :=
  failing_speak 1000 ++ failing_speak 2000 ++ failing_speak 3000
  ++ failing_speak 4000.

(** ** The remote call *)

(** The request that [synthesizeSpeech] hands to [fetch] (lines 312-320). *)
Definition request_of (t : jsstring) (voiceOptions : VoiceOptions)
           (codeToValidate : option jsstring) : payload :=
  mkPayload (wrappedSSML_of t voiceOptions codeToValidate) true
            (languageCode voiceOptions) (name voiceOptions)
            (ssmlGender voiceOptions).

(** The response carries audio that [synthesizeSpeech] accepts: the status is
    a success, the body parses, [success] is set, and the audio text is not
    empty, is made of base64 characters once padded, and its first hundred
    characters decode. *)
Definition accepted_audio (net : network) (a : jsstring) : Prop :=
  exists r d,
    net = FetchResolves r /\ response_ok r = true /\ body_json r = Ok d
    /\ success d = true /\ audio d = Some a /\ a <> []
    /\ test base64Regex (fix_padding a) = true
    /\ atob_length (substring 0 100 (fix_padding a)) <> None.

(** ** SSML *)

(** The code unit [a] does not occur in [s]. *)
Definition without (a : char) (s : jsstring) : bool :=
  forallb (fun c => negb (N.eqb c a)) s.

(** Every match of the regex holds the code unit [a]. *)
Fixpoint needs (a : char) (r : regex) : Prop :=
  match r with
  | Cls p => forall c, p c = true -> c = a
  | Seq r1 r2 => needs a r1 \/ needs a r2
  | Alt r1 r2 => needs a r1 /\ needs a r2
  | Grp _ r1 => needs a r1
  | _ => False
  end.

(** Lines 215-220 of [textToSSML]: the five replacements that escape the
    special characters of XML. *)
Definition escapedText_of (t : jsstring) : jsstring :=
  let escapedText := replace_with (Chr "&") (lit "&amp;") t in
  let escapedText := replace_with (Chr "<") (lit "&lt;") escapedText in
  let escapedText := replace_with (Chr ">") (lit "&gt;") escapedText in
  let escapedText := replace_with (Cls (N.eqb dquote)) (lit "&quot;") escapedText in
  replace_with (Chr "'") (lit "&apos;") escapedText.

(** Lines 234-253 of [textToSSML]: the pauses, the emphasis and the wrapper,
    put on an escaped text. *)
Definition ssml_of_escaped (escapedText : jsstring) : jsstring :=
  let ssml := escapedText in
  let ssml := replace_with (seqs [Chr "."; sp]) (lit "." ++ break_tag "350ms" ++ lit " ") ssml in
  let ssml := replace_with (seqs [Chr ";"; sp]) (lit ";" ++ break_tag "300ms" ++ lit " ") ssml in
  let ssml := replace_with (seqs [Chr ":"; sp]) (lit ":" ++ break_tag "250ms" ++ lit " ") ssml in
  let ssml := replace_with (seqs [Chr "!"; sp]) (lit "!" ++ break_tag "400ms" ++ lit " ") ssml in
  let ssml := replace_with (seqs [Chr "?"; sp]) (lit "?" ++ break_tag "400ms" ++ lit " ") ssml in
  let ssml := replace_all keywordRegex (fun m => emphasis (mr_text m)) ssml in
  let ssml := replace_all backtickRegex (fun m => emphasis (cap_text 1 m)) ssml in
  lit "<speak><prosody rate=" ++ [dquote] ++ lit "0.95" ++ [dquote] ++ lit ">"
  ++ ssml ++ lit "</prosody></speak>".

(** The entity that stands for a special character of XML; any other code
    unit stands for itself. *)
Definition xml_entity (c : char) : jsstring :=
  if N.eqb c 38%N then lit "&amp;"
  else if N.eqb c 60%N then lit "&lt;"
  else if N.eqb c 62%N then lit "&gt;"
  else if N.eqb c 34%N then lit "&quot;"
  else if N.eqb c 39%N then lit "&apos;"
  else [c].

Definition xml_special (c : char) : bool := char_in [60; 62; 34; 39]%N c.

(** A narration with a reference and no backslash. *)
Definition marked_text : jsstring := lit "[Line 3] sets x.".

(** ** Timers *)

(** The timer is due at clock value [t]. *)
Definition due (t : Z) (tm : timer) : bool := Qle_bool (t_due tm) (inject_Z t).

Definition is_watchdog (tm : timer) : bool :=
  match t_action tm with EnsureFinish => true | Highlight _ => false end.

(** ** The first extractor *)

(** Line [j] (zero-based) of the code is neither empty nor a comment, by the
    test of [extractLineNumbers]. *)
Definition line_valid (codeLines : list jsstring) (j : Z) : bool :=
  ((0 <=? j)%Z && valid_line (trim (nth (Z.to_nat j) codeLines [])))%bool.

Definition commented_code : jsstring :=
  lit "// setup" ++ [10%N] ++ lit "let s = init();" ++ [10%N] ++ lit "s.run();".

(** ** The endpoint *)

(** A client that always answers with the same [n] bytes of audio. *)
Definition client_with_audio (n : nat) : tts_client :=
  fun _ => Returns (Some (repeat 255%N n)).

(** A server whose key file yields such a client. *)
Definition working_environment : environment :=
  mkEnvironment None (Some (Returns (Returns (client_with_audio 100)))) None.

Definition fresh_route : route_state := mkRouteState None None.

Definition ssml_body : outcome request_body :=
  Returns (mkBody (Some (lit "<speak>Hello</speak>")) true None).

(** A character of the base64 alphabet proper, the padding [=] apart. *)
Definition base64_letter (c : char) : bool :=
  (is_base64_char c && negb (N.eqb c 61%N))%bool.

(** ** Words *)

(** The number of maximal runs of code units of the class [p] in [s];
    [inrun] tells that the code unit before [s] is in the class. *)
Fixpoint runs (p : char -> bool) (inrun : bool) (s : jsstring) : nat :=
  match s with
  | [] => 0
  | c :: s' =>
      if p c then (if inrun then 0 else 1) + runs p true s'
      else runs p false s'
  end.








(** ** Sentences as markers *)

(** A sentence that [useBrowserSpeechAPI] takes for a marker: more than ten
    code units once trimmed. *)
Definition substantial (s : jsstring) : bool := 10 <? length (trim s).

(** The markers with the texts [ss], numbered from [k] on. *)
Fixpoint number_from (k : nat) (ss : list jsstring) : list marker :=
  match ss with
  | [] => []
  | s :: rest => mkMarker s (Z.of_nat k) :: number_from (S k) rest
  end.

(** ** Answers of the endpoint *)

(** An answer with status 200, [success: true] and the audio text [a]. *)
Definition answer_with (a : jsstring) : network :=
  FetchResolves (mkResponse 200 (Ok []) (Ok (mkData true (Some a) None))).

(** 140 characters of the base64 alphabet that are not base64: a padding
    character stands in the middle, after the first hundred. *)
Definition bad_audio : jsstring := repeat 65%N 100 ++ [61%N] ++ repeat 65%N 39.

(** Twelve base64 characters: nine bytes, no audio. *)
Definition short_audio : jsstring := repeat 65%N 12.

(* ================================================================== *)
(** * Properties *)


(** ** Backend health *)

Lemma truthy_num_set (x : option Z) :
  x <> Some 0%Z -> truthy_num x = is_some x.
Proof.
  destruct x as [v|]; simpl; [|reflexivity].
  intros H. destruct (Z.eqb_spec v 0); [subst; congruence | reflexivity].
Qed.

Lemma shouldUseFallbackDirectly_policy (now : Z) (s : SpeechState) :
  timestamps_set s ->
  shouldUseFallbackDirectly now s =
  match spec_backend_policy now s with Local => true | Remote => false end.
Proof.
  intros [Hq Hl]. unfold shouldUseFallbackDirectly, spec_backend_policy.
  rewrite (truthy_num_set _ Hq), (truthy_num_set _ Hl).
  destruct (fallbackMode s); [reflexivity|].
  destruct (quotaExceededUntil s) as [q|]; simpl.
  - destruct (now <? q)%Z; [reflexivity|].
    destruct (3 <=? consecutiveErrors s)%Z; [reflexivity|].
    destruct (lastErrorTime s) as [t|]; simpl; [|reflexivity].
    change (30 * 1000)%Z with 30000%Z. destruct (now - t <? 30000)%Z; reflexivity.
  - destruct (3 <=? consecutiveErrors s)%Z; [reflexivity|].
    destruct (lastErrorTime s) as [t|]; simpl; [|reflexivity].
    change (30 * 1000)%Z with 30000%Z. destruct (now - t <? 30000)%Z; reflexivity.
Qed.

(** [begin_session] leaves the clock and the health fields alone. *)
Lemma begin_session_health (onLine onFinish : option callback) (w : world) :
  let w' := begin_session onLine onFinish w in
  clock w' = clock w
  /\ fallbackMode (speech w') = fallbackMode (speech w)
  /\ quotaExceededUntil (speech w') = quotaExceededUntil (speech w)
  /\ consecutiveErrors (speech w') = consecutiveErrors (speech w)
  /\ lastErrorTime (speech w') = lastErrorTime (speech w).
Proof.
  unfold begin_session, stop.
  destruct (currentUtterance (speech w)) as [[id|id]|]; simpl; repeat split.
Qed.

Lemma policy_begin_session (onLine onFinish : option callback) (w : world) :
  spec_backend_policy (clock (begin_session onLine onFinish w))
                      (speech (begin_session onLine onFinish w))
  = spec_backend_policy (clock w) (speech w).
Proof.
  destruct (begin_session_health onLine onFinish w) as (Hc & Hf & Hq & He & Hl).
  unfold spec_backend_policy. rewrite Hc, Hf, Hq, He, Hl. reflexivity.
Qed.

(** C3.  For a text that is not blank, [speak] starts with the backend that the
    five-rule policy of the specification names: the local one is used
    directly when the policy says local, and the remote adapter is asked
    otherwise. *)
Theorem C3_backend_decision_policy
  (b : browser) (net : network) (t : jsstring)
  (onLine onFinish : option callback) (voice : option VoiceOptions)
  (code : option jsstring) (w : world) :
  timestamps_set (speech w) ->
  blank t = false ->
  let w0 := begin_session onLine onFinish w in
  let lineMarkers := extractLineReferences t code in
  let voiceToUse := match voice with Some v => v | None => defaultVoice end in
  (shouldUseFallbackDirectly (clock w) (speech w) =
   match spec_backend_policy (clock w) (speech w) with
   | Local => true | Remote => false end)
  /\ speak b net t onLine onFinish voice code w =
     match spec_backend_policy (clock w) (speech w) with
     | Local => speak_local b t lineMarkers w0
     | Remote => speak_remote b net t voiceToUse lineMarkers w0
     end.
Proof.
  intros Hts Hb w0 lineMarkers voiceToUse.
  split; [apply shouldUseFallbackDirectly_policy; exact Hts|].
  unfold speak. fold w0. rewrite Hb.
  assert (Hts0 : timestamps_set (speech w0)).
  { destruct (begin_session_health onLine onFinish w) as (_ & _ & Hq & _ & Hl).
    unfold timestamps_set, w0. rewrite Hq, Hl. exact Hts. }
  rewrite (shouldUseFallbackDirectly_policy _ _ Hts0).
  unfold w0 at 1 2. rewrite policy_begin_session.
  destruct (spec_backend_policy (clock w) (speech w)); reflexivity.
Qed.

Lemma C3_backend_decision_policy_witness :
  timestamps_set (speech cooling_world)
  /\ blank (lit "Hello") = false
  /\ spec_backend_policy (clock cooling_world) (speech cooling_world) = Local
  /\ speak chrome (FetchRejects None) (lit "Hello") (Some 1) (Some 1) None None
           cooling_world
     = speak_local chrome (lit "Hello") (extractLineReferences (lit "Hello") None)
                   (begin_session (Some 1) (Some 1) cooling_world).
Proof.
  assert (H1 : timestamps_set (speech cooling_world)) by (split; discriminate).
  assert (H2 : blank (lit "Hello") = false) by reflexivity.
  split; [exact H1|]. split; [exact H2|]. split; [reflexivity|].
  exact (proj2 (C3_backend_decision_policy chrome (FetchRejects None)
                  (lit "Hello") (Some 1) (Some 1) None None cooling_world H1 H2)).
Defined.

(** ** The remote adapter never throws *)

Lemma fallbackId_prefix (now : Z) :
  startsWith (fallbackId now) (lit "tts-fallback-") = true.
Proof. unfold fallbackId. cbn. reflexivity. Qed.

Lemma api_call_caught (now : Z) (net : network) (req : payload) (s : SpeechState)
      (handler : option jsstring -> result synth_out) :
  (forall m, exists out, handler m = Ok out /\ so_value out = fallbackId now) ->
  exists out,
    try_catch (api_call now net req s) handler = Ok out
    /\ (failure_mode net -> so_value out = fallbackId now).
Proof.
  intros Hh. unfold api_call.
  destruct net as [m|r]; simpl.
  - destruct (Hh m) as (out & E & V). exists out. split; [exact E|intros _; exact V].
  - destruct (response_ok r) eqn:Hok; simpl.
    + destruct (body_json r) as [d|m] eqn:Hj.
      * destruct (success d && truthy_str (audio d)
                  && (0 <? length (str_or_empty (audio d))))%bool eqn:Hc.
        -- destruct (test base64Regex (fix_padding (str_or_empty (audio d)))) eqn:Hb;
             simpl.
           ++ unfold atob.
              destruct (atob_length (substring 0 100 (fix_padding (str_or_empty (audio d)))))
                eqn:Ha; simpl.
              ** eexists. split; [reflexivity|]. simpl.
                 intros F. exfalso.
                 apply andb_prop in Hc. destruct Hc as [Hc _].
                 inversion F as [ | r0 H0 | r0 m0 H0 H1 | r0 d0 H0 H1 H2
                                | r0 d0 H0 H1 H2 | r0 d0 H0 H1 H2 ]; subst;
                   try congruence;
                   rewrite Hj in H1; inversion H1; subst; congruence.
              ** eexists. split; reflexivity.
           ++ eexists. split; reflexivity.
        -- destruct (truthy_str (error d)); eexists; split; reflexivity.
      * eexists. split; reflexivity.
    + destruct (body_text r) as [e|m]; simpl.
      * eexists. split; reflexivity.
      * destruct (Hh m) as (out & E & V). exists out. split; [exact E|intros _; exact V].
Qed.

(** Whatever the network does, [synthesizeSpeech] returns; in each failure mode
    it returns the fallback identifier. *)
Lemma synthesizeSpeech_returns (now : Z) (net : network) (t : jsstring)
      (voice : VoiceOptions) (code : option jsstring) (s : SpeechState) :
  exists out,
    synthesizeSpeech now net t voice code s = Ok out
    /\ (failure_mode net -> so_value out = fallbackId now).
Proof.
  unfold synthesizeSpeech.
  destruct (5000 <? utf8_length (wrappedSSML_of t voice code)).
  { eexists. split; reflexivity. }
  destruct (shouldUseFallbackDirectly now s).
  { eexists. split; reflexivity. }
  apply api_call_caught. intros m. eexists. split; reflexivity.
Qed.

(** ** Frame properties of the local backend *)

Lemma requests_of_app (h1 h2 : list obs) :
  requests_of (h1 ++ h2) = requests_of h1 ++ requests_of h2.
Proof. unfold requests_of. apply flat_map_app. Qed.

Lemma arm_highlights_frame (delay : nat -> marker -> option Q) (ms : list marker) :
  forall (index : nat) (w : world),
    let w' := fst (arm_highlights delay index ms w) in
    speech w' = speech w /\ clock w' = clock w /\ audios w' = audios w
    /\ utterances w' = utterances w /\ history w' = history w
    /\ session w' = session w.
Proof.
  induction ms as [|mk rest IH]; intros index w; simpl.
  - repeat split.
  - destruct (delay index mk) as [d|]; [|apply IH].
    specialize (IH (S index) (fst (setTimeout (Highlight (lineNumber mk)) d w))).
    simpl in IH.
    destruct (arm_highlights delay (S index) rest _) as [w2 ids] eqn:E.
    simpl in *. exact IH.
Qed.

Lemma call_onFinish_frame (w : world) :
  audios (call_onFinish w) = audios w
  /\ requests_of (history (call_onFinish w)) = requests_of (history w)
  /\ speech (call_onFinish w) = speech w.
Proof.
  unfold call_onFinish. destruct (onFinishCallback (speech w)); simpl.
  - rewrite requests_of_app. simpl. rewrite app_nil_r. repeat split.
  - repeat split.
Qed.

Lemma useBrowserSpeechAPI_frame (b : browser) (t : jsstring)
      (ms : list marker) (w : world) :
  let w' := fst (useBrowserSpeechAPI b t ms w) in
  audios w' = audios w
  /\ requests_of (history w') = requests_of (history w)
  /\ (hasSpeechSynthesis b = true ->
      exists id, currentUtterance (speech w') = Some (Utterance id)).
Proof.
  unfold useBrowserSpeechAPI.
  set (w1 := if ((0 <? length ms) && is_some (lineNumberCallback (speech w)))%bool
             then _ else w).
  assert (H1 : speech w1 = speech w /\ audios w1 = audios w /\ history w1 = history w).
  { unfold w1. destruct ((0 <? length ms) && _)%bool; [|repeat split].
    match goal with |- context [arm_highlights ?d ?i ?m ?x] =>
      destruct (arm_highlights_frame d m i x) as (A & _ & B & _ & C & _) end.
    repeat split; assumption. }
  destruct H1 as (Hs & Ha & Hh).
  destruct (hasSpeechSynthesis b); simpl.
  - match goal with |- context [arm_highlights ?d ?i ?m ?x] =>
      destruct (arm_highlights_frame d m i x) as (A & _ & B & _ & C & _);
      destruct (arm_highlights d i m x) as [w2 timers] end.
    simpl in *. rewrite requests_of_app. simpl. rewrite app_nil_r.
    rewrite B, C, Ha, Hh. repeat split. intros _. eexists. reflexivity.
  - match goal with |- context [call_onFinish ?x] =>
      destruct (call_onFinish_frame x) as (A & B & _) end.
    rewrite A, B. simpl. rewrite Ha, Hh. repeat split. discriminate.
Qed.

Lemma resetErrorState_currentUtterance (now : Z) (s : SpeechState) :
  currentUtterance (resetErrorState now s) = currentUtterance s.
Proof.
  unfold resetErrorState. cbn.
  destruct (fallbackMode s); reflexivity.
Qed.

(** ** The boolean of [speak] *)

(** C8, as the code has it.  [speak] resolves to [false] exactly when the text
    is empty or white space only, and to [true] in every other case, whether
    the remote audio is played or a fallback path is used. *)
Theorem C8_speak_returns_true_unless_blank
  (b : browser) (net : network) (t : jsstring)
  (onLine onFinish : option callback) (voice : option VoiceOptions)
  (code : option jsstring) (w : world) :
  fst (speak b net t onLine onFinish voice code w) = negb (blank t).
Proof.
  unfold speak. destruct (blank t); [reflexivity|].
  destruct (shouldUseFallbackDirectly _ _); [reflexivity|].
  unfold speak_remote.
  match goal with |- context [synthesizeSpeech ?n ?x ?y ?v ?c ?s] =>
    destruct (synthesizeSpeech_returns n x y v c s) as (out & E & _); rewrite E end.
  reflexivity.
Qed.

(** C8, a counterexample to the claim as stated.  The request fails, the local
    backend speaks (no audio element exists, an utterance is current), and
    [speak] still resolves to [true]. *)
Lemma C8_true_although_fallback :
  fst (speak chrome (FetchRejects None) (lit "Hello world")
             (Some 1) (Some 1) None None initialWorld) = true
  /\ audios (snd (speak chrome (FetchRejects None) (lit "Hello world")
                        (Some 1) (Some 1) None None initialWorld)) = []
  /\ currentUtterance
       (speech (snd (speak chrome (FetchRejects None) (lit "Hello world")
                           (Some 1) (Some 1) None None initialWorld)))
     = Some (Utterance 2).
Proof. vm_compute. repeat split. Qed.

(** ** The size guard *)

Lemma begin_session_frame (onLine onFinish : option callback) (w : world) :
  requests_of (history (begin_session onLine onFinish w)) = requests_of (history w)
  /\ audios (begin_session onLine onFinish w) = audios w.
Proof.
  unfold begin_session, stop.
  destruct (currentUtterance (speech w)) as [[id|id]|]; simpl;
    rewrite ?requests_of_app; simpl; rewrite ?app_nil_r; split; reflexivity.
Qed.

(** C7.  When the SSML document is longer than 5000 bytes, [synthesizeSpeech]
    returns the fallback identifier, leaves the state alone and sends nothing
    to the network; a [speak] call with such a text sends no request, makes no
    audio element, and the local backend speaks. *)
Theorem C7_size_guard :
  (forall (now : Z) (net : network) (t : jsstring) (v : VoiceOptions)
          (code : option jsstring) (s : SpeechState),
      5000 < utf8_length (wrappedSSML_of t v code) ->
      synthesizeSpeech now net t v code s = Ok (mkOut (fallbackId now) s []))
  /\ (forall (b : browser) (net : network) (t : jsstring)
             (onLine onFinish : option callback) (voice : option VoiceOptions)
             (code : option jsstring) (w : world),
         5000 < utf8_length
                  (wrappedSSML_of t (match voice with
                                     | Some v => v
                                     | None => defaultVoice
                                     end) None) ->
         blank t = false ->
         let w' := snd (speak b net t onLine onFinish voice code w) in
         requests_of (history w') = requests_of (history w)
         /\ audios w' = audios w
         /\ (hasSpeechSynthesis b = true ->
             exists id, currentUtterance (speech w') = Some (Utterance id))).
Proof.
  assert (Hs : forall now net t v code s,
             5000 < utf8_length (wrappedSSML_of t v code) ->
             synthesizeSpeech now net t v code s
             = Ok (mkOut (fallbackId now) s [])).
  { intros now net t v code s Hbig. unfold synthesizeSpeech.
    apply Nat.ltb_lt in Hbig. rewrite Hbig. reflexivity. }
  split; [exact Hs|].
  intros b net t onLine onFinish voice code w Hbig Hb.
  destruct (begin_session_frame onLine onFinish w) as [Hr Ha].
  unfold speak. rewrite Hb.
  destruct (shouldUseFallbackDirectly _ _).
  - unfold speak_local. cbn [snd].
    destruct (useBrowserSpeechAPI_frame b t (extractLineReferences t code)
                (begin_session onLine onFinish w)) as (A & B & C).
    cbv zeta in A, B, C. cbv zeta. rewrite A, B, Ha, Hr. repeat split. exact C.
  - unfold speak_remote. rewrite (Hs _ _ _ _ _ _ Hbig).
    cbn [so_value so_state so_requests fold_left snd].
    rewrite fallbackId_prefix.
    match goal with |- context [useBrowserSpeechAPI b t ?m ?x] =>
      destruct (useBrowserSpeechAPI_frame b t m x) as (A & B & C) end.
    cbv zeta in A, B, C. cbv zeta.
    cbn [with_speech speech audios history clock pending utterances fresh session].
    rewrite A, B. cbn [with_speech speech audios history]. rewrite Ha, Hr.
    repeat split. rewrite resetErrorState_currentUtterance. exact C.
Qed.

(** ** Escalation and recovery of the fallback mode *)

(** Three failures in a row make the policy choose the local backend, and five
    set the fallback mode. *)
Lemma recordFailure_escalates :
  shouldUseFallbackDirectly 400000 (fail_times 3 1000 initialSpeechState) = true
  /\ fallbackMode (fail_times 4 1000 initialSpeechState) = false
  /\ fallbackMode (fail_times 5 1000 initialSpeechState) = true.
Proof. vm_compute. repeat split. Qed.

Lemma recordFailure_fields (now : Z) (reason : jsstring) (s : SpeechState) :
  consecutiveErrors (recordFailure now reason s) = (consecutiveErrors s + 1)%Z
  /\ lastErrorTime (recordFailure now reason s) = Some now
  /\ fallbackMode (recordFailure now reason s)
     = (fallbackMode s || (5 <=? consecutiveErrors s + 1)%Z)%bool.
Proof.
  unfold recordFailure.
  repeat match goal with
         | |- context [if ?c then _ else _] => destruct c eqn:?
         end; simpl in *;
    repeat match goal with
           | H : (_ <=? _)%Z = _ |- _ => rewrite H
           end;
    rewrite ?orb_true_r, ?orb_false_r; repeat split.
Qed.

(** Each recorded failure adds one to the count; the third in a row makes the
    policy choose the local backend, and the fifth sets the fallback mode. *)
Lemma recordFailure_escalation (now : Z) (reason : jsstring) (s : SpeechState) :
  consecutiveErrors (recordFailure now reason s) = (consecutiveErrors s + 1)%Z
  /\ ((2 <= consecutiveErrors s)%Z ->
      forall later, shouldUseFallbackDirectly later (recordFailure now reason s) = true)
  /\ ((4 <= consecutiveErrors s)%Z ->
      fallbackMode (recordFailure now reason s) = true).
Proof.
  destruct (recordFailure_fields now reason s) as (Hc & _ & Hf).
  split; [exact Hc|]. split.
  - intros H later. unfold shouldUseFallbackDirectly. rewrite Hc.
    destruct (fallbackMode _); [reflexivity|].
    destruct (_ && _)%bool; [reflexivity|].
    assert (E : (3 <=? consecutiveErrors s + 1)%Z = true) by (apply Z.leb_le; lia).
    rewrite E. reflexivity.
  - intros H. rewrite Hf.
    assert (E : (5 <=? consecutiveErrors s + 1)%Z = true) by (apply Z.leb_le; lia).
    rewrite E. apply orb_true_r.
Qed.

(** [resetErrorState] clears [lastErrorTime] before it computes the age of the
    last error, so the age is always infinite and the fallback mode is lifted
    by every call. *)
Lemma resetErrorState_lifts_fallbackMode (now : Z) (s : SpeechState) :
  fallbackMode (resetErrorState now s) = false.
Proof.
  unfold resetErrorState. simpl.
  destruct (fallbackMode s) eqn:E; simpl; [reflexivity | exact E].
Qed.

(** C4, the code at the failing inputs.  (1) Five failures set the fallback
    mode and one success a millisecond later lifts it, five minutes not having
    passed.  (2) Three [speak] calls whose requests fail leave the error count
    at zero, and the fourth call asks the network again. *)
Theorem C4_fallback_not_sustained :
  fallbackMode (fail_times 5 1000 initialSpeechState) = true
  /\ fallbackMode (resetErrorState 5001 (fail_times 5 1000 initialSpeechState))
     = false
  /\ requests_after (failing_speak 1000 ++ failing_speak 2000
                     ++ failing_speak 3000) = Some 3
  /\ requests_after (failing_speak 1000 ++ failing_speak 2000
                     ++ failing_speak 3000 ++ failing_speak 4000) = Some 4.
Proof. vm_compute. repeat split. Qed.

(** ** Counting the pause marks *)

Lemma exec_at_class (p : char -> bool) (bef : list char) (c : char) (s : jsstring) :
  exec_at (Cls p) bef (c :: s)
  = if p c then Some (MR (length bef) [c] []) else None.
Proof.
  unfold exec_at. cbn [rmatch ms_rest ms_before ms_caps].
  destruct (p c); [|reflexivity].
  cbn [ms_rest ms_caps length].
  replace (S (length s) - length s) with 1 by lia. reflexivity.
Qed.



(** ** Synthetic markers *)

Lemma split_chr_length_pos (sep : char) (s : jsstring) :
  1 <= length (split_chr sep s).
Proof.
  induction s as [|c s IH]; simpl; [lia|].
  destruct (N.eqb c sep); simpl; [lia|].
  destruct (split_chr sep s); simpl in *; lia.
Qed.

Lemma synthetic_from_all (len interval : Z) (fuel : nat) :
  forall n : nat,
    (forall j, n <= j < n + fuel -> (Z.of_nat j * interval < len)%Z) ->
    synthetic_from len interval (Z.of_nat n) fuel
    = map (synthetic_marker interval) (seq n fuel).
Proof.
  induction fuel as [|f IH]; intros n H; [reflexivity|].
  simpl. assert (Hn : (Z.of_nat n * interval < len)%Z) by (apply H; lia).
  apply Z.ltb_lt in Hn. rewrite Hn. simpl.
  f_equal. replace (Z.of_nat n + 1)%Z with (Z.of_nat (S n)) by lia.
  apply IH. intros j Hj. apply H. lia.
Qed.

Lemma numMarkers_bounds (len : Z) : (3 <= numMarkers_of len <= 8)%Z.
Proof. unfold numMarkers_of. lia. Qed.

Lemma syntheticMarkers_all (codeLines : list jsstring) :
  1 <= length codeLines ->
  let len := Z.of_nat (length codeLines) in
  let k := numMarkers_of len in
  syntheticMarkers codeLines
  = map (synthetic_marker (len / (k + 1))) (seq 1 (Z.to_nat k)).
Proof.
  intros Hlen len k. unfold syntheticMarkers. fold len. fold k.
  pose proof (numMarkers_bounds len) as Hk. fold k in Hk.
  apply (synthetic_from_all len (len / (k + 1)) (Z.to_nat k) 1).
  intros j Hj.
  assert (Hl : (1 <= len)%Z) by (unfold len; lia).
  assert (Hq : (0 <= len / (k + 1))%Z) by (apply Z.div_pos; lia).
  assert (Hm : ((k + 1) * (len / (k + 1)) <= len)%Z)
    by (apply Z.mul_div_le; lia).
  assert (Hj' : (Z.of_nat j <= k)%Z) by lia.
  nia.
Qed.

(** C6, as the code has it.  When neither pattern finds a line reference and a
    non-empty reference code of [len] lines is given, extraction returns
    [k = min(8, max(3, floor(len / 15)))] synthetic markers, the [i]-th (from 1)
    on the zero-based line [i * floor(len / (k + 1))], whatever the lines hold;
    these are exactly 3 markers when the code has fewer than 60 lines. *)
Theorem C6_synthetic_markers (t code : jsstring) :
  code <> [] ->
  primary_markers (cleanReferenceText t) = [] ->
  lenient_markers (cleanReferenceText t) = [] ->
  let len := Z.of_nat (length (split_chr 10%N code)) in
  let k := numMarkers_of len in
  extractLineReferences t (Some code)
  = map (synthetic_marker (len / (k + 1))) (seq 1 (Z.to_nat k))
  /\ length (extractLineReferences t (Some code)) = Z.to_nat k
  /\ ((len < 60)%Z -> length (extractLineReferences t (Some code)) = 3).
Proof.
  intros Hcode Hp Hl len k.
  assert (E : extractLineReferences t (Some code)
              = map (synthetic_marker (len / (k + 1))) (seq 1 (Z.to_nat k))).
  { unfold extractLineReferences. rewrite Hp, Hl.
    destruct code as [|c code']; [contradiction|]. simpl nonempty_code. cbv iota.
    apply syntheticMarkers_all. apply split_chr_length_pos. }
  split; [exact E|]. rewrite E, length_map, length_seq.
  split; [reflexivity|].
  intros H60. unfold k, numMarkers_of.
  assert (Hd : (0 <= len / 15 < 4)%Z).
  { split; [apply Z.div_pos; lia|apply Z.div_lt_upper_bound; lia]. }
  replace (Z.min 8 (Z.max 3 (len / 15))) with 3%Z by lia. reflexivity.
Qed.

Lemma C6_synthetic_markers_witness :
  length (extractLineReferences (lit "Nothing to point at.") (Some three_line_code))
  = 3.
Proof.
  refine (proj2 (proj2 (C6_synthetic_markers (lit "Nothing to point at.")
                          three_line_code _ _ _)) _).
  - discriminate.
  - vm_compute. reflexivity.
  - vm_compute. reflexivity.
  - vm_compute. reflexivity.
Defined.

(** C6, a counterexample to the claim as stated: no pattern finds a reference
    in the text, the code has sixty lines, and four markers come back, on the
    lines 12, 24, 36 and 48, all of them empty. *)
Lemma C6_four_markers_for_sixty_lines :
  primary_markers (cleanReferenceText (lit "Nothing to point at.")) = []
  /\ lenient_markers (cleanReferenceText (lit "Nothing to point at.")) = []
  /\ map lineNumber
       (extractLineReferences (lit "Nothing to point at.") (Some sixty_lines))
     = [12; 24; 36; 48]%Z
  /\ map (fun l => meaningful (trim l)) (split_chr 10%N sixty_lines)
     = repeat false 60.
Proof. vm_compute. repeat split. Qed.

(** ** The matcher: what a match consumes *)

Lemma advanced_refl (st : mstate) : advanced [] st st.
Proof. split; reflexivity. Qed.

Lemma advanced_trans (xs ys : list char) (a b c : mstate) :
  advanced xs a b -> advanced ys b c -> advanced (xs ++ ys) a c.
Proof.
  intros [H1 H2] [H3 H4]. split.
  - rewrite H1, H3. apply app_assoc.
  - rewrite H4, H2, rev_app_distr, app_assoc. reflexivity.
Qed.

Lemma forallb_weaken (p q : char -> bool) (xs : list char) :
  (forall c, p c = true -> q c = true) ->
  forallb p xs = true -> forallb q xs = true.
Proof.
  intros H. induction xs as [|c xs IH]; simpl; [reflexivity|].
  intros E. apply andb_prop in E. destruct E as [E1 E2].
  rewrite (H _ E1), (IH E2). reflexivity.
Qed.

Lemma star_loop_consumes (accept : char -> bool)
      (m : cont -> mstate -> option mstate) :
  consumes_spec accept m ->
  forall fuel k st res,
    star_loop m k fuel st = Some res ->
    exists st1 xs,
      advanced xs st st1 /\ forallb accept xs = true /\ k st1 = Some res.
Proof.
  intros Hm. induction fuel as [|f IH]; intros k st res H; simpl in H.
  - stay st H.
  - destruct (m _ st) as [x|] eqn:E.
    + inversion H; subst x. apply Hm in E.
      destruct E as (st1 & xs & A & F & K).
      destruct (length (ms_rest st1) <? length (ms_rest st)); [|discriminate].
      apply IH in K. destruct K as (st2 & ys & A2 & F2 & K2).
      exists st2, (xs ++ ys). split; [eapply advanced_trans; eassumption|].
      split; [|exact K2]. rewrite forallb_app, F, F2. reflexivity.
    + stay st H.
Qed.

Lemma rmatch_consumes (r : regex) : consumes_spec (accepts r) (rmatch r).
Proof.
  induction r as [|p|a IHa b IHb|a IHa b IHb|a IHa|n a IHa| | |];
    intros k st res H; cbn [rmatch] in H.
  - stay st H.
  - destruct st as [bef rest caps]. simpl in H.
    destruct rest as [|c s]; [discriminate|].
    destruct (p c) eqn:E; [|discriminate].
    exists (MS (c :: bef) s caps), [c]. split; [split; reflexivity|].
    split; [simpl; rewrite E; reflexivity|exact H].
  - apply IHa in H. destruct H as (st1 & xs & A & F & K).
    apply IHb in K. destruct K as (st2 & ys & A2 & F2 & K2).
    exists st2, (xs ++ ys). split; [eapply advanced_trans; eassumption|].
    split; [|exact K2]. rewrite forallb_app. simpl.
    rewrite (forallb_weaken (accepts a) _ xs), (forallb_weaken (accepts b) _ ys);
      auto; intros c Hc; rewrite Hc; auto using orb_true_r.
  - destruct (rmatch a k st) as [x|] eqn:E.
    + inversion H; subst x. apply IHa in E.
      destruct E as (st1 & xs & A & F & K). exists st1, xs.
      split; [exact A|]. split; [|exact K].
      apply (forallb_weaken (accepts a)); auto. simpl. intros c Hc. rewrite Hc. auto.
    + apply IHb in H. destruct H as (st1 & xs & A & F & K). exists st1, xs.
      split; [exact A|]. split; [|exact K].
      apply (forallb_weaken (accepts b)); auto. simpl. intros c Hc. rewrite Hc.
      auto using orb_true_r.
  - apply (star_loop_consumes (accepts a) (rmatch a) IHa) in H. exact H.
  - apply IHa in H. destruct H as (st1 & xs & A & F & K).
    eexists (MS (ms_before st1) (ms_rest st1) _), xs.
    split; [exact A|]. split; [exact F|exact K].
  - destruct (ms_before st); [|discriminate].
    stay st H.
  - destruct (ms_rest st); [|discriminate].
    stay st H.
  - destruct (xorb _ _); [|discriminate].
    stay st H.
Qed.

Lemma firstn_app_exact (xs ys : list char) :
  firstn (length (xs ++ ys) - length ys) (xs ++ ys) = xs.
Proof.
  rewrite length_app. replace (length xs + length ys - length ys) with (length xs) by lia.
  rewrite firstn_app, Nat.sub_diag, firstn_all. simpl. apply app_nil_r.
Qed.

(** A match of [lineRegex] never consumes an opening bracket after its first
    code unit. *)
Lemma lineRegex_match_shape (bef : list char) (s : jsstring) (m : rmatchres) :
  exec_at lineRegex bef s = Some m ->
  exists rest,
    s = mr_text m ++ rest
    /\ forallb (fun c => negb (N.eqb c 91%N)) (tl (mr_text m)) = true.
Proof.
  unfold exec_at.
  destruct (rmatch lineRegex Some (MS bef s [])) as [st'|] eqn:E; [|discriminate].
  intros H. inversion H; subst m; clear H. simpl.
  unfold lineRegex in E. cbn [rmatch] in E.
  assert (Hno : forall r xs, accepts r 91%N = false ->
                  forallb (accepts r) xs = true ->
                  forallb (fun c => negb (N.eqb c 91%N)) xs = true).
  { intros r xs Hr. apply forallb_weaken. intros c Hc.
    destruct (N.eqb_spec c 91%N); [subst; congruence|reflexivity]. }
  destruct (rmatch bracketed_ref Some (MS bef s [])) as [y|] eqn:E1.
  - inversion E; subst y; clear E.
    unfold bracketed_ref in E1. cbn [seqs] in E1.
    match type of E1 with
    | rmatch (Seq _ ?b) _ _ = _ => remember b as R1 eqn:HR1
    end.
    cbn [rmatch Chr ms_rest] in E1.
    destruct s as [|c s1]; [discriminate|].
    destruct (N.eqb (chr "[") c) eqn:Ec; [|discriminate].
    apply rmatch_consumes in E1. destruct E1 as (st1 & xs & [A1 A2] & F & K).
    inversion K; subst st1; clear K. simpl in A1.
    exists (ms_rest st'). rewrite A1.
    change (c :: xs ++ ms_rest st') with ((c :: xs) ++ ms_rest st').
    rewrite firstn_app_exact. split; [reflexivity|]. cbn [tl].
    eapply Hno; [|exact F]. subst R1. vm_compute. reflexivity.
  - apply rmatch_consumes in E. destruct E as (st1 & xs & [A1 A2] & F & K).
    inversion K; subst st1; clear K. simpl in A1.
    exists (ms_rest st'). rewrite A1, firstn_app_exact. split; [reflexivity|].
    assert (F' : forallb (fun c => negb (N.eqb c 91%N)) xs = true).
    { eapply Hno; [|exact F]. vm_compute. reflexivity. }
    destruct xs as [|x xs']; [reflexivity|]. simpl in F'.
    apply andb_prop in F'. apply F'.
Qed.

(** ** The matcher on a bracketed reference *)

Lemma star_loop_class (p : char -> bool)
      (m : cont -> mstate -> option mstate) (k : cont) (r : jsstring)
      (caps : list (nat * jsstring)) (res : mstate) (xs : list char) :
  class_matcher p m ->
  forall (fuel : nat) (bef : list char),
    length xs < fuel ->
    forallb p xs = true ->
    stops p r ->
    k (MS (rev xs ++ bef) r caps) = Some res ->
    star_loop m k fuel (MS bef (xs ++ r) caps) = Some res.
Proof.
  intros Hm.
  induction xs as [|c xs IH]; intros fuel bef Hf Hp Hr Hk.
  - destruct fuel as [|f]; [lia|]. cbn [star_loop app]. rewrite Hm.
    destruct r as [|c r']; simpl in *.
    + exact Hk.
    + rewrite Hr. exact Hk.
  - destruct fuel as [|f]; [simpl in Hf; lia|].
    simpl in Hp. apply andb_prop in Hp. destruct Hp as [Hc Hp].
    cbn [star_loop app]. rewrite Hm, Hc. cbn [ms_rest].
    assert (Hlt : (length (xs ++ r) <? length (c :: xs ++ r)) = true)
      by (apply Nat.ltb_lt; simpl; lia).
    rewrite Hlt.
    rewrite (IH f (c :: bef)); [reflexivity| simpl in Hf; lia | exact Hp | exact Hr |].
    simpl in Hk. rewrite <- app_assoc in Hk. exact Hk.
Qed.

Lemma rmatch_class_matcher (p : char -> bool) : class_matcher p (rmatch (Cls p)).
Proof. intros k bef s caps. reflexivity. Qed.

Lemma rmatch_star_class (p : char -> bool) (k : cont) (xs r : jsstring)
      (bef : list char) (caps : list (nat * jsstring)) (res : mstate) :
  forallb p xs = true ->
  stops p r ->
  k (MS (rev xs ++ bef) r caps) = Some res ->
  rmatch (Star (Cls p)) k (MS bef (xs ++ r) caps) = Some res.
Proof.
  intros Hp Hr Hk.
  change (rmatch (Star (Cls p)) k (MS bef (xs ++ r) caps))
    with (star_loop (rmatch (Cls p)) k (S (length (xs ++ r)))
                    (MS bef (xs ++ r) caps)).
  apply (star_loop_class p); try assumption.
  - apply rmatch_class_matcher.
  - rewrite length_app. lia.
Qed.

Lemma rmatch_star_class_stop (p : char -> bool) (k : cont) (r : jsstring)
      (bef : list char) (caps : list (nat * jsstring)) (res : mstate) :
  stops p r ->
  k (MS bef r caps) = Some res ->
  rmatch (Star (Cls p)) k (MS bef r caps) = Some res.
Proof.
  intros Hr Hk. apply (rmatch_star_class p k [] r bef caps res); auto.
Qed.

Lemma rmatch_star_stop (p : char -> bool) (k : cont) (st : mstate) :
  stops p (ms_rest st) ->
  rmatch (Star (Cls p)) k st = k st.
Proof.
  intros Hr. destruct st as [bef r caps].
  change (rmatch (Star (Cls p)) k (MS bef r caps))
    with (star_loop (rmatch (Cls p)) k (S (length r)) (MS bef r caps)).
  cbn [star_loop]. rewrite rmatch_class_matcher.
  destruct r as [|c r']; simpl in *; [reflexivity|]. rewrite Hr. reflexivity.
Qed.

Lemma rmatch_seq (a b : regex) (k : cont) (st : mstate) :
  rmatch (Seq a b) k st = rmatch a (rmatch b k) st.
Proof. reflexivity. Qed.

Lemma rmatch_cls_hit (p : char -> bool) (k : cont) (bef : list char) (c : char)
      (s : jsstring) (caps : list (nat * jsstring)) :
  p c = true ->
  rmatch (Cls p) k (MS bef (c :: s) caps) = k (MS (c :: bef) s caps).
Proof. intros H. simpl. rewrite H. reflexivity. Qed.

Lemma rmatch_cls_miss (p : char -> bool) (k : cont) (st : mstate) :
  stops p (ms_rest st) -> rmatch (Cls p) k st = None.
Proof.
  destruct st as [bef [|c s] caps]; simpl; [reflexivity|].
  intros H. rewrite H. reflexivity.
Qed.

Lemma rmatch_str (cs : jsstring) :
  forall (k : cont) (bef : list char) (s : jsstring) (caps : list (nat * jsstring)),
    rmatch (Str_of cs) k (MS bef (cs ++ s) caps) = k (MS (rev cs ++ bef) s caps).
Proof.
  induction cs as [|c cs IH]; intros k bef s caps; [reflexivity|].
  cbn [Str_of app]. rewrite rmatch_seq, rmatch_cls_hit by apply N.eqb_refl.
  rewrite IH. cbn [rev]. rewrite <- app_assoc. reflexivity.
Qed.

Lemma firstn_rev_prefix (xs bef0 : list char) :
  rev (firstn (length (rev xs ++ bef0) - length bef0) (rev xs ++ bef0)) = xs.
Proof. rewrite firstn_app_exact. apply rev_involutive. Qed.

(** [(p+)] as capture group [n] on a run [x :: xs] of the class. *)
Lemma rmatch_group_plus (p : char -> bool) (n : nat) (k : cont)
      (x : char) (xs r : jsstring) (bef : list char)
      (caps : list (nat * jsstring)) (res : mstate) :
  p x = true -> forallb p xs = true -> stops p r ->
  k (MS (rev (x :: xs) ++ bef) r ((n, x :: xs) :: caps)) = Some res ->
  rmatch (Grp n (Plus (Cls p))) k (MS bef (x :: xs ++ r) caps) = Some res.
Proof.
  intros Hx Hxs Hr Hk.
  change (rmatch (Grp n (Plus (Cls p))) k (MS bef (x :: xs ++ r) caps))
    with (rmatch (Plus (Cls p))
            (fun st' =>
               let len := length (ms_before st') - length bef in
               k (MS (ms_before st') (ms_rest st')
                     ((n, rev (firstn len (ms_before st'))) :: ms_caps st')))
            (MS bef (x :: xs ++ r) caps)).
  unfold Plus. rewrite rmatch_seq, rmatch_cls_hit by exact Hx.
  apply rmatch_star_class; [exact Hxs|exact Hr|].
  cbn [ms_before ms_rest ms_caps]. cbv zeta.
  replace (rev xs ++ x :: bef) with (rev (x :: xs) ++ bef)
    by (cbn [rev]; rewrite <- app_assoc; reflexivity).
  rewrite firstn_rev_prefix. exact Hk.
Qed.

Lemma digit_not_space (d : char) : is_digit d = true -> is_space d = false.
Proof.
  unfold is_digit, is_space, in_range. intros H.
  apply andb_prop in H. destruct H as [H1 H2].
  apply N.leb_le in H1. apply N.leb_le in H2.
  repeat apply orb_false_intro;
    first [ apply N.eqb_neq; lia
          | apply andb_false_iff; right; apply N.leb_gt; lia
          | apply andb_false_iff; left; apply N.leb_gt; lia ].
Qed.

Lemma bracketed_cons (d : char) (ds post : jsstring) :
  bracketed (d :: ds) ++ post
  = 91%N :: 76%N :: [105; 110; 101]%N ++ 32%N :: d :: ds ++ 93%N :: post.
Proof.
  unfold bracketed.
  change (lit "[Line ") with [91; 76; 105; 110; 101; 32]%N.
  change (lit "]") with [93%N].
  cbn [app]. rewrite <- app_assoc. reflexivity.
Qed.

(** The range tail [(?:\s*-\s*\d+)?] matches the empty string before a code
    unit that is neither white space nor a hyphen. *)
Lemma range_tail_skips (k : cont) (bef : list char) (c : char) (s : jsstring)
      (caps : list (nat * jsstring)) :
  is_space c = false -> N.eqb (chr "-") c = false ->
  rmatch range_tail k (MS bef (c :: s) caps) = k (MS bef (c :: s) caps).
Proof.
  intros Hs Hh. unfold range_tail, Opt. cbn [seqs].
  change (rmatch (Alt ?a Eps) k ?st)
    with (match rmatch a k st with Some x => Some x | None => k st end).
  unfold sp at 1. rewrite rmatch_seq, rmatch_star_stop by exact Hs.
  unfold Chr at 1. rewrite rmatch_seq, rmatch_cls_miss by exact Hh.
  reflexivity.
Qed.

Lemma bracketed_ref_matches (bef : list char) (ds post : jsstring) :
  ds <> [] -> forallb is_digit ds = true ->
  exists bef',
    rmatch bracketed_ref Some (MS bef (bracketed ds ++ post) [])
    = Some (MS bef' post [(1, ds)]).
Proof.
  intros Hne Hd. destruct ds as [|d ds]; [contradiction|].
  simpl in Hd. apply andb_prop in Hd. destruct Hd as [Hd0 Hd].
  eexists. rewrite bracketed_cons.
  unfold bracketed_ref. cbn [seqs].
  unfold Chr at 1. rewrite rmatch_seq, rmatch_cls_hit by reflexivity.
  unfold sp at 1. rewrite rmatch_seq, rmatch_star_stop by reflexivity.
  unfold OneOf. rewrite rmatch_seq, rmatch_cls_hit by reflexivity.
  unfold Str. change (lit "ine") with [105; 110; 101]%N.
  rewrite rmatch_seq, rmatch_str.
  unfold sp at 1. rewrite rmatch_seq.
  apply (rmatch_star_class is_space _ [32%N]);
    [reflexivity | apply digit_not_space; exact Hd0 |].
  unfold dg. rewrite rmatch_seq.
  apply rmatch_group_plus; [exact Hd0 | exact Hd | reflexivity |].
  rewrite rmatch_seq, range_tail_skips by reflexivity.
  unfold sp. rewrite rmatch_seq, rmatch_star_stop by reflexivity.
  unfold Chr. rewrite rmatch_cls_hit by reflexivity.
  reflexivity.
Qed.

Lemma exec_at_bracketed (bef : list char) (ds post : jsstring) :
  ds <> [] -> forallb is_digit ds = true ->
  exec_at lineRegex bef (bracketed ds ++ post)
  = Some (MR (length bef) (bracketed ds) [(1, ds)]).
Proof.
  intros Hne Hd. unfold exec_at, lineRegex.
  change (rmatch (Alt ?a ?b) ?k ?st)
    with (match rmatch a k st with Some x => Some x | None => rmatch b k st end).
  destruct (bracketed_ref_matches bef ds post Hne Hd) as [bef' E].
  rewrite E. cbn [ms_rest ms_caps]. rewrite firstn_app_exact. reflexivity.
Qed.

(** ** The scan reaches a bracketed reference *)

Lemma bracketed_head (ds : jsstring) :
  exists tail, bracketed ds = 91%N :: tail.
Proof. unfold bracketed. eexists. reflexivity. Qed.

Lemma no_bracket_in_tail (xs rest pre' rest2 : jsstring) (c : char) :
  c :: pre' ++ 91%N :: rest2 = xs ++ rest ->
  forallb (fun c => negb (N.eqb c 91%N)) (tl xs) = true ->
  length xs - 1 <= length pre'.
Proof.
  intros E F. destruct xs as [|x xs]; [simpl; lia|].
  simpl in *. inversion E as [[Ex E']]. clear E. rewrite Nat.sub_0_r.
  destruct (le_lt_dec (length xs) (length pre')) as [|Hlt]; [assumption|exfalso].
  assert (H : nth_error (xs ++ rest) (length pre') = Some 91%N).
  { rewrite <- E'. rewrite nth_error_app2 by lia. rewrite Nat.sub_diag. reflexivity. }
  rewrite nth_error_app1 in H by lia.
  apply nth_error_In in H.
  rewrite forallb_forall in F. apply F in H. simpl in H. discriminate.
Qed.

Lemma scan_reaches_bracketed (ds post : jsstring) :
  ds <> [] -> forallb is_digit ds = true ->
  forall (pre : jsstring) (skip : nat) (bef : list char),
    skip <= length pre ->
    exists ms1 ms2,
      scan_from lineRegex skip bef (pre ++ bracketed ds ++ post)
      = ms1 ++ MR (length bef + length pre) (bracketed ds) [(1, ds)] :: ms2.
Proof.
  intros Hne Hd. induction pre as [|c pre IH]; intros skip bef Hs.
  - simpl in Hs. assert (skip = 0) by lia. subst skip.
    cbn [app]. destruct (bracketed_head ds) as [tail Et].
    assert (E := exec_at_bracketed bef ds post Hne Hd).
    destruct (bracketed ds ++ post) as [|c s] eqn:Eb.
    { rewrite Et in Eb. discriminate. }
    cbn [scan_from]. rewrite E. rewrite Nat.add_0_r.
    exists []. eexists. reflexivity.
  - cbn [app]. destruct skip as [|k].
    + cbn [scan_from].
      destruct (exec_at lineRegex bef (c :: pre ++ bracketed ds ++ post))
        as [m|] eqn:E.
      * destruct (lineRegex_match_shape _ _ _ E) as (rest & Es & F).
        destruct (bracketed_head ds) as [tail Et].
        rewrite Et in Es. cbn [app] in Es.
        assert (Hk : length (mr_text m) - 1 <= length pre)
          by (eapply no_bracket_in_tail; eassumption).
        destruct (IH (length (mr_text m) - 1) (c :: bef) Hk) as (ms1 & ms2 & E2).
        rewrite E2. exists (m :: ms1), ms2. shift_index.
      * destruct (IH 0 (c :: bef) (Nat.le_0_l _)) as (ms1 & ms2 & E2).
        rewrite E2. exists ms1, ms2. shift_index.
    + cbn [scan_from]. cbn [length] in Hs.
      destruct (IH k (c :: bef) (le_S_n _ _ Hs)) as (ms1 & ms2 & E2).
      rewrite E2. exists ms1, ms2. shift_index.
Qed.

(** ** From a reference to its marker *)

Lemma take_while_all (p : char -> bool) (xs : jsstring) :
  forallb p xs = true -> take_while p xs = xs.
Proof.
  induction xs as [|c xs IH]; simpl; [reflexivity|].
  intros H. apply andb_prop in H. destruct H as [H1 H2].
  rewrite H1, (IH H2). reflexivity.
Qed.

Lemma digit_not_sign (d : char) :
  is_digit d = true -> N.eqb d 45%N = false /\ N.eqb d 43%N = false.
Proof.
  unfold is_digit, in_range. intros H.
  apply andb_prop in H. destruct H as [H1 H2].
  apply N.leb_le in H1. apply N.leb_le in H2.
  split; apply N.eqb_neq; lia.
Qed.

Lemma parseInt_digits (ds : jsstring) :
  ds <> [] -> forallb is_digit ds = true ->
  parseInt ds = Some (digits_value ds).
Proof.
  intros Hne Hd. destruct ds as [|d ds]; [contradiction|].
  assert (Hd' := Hd). simpl in Hd'. apply andb_prop in Hd'. destruct Hd' as [Hd0 _].
  unfold parseInt. cbn [drop_while]. rewrite (digit_not_space d Hd0).
  destruct (digit_not_sign d Hd0) as [Hm Hp]. rewrite Hm, Hp.
  rewrite (take_while_all is_digit (d :: ds) Hd).
  f_equal. destruct (digits_value (d :: ds)); reflexivity.
Qed.

Lemma primary_markers_bracketed (pre ds post : jsstring) :
  ds <> [] -> forallb is_digit ds = true ->
  In (mkMarker (bracketed ds) (digits_value ds - 1)%Z)
     (primary_markers (pre ++ bracketed ds ++ post)).
Proof.
  intros Hne Hd. unfold primary_markers, scan.
  destruct (scan_reaches_bracketed ds post Hne Hd pre 0 [] (Nat.le_0_l _))
    as (ms1 & ms2 & E).
  rewrite E, flat_map_app. apply in_or_app. right.
  cbn [flat_map]. apply in_or_app. left.
  unfold marker_of_match, cap. cbn [mr_caps mr_text cap_lookup Nat.eqb].
  destruct ds as [|d ds]; [contradiction|]. cbn [cap_or parseInt_cap].
  rewrite (parseInt_digits (d :: ds) Hne Hd). left. reflexivity.
Qed.

(** ** Validation against the reference code *)

Lemma look_ahead_spec (codeLines : list jsstring) (n maxLine : Z) (fuel : nat) :
  forall i : Z,
    (0 <= i)%Z ->
    (forall j, (n <= j < n + i)%Z -> line_meaningful codeLines j = false) ->
    let ln := look_ahead codeLines n maxLine i fuel n in
    (line_meaningful codeLines ln = true
     /\ (n + i <= ln < n + i + Z.of_nat fuel)%Z /\ (ln <= maxLine)%Z
     /\ forall j, (n <= j < ln)%Z -> line_meaningful codeLines j = false)
    \/ (ln = n
        /\ forall j, (n <= j < n + i + Z.of_nat fuel)%Z -> (j <= maxLine)%Z ->
                     line_meaningful codeLines j = false).
Proof.
  induction fuel as [|f IH]; intros i Hi Hprev; cbn [look_ahead].
  - right. split; [reflexivity|]. intros j Hj _. apply Hprev. lia.
  - destruct (maxLine <? n + i)%Z eqn:Hmax.
    + right. split; [reflexivity|]. intros j Hj Hjm.
      apply Z.ltb_lt in Hmax. apply Hprev. lia.
    + apply Z.ltb_ge in Hmax.
      fold (line_meaningful codeLines (n + i)).
      destruct (line_meaningful codeLines (n + i)) eqn:Hm.
      * left. split; [exact Hm|]. split; [lia|]. split; [exact Hmax|exact Hprev].
      * assert (Hprev' : forall j, (n <= j < n + (i + 1))%Z ->
                                   line_meaningful codeLines j = false).
        { intros j Hj. destruct (Z.eq_dec j (n + i)) as [->|Hne]; [exact Hm|].
          apply Hprev. lia. }
        destruct (IH (i + 1)%Z ltac:(lia) Hprev') as [(A & B & C & D)|(A & B)].
        -- left. split; [exact A|]. split; [lia|]. split; [exact C|exact D].
        -- right. split; [exact A|]. intros j Hj Hjm. apply B; lia.
Qed.

(** C5, as the code has it.  Let the text, once its tags are stripped, contain
    "[Line N]" with [1 <= N <=] the number of lines of a non-empty reference
    code.  Extraction yields a marker for it whose zero-based line [ln] is never
    before [N - 1] and at most [N + 3]: it is the first line from [N - 1] on that
    is neither empty nor starts a comment ([//], [/*], [*], [#]) when there is
    one among the five lines [N - 1 .. N + 3]; when there is none, it stays
    [N - 1].  In particular [ln = N - 1] when line [N] itself is meaningful. *)
Theorem C5_reference_resolution (t code pre ds post : jsstring) :
  cleanReferenceText t = pre ++ bracketed ds ++ post ->
  ds <> [] -> forallb is_digit ds = true ->
  code <> [] ->
  let codeLines := split_chr 10%N code in
  let n := digits_value ds in
  (1 <= n <= Z.of_nat (length codeLines))%Z ->
  exists ln,
    In (mkMarker (bracketed ds) ln) (extractLineReferences t (Some code))
    /\ (n - 1 <= ln <= n + 3)%Z
    /\ (ln < Z.of_nat (length codeLines))%Z
    /\ (line_meaningful codeLines (n - 1) = true -> ln = (n - 1)%Z)
    /\ ((line_meaningful codeLines ln = true
         /\ forall j, (n - 1 <= j < ln)%Z -> line_meaningful codeLines j = false)
        \/ (ln = (n - 1)%Z
            /\ forall j, (n - 1 <= j <= n + 3)%Z ->
                         (j < Z.of_nat (length codeLines))%Z ->
                         line_meaningful codeLines j = false)).
Proof.
  intros Hclean Hne Hd Hcode codeLines n Hn.
  set (len := Z.of_nat (length codeLines)) in *.
  set (ln := look_ahead codeLines (n - 1) (len - 1) 0 5 (n - 1)).
  exists ln.
  assert (Hin : In (mkMarker (bracketed ds) ln)
                   (extractLineReferences t (Some code))).
  { unfold extractLineReferences. rewrite Hclean.
    pose proof (primary_markers_bracketed pre ds post Hne Hd) as Hp.
    destruct (primary_markers (pre ++ bracketed ds ++ post)) as [|m0 ms] eqn:Em;
      [contradiction|].
    destruct code as [|c code']; [contradiction|]. cbn [nonempty_code].
    fold codeLines.
    apply (in_map (validate_marker codeLines)) in Hp.
    replace (validate_marker codeLines (mkMarker (bracketed ds) (digits_value ds - 1)))
      with (mkMarker (bracketed ds) ln) in Hp; [exact Hp|].
    unfold validate_marker. cbn [lineNumber text]. fold len. fold n.
    assert (H1 : (n - 1 <? 0)%Z = false) by (apply Z.ltb_ge; lia).
    assert (H2 : (len <=? n - 1)%Z = false) by (apply Z.leb_gt; lia).
    rewrite H1, H2. reflexivity. }
  split; [exact Hin|].
  pose proof (look_ahead_spec codeLines (n - 1) (len - 1) 5 0 (Z.le_refl 0)) as Hs.
  cbv zeta in Hs. fold ln in Hs.
  destruct Hs as [(A & B & C & D)|(A & B)].
  { intros j Hj. lia. }
  - split; [lia|]. split; [lia|]. split.
    + intros Hm. destruct (Z.eq_dec ln (n - 1)) as [E|E]; [exact E|].
      rewrite (D (n - 1)%Z) in Hm by lia. discriminate.
    + left. split; [exact A|exact D].
  - split; [lia|]. split; [lia|]. split.
    + intros _. exact A.
    + right. split; [exact A|]. intros j Hj Hjl. apply B; lia.
Qed.

(** C5, counterexamples to the claim as stated.  (1) Line 1 of the code is
    empty and the nearest following meaningful line is line 7 (index 6), but
    the marker for "[Line 1]" stays on index 0: the code looks no further than
    four lines ahead.  (2) A reference inside a [<break ...>] tag is stripped
    with the tag: line 1 of the code is meaningful, yet no marker is on
    index 0 (the three synthetic markers come back). *)
Lemma C5_reference_not_remapped :
  (extractLineReferences (lit "See [Line 1] first.") (Some late_code)
   = [mkMarker (lit "[Line 1]") 0]
   /\ map (line_meaningful (split_chr 10%N late_code)) [0; 1; 2; 3; 4; 5; 6]%Z
      = [false; false; false; false; false; false; true])
  /\ (map lineNumber
          (extractLineReferences (lit "Pause <break [Line 1]> here.")
                                 (Some six_line_code))
      = [1; 2; 3]%Z
      /\ line_meaningful (split_chr 10%N six_line_code) 0 = true).
Proof. vm_compute. repeat split. Qed.

Lemma C5_reference_resolution_witness :
  exists ln,
    In (mkMarker (lit "[Line 2]") ln)
       (extractLineReferences (lit "Let's look. [Line 2] sets up state.")
                              (Some six_line_code))
    /\ (1 <= ln <= 5)%Z.
Proof.
  destruct (C5_reference_resolution
              (lit "Let's look. [Line 2] sets up state.") six_line_code
              (lit "Let's look. ") (lit "2") (lit " sets up state."))
    as (ln & Hin & Hr & _).
  - vm_compute. reflexivity.
  - discriminate.
  - reflexivity.
  - discriminate.
  - vm_compute. split; discriminate.
  - exists ln. split; [exact Hin | exact Hr].
Defined.

(** ** Texts without tags *)

Lemma starts_on_miss (a : char) (r : regex) :
  starts_on a r ->
  forall (k : cont) (st : mstate),
    match ms_rest st with [] => True | c :: _ => c <> a end ->
    rmatch r k st = None.
Proof.
  induction r as [|p|r1 IH1 r2 _| | | | | |]; cbn [starts_on]; try contradiction.
  - intros Hp k [bef [|c s] caps]; cbn [rmatch ms_rest]; [reflexivity|].
    intros Hc. destruct (p c) eqn:E; [|reflexivity].
    apply Hp in E. contradiction.
  - intros H1 k st Hst. cbn [rmatch]. apply IH1; assumption.
Qed.

Lemma replace_from_absent (a : char) (r : regex) (f : rmatchres -> jsstring)
      (s : jsstring) :
  starts_on a r ->
  forallb (fun c => negb (N.eqb c a)) s = true ->
  forall bef, replace_from r f 0 bef s = s.
Proof.
  intros Hr. induction s as [|c s IH]; intros Hs bef.
  - cbn [replace_from]. unfold exec_at.
    rewrite (starts_on_miss a r Hr); [reflexivity|exact I].
  - cbn [forallb] in Hs. apply andb_prop in Hs. destruct Hs as [Hc Hs].
    cbn [replace_from]. unfold exec_at.
    rewrite (starts_on_miss a r Hr).
    + rewrite (IH Hs). reflexivity.
    + cbn [ms_rest]. intros ->. rewrite N.eqb_refl in Hc. discriminate.
Qed.

(** A text without [<] is left as it is by the tag stripping. *)
Lemma cleanReferenceText_plain (t : jsstring) :
  forallb (fun c => negb (N.eqb c 60%N)) t = true ->
  cleanReferenceText t = t.
Proof.
  intros H. unfold cleanReferenceText, replace_with, replace_all, open_tag, Str.
  repeat (rewrite (replace_from_absent 60%N _ _ t);
          [ | cbn [starts_on seqs Str_of lit map list_ascii_of_string];
              intros c Hc; apply N.eqb_eq in Hc; symmetry; exact Hc
            | exact H ]).
  reflexivity.
Qed.

(** ** The finish callback *)

(** C1, the code at failing inputs.  (1) The request fails, the local backend
    speaks and its utterance ends after two seconds: the finish callback is
    called then, and again by the safety timer at the fifteenth second, which
    [onend] does not clear.  (2) Without the Web Speech API the callback is
    called at once and again by the safety timer. *)
Theorem C1_finish_called_twice :
  finish_count 1 (history_of chrome local_session_run) = 2
  /\ finish_count 1
       (history_of silent_browser
          [CallSpeak (FetchRejects None) narration (Some 1) (Some 1) None None;
           TimePasses 15000]) = 2.
Proof. vm_compute. split; reflexivity. Qed.

(** ** Stale highlights *)

(** C2, the code at failing inputs.  Timers armed by the first session call
    the highlight callback after [stop] has returned: (1) with the remote audio
    playing, both highlights; (2) with the local backend, the fail-safe
    highlight of the second marker, even when the browser has reported the end
    of the cancelled utterance.  (3) After a second [speak] call has returned,
    the fail-safe timer of the first session calls the callback of the
    second. *)
Theorem C2_stale_highlights_fire :
  stale_highlights 1 (after_last is_stop (history_of chrome remote_stopped_run))
  = [HighlightCalled 1 0 1; HighlightCalled 1 1 1]
  /\ stale_highlights 1 (after_last is_stop (history_of chrome local_stopped_run))
     = [HighlightCalled 1 1 1]
  /\ stale_highlights 1
       (after_last (is_return 2) (history_of chrome superseded_run))
     = [HighlightCalled 2 1 1].
Proof. vm_compute. repeat split. Qed.

(** ** Witnesses *)

Lemma C7_size_guard_witness :
  5000 < utf8_length (wrappedSSML_of long_text defaultVoice None)
  /\ synthesizeSpeech 0 (FetchRejects None) long_text defaultVoice None
                      initialSpeechState
     = Ok (mkOut (fallbackId 0) initialSpeechState []).
Proof.
  assert (H : 5000 < utf8_length (wrappedSSML_of long_text defaultVoice None))
    by (apply Nat.ltb_lt; vm_compute; reflexivity).
  split; [exact H|].
  exact (proj1 C7_size_guard 0%Z (FetchRejects None) long_text defaultVoice None
               initialSpeechState H).
Defined.

Lemma cleanReferenceText_plain_witness :
  cleanReferenceText narration = narration.
Proof.
  apply (cleanReferenceText_plain narration). vm_compute. reflexivity.
Defined.

(* ================================================================== *)
(** * Further properties of the service and of its endpoint *)

(* ------------------------------------------------------------------ *)
(** ** What the backends leave of the speech state *)

Lemma same_but_medium_refl (s : SpeechState) : same_but_medium s s.
Proof. left. reflexivity. Qed.

Lemma same_but_medium_health (s s' : SpeechState) :
  same_but_medium s s' -> health_of s' = health_of s.
Proof. intros [->|[m ->]]; reflexivity. Qed.

Lemma same_but_medium_flags (s s' : SpeechState) :
  same_but_medium s s' ->
  isPlaying s' = isPlaying s
  /\ lineNumberCallback s' = lineNumberCallback s
  /\ onFinishCallback s' = onFinishCallback s
  /\ hasError s' = hasError s.
Proof. intros [->|[m ->]]; repeat split. Qed.

Lemma arm_highlights_speech (delay : nat -> marker -> option Q) (ms : list marker)
      (index : nat) (w : world) :
  speech (fst (arm_highlights delay index ms w)) = speech w.
Proof. exact (proj1 (arm_highlights_frame delay ms index w)). Qed.

Lemma useBrowserSpeechAPI_speech (b : browser) (t : jsstring) (ms : list marker)
      (w : world) :
  same_but_medium (speech w) (speech (fst (useBrowserSpeechAPI b t ms w))).
Proof.
  unfold useBrowserSpeechAPI.
  set (w1 := if ((0 <? length ms) && is_some (lineNumberCallback (speech w)))%bool
             then _ else w).
  assert (H1 : speech w1 = speech w).
  { unfold w1. destruct ((0 <? length ms) && _)%bool; [|reflexivity].
    apply arm_highlights_speech. }
  destruct (hasSpeechSynthesis b); cbn [negb].
  - match goal with |- context [arm_highlights ?d ?i ?m ?x] =>
      pose proof (arm_highlights_speech d m i x) as A;
      destruct (arm_highlights d i m x) as [w2 timers] end.
    cbn [fst] in *. right. eexists. cbn. rewrite A. cbn. rewrite H1. reflexivity.
  - cbn [fst]. left.
    rewrite (proj2 (proj2 (call_onFinish_frame _))). cbn. exact H1.
Qed.

Lemma playSpeech_speech (b : browser) (a t : jsstring) (ms : list marker)
      (w : world) :
  same_but_medium (speech w) (speech (playSpeech b a t ms w)).
Proof.
  unfold playSpeech.
  destruct (negb (startsWith a _)); [|apply same_but_medium_refl].
  destruct (length a <? 10); [apply useBrowserSpeechAPI_speech|].
  destruct (negb (test base64Regex a)); [apply useBrowserSpeechAPI_speech|].
  destruct (atob (fix_padding a)) as [n|m]; [|apply useBrowserSpeechAPI_speech].
  destruct (n <? 100); [apply useBrowserSpeechAPI_speech|].
  match goal with |- context [arm_highlights ?d ?i ?m ?x] =>
    pose proof (arm_highlights_speech d m i x) as A;
    destruct (arm_highlights d i m x) as [w2 timers] end.
  cbn [fst] in A. right. eexists. cbn. rewrite A. reflexivity.
Qed.

(* ------------------------------------------------------------------ *)
(** ** The outcomes of the remote call *)

Lemma api_call_outcomes (now : Z) (net : network) (req : payload)
      (s : SpeechState) (out : synth_out) :
  try_catch (api_call now net req s)
    (fun m =>
       let reason :=
         match m with
         | Some message => message
         | None => lit "Unknown error in synthesizeSpeech"
         end in
       Ok (mkOut (fallbackId now) (recordFailure now reason s) [req])) = Ok out ->
  so_requests out = [req]
  /\ ((exists reason,
          so_state out = recordFailure now reason s
          /\ so_value out = fallbackId now)
      \/ (exists a,
             accepted_audio net a
             /\ so_value out = fix_padding a
             /\ so_state out = resetErrorState now s)).
Proof.
  unfold api_call.
  destruct net as [m|r]; cbn [bind try_catch].
  { intros H. injection H as <-. split; [reflexivity|]. left. eexists. split; reflexivity. }
  destruct (response_ok r) eqn:Hok; cbn [negb].
  2:{ destruct (body_text r) as [errorText|m]; cbn [bind try_catch];
      intros H; injection H as <-; (split; [reflexivity|]); left; eexists;
      split; reflexivity. }
  destruct (body_json r) as [d|m] eqn:Hj; cbn [try_catch].
  2:{ intros H; injection H as <-; (split; [reflexivity|]); left; eexists;
      split; reflexivity. }
  destruct (success d) eqn:Hsucc; cbn [andb].
  2:{ destruct (truthy_str (error d)); intros H; injection H as <-;
      (split; [reflexivity|]); left; eexists; split; reflexivity. }
  destruct (truthy_str (audio d)) eqn:Ht; cbn [andb].
  2:{ destruct (truthy_str (error d)); intros H; injection H as <-;
      (split; [reflexivity|]); left; eexists; split; reflexivity. }
  destruct (audio d) as [[|c a]|] eqn:Ha; try discriminate Ht.
  cbn [str_or_empty length Nat.ltb Nat.leb].
  destruct (test base64Regex (fix_padding (c :: a))) eqn:Hb; cbn [negb].
  2:{ intros H; injection H as <-; (split; [reflexivity|]); left; eexists;
      split; reflexivity. }
  unfold atob.
  destruct (atob_length (substring 0 100 (fix_padding (c :: a)))) eqn:Hd.
  2:{ intros H; injection H as <-; (split; [reflexivity|]); left; eexists;
      split; reflexivity. }
  intros H; injection H as <-. split; [reflexivity|]. right.
  exists (c :: a). split; [|split; reflexivity].
  exists r, d. repeat split; try assumption; try discriminate.
  rewrite Hd. discriminate.
Qed.

Lemma synthesizeSpeech_outcomes (now : Z) (net : network) (t : jsstring)
      (v : VoiceOptions) (code : option jsstring) (s : SpeechState)
      (out : synth_out) :
  synthesizeSpeech now net t v code s = Ok out ->
  (so_requests out = [] /\ so_state out = s /\ so_value out = fallbackId now
   /\ (5000 < utf8_length (wrappedSSML_of t v code)
       \/ shouldUseFallbackDirectly now s = true))
  \/ (so_requests out = [request_of t v code]
      /\ utf8_length (wrappedSSML_of t v code) <= 5000
      /\ shouldUseFallbackDirectly now s = false
      /\ ((exists reason,
              so_state out = recordFailure now reason s
              /\ so_value out = fallbackId now)
          \/ (exists a,
                 accepted_audio net a
                 /\ so_value out = fix_padding a
                 /\ so_state out = resetErrorState now s))).
Proof.
  unfold synthesizeSpeech.
  destruct (5000 <? utf8_length (wrappedSSML_of t v code)) eqn:Hbig.
  { intros H; injection H as <-. left. repeat split. left.
    apply Nat.ltb_lt. exact Hbig. }
  apply Nat.ltb_ge in Hbig.
  destruct (shouldUseFallbackDirectly now s) eqn:Hp.
  { intros H; injection H as <-. left. repeat split. right. reflexivity. }
  intros H. apply api_call_outcomes in H. destruct H as [Hr Hc].
  right. repeat split; assumption.
Qed.

(* ------------------------------------------------------------------ *)
(** ** The backend health along a run *)

Lemma health_of_resetErrorState (now : Z) (s : SpeechState) :
  health_of (resetErrorState now s)
  = (false, quotaExceededUntil s, fallbackReasonLog s, 0%Z, None).
Proof.
  unfold resetErrorState, health_of. cbn.
  destruct (fallbackMode s) eqn:E; cbn; rewrite ?E; reflexivity.
Qed.

Lemma resetErrorState_quota (now : Z) (s : SpeechState) :
  quotaExceededUntil (resetErrorState now s) = quotaExceededUntil s.
Proof. unfold resetErrorState. cbn. destruct (fallbackMode s); reflexivity. Qed.

Lemma resetErrorState_log (now : Z) (s : SpeechState) :
  fallbackReasonLog (resetErrorState now s) = fallbackReasonLog s.
Proof. unfold resetErrorState. cbn. destruct (fallbackMode s); reflexivity. Qed.

Lemma recordFailure_quota (now : Z) (reason : jsstring) (s : SpeechState) :
  quotaExceededUntil (recordFailure now reason s) = quotaExceededUntil s.
Proof.
  unfold recordFailure. cbn.
  repeat match goal with
         | |- context [if ?c then _ else _] => destruct c; cbn
         end; reflexivity.
Qed.

Lemma recordFailure_log (now : Z) (reason : jsstring) (s : SpeechState) :
  fallbackReasonLog (recordFailure now reason s)
  = if 10 <? length (fallbackReasonLog s ++ [(now, reason)])
    then tl (fallbackReasonLog s ++ [(now, reason)])
    else fallbackReasonLog s ++ [(now, reason)].
Proof.
  unfold recordFailure. cbn.
  repeat match goal with
         | |- context [if ?c then _ else _] => destruct c; cbn
         end; reflexivity.
Qed.

Lemma begin_session_health_of (onLine onFinish : option callback) (w : world) :
  health_of (speech (begin_session onLine onFinish w)) = health_of (speech w)
  /\ clock (begin_session onLine onFinish w) = clock w.
Proof.
  unfold begin_session, stop.
  destruct (currentUtterance (speech w)) as [[id|id]|]; split; reflexivity.
Qed.

Lemma fold_observe_frame (ps : list payload) :
  forall w : world,
    let w' := fold_left (fun w p => observe (Requested p) w) ps w in
    speech w' = speech w /\ clock w' = clock w /\ pending w' = pending w
    /\ audios w' = audios w /\ utterances w' = utterances w
    /\ fresh w' = fresh w /\ session w' = session w
    /\ history w' = history w ++ map Requested ps.
Proof.
  induction ps as [|p ps IH]; intros w; cbn [fold_left map].
  - rewrite app_nil_r. repeat split.
  - destruct (IH (observe (Requested p) w)) as (A & B & C & D & E & F & G & H).
    cbv zeta. rewrite A, B, C, D, E, F, G, H. cbn. rewrite <- app_assoc.
    repeat split.
Qed.

Lemma health_of_fields (s1 s2 : SpeechState) :
  health_of s1 = health_of s2 ->
  fallbackMode s1 = fallbackMode s2
  /\ quotaExceededUntil s1 = quotaExceededUntil s2
  /\ fallbackReasonLog s1 = fallbackReasonLog s2
  /\ consecutiveErrors s1 = consecutiveErrors s2
  /\ lastErrorTime s1 = lastErrorTime s2.
Proof. unfold health_of. intros H. injection H as -> -> -> -> ->. repeat split. Qed.

Lemma health_of_policy (s1 s2 : SpeechState) (now : Z) :
  health_of s1 = health_of s2 ->
  shouldUseFallbackDirectly now s1 = shouldUseFallbackDirectly now s2.
Proof.
  intros H. apply health_of_fields in H. destruct H as (A & B & _ & C & D).
  unfold shouldUseFallbackDirectly. rewrite A, B, C, D. reflexivity.
Qed.

(** What a [speak] call leaves of the backend health: it is as before, or the
    remote backend was tried and the counters are reset, with at most one
    entry more in the log. *)
Lemma speak_health (b : browser) (net : network) (t : jsstring)
      (onLine onFinish : option callback) (voice : option VoiceOptions)
      (code : option jsstring) (w : world) :
  let s := speech w in
  let s' := speech (snd (speak b net t onLine onFinish voice code w)) in
  health_of s' = health_of s
  \/ (shouldUseFallbackDirectly (clock w) s = false
      /\ exists log',
          health_of s' = (false, quotaExceededUntil s, log', 0%Z, None)
          /\ (log' = fallbackReasonLog s
              \/ exists reason,
                  log' = fallbackReasonLog (recordFailure (clock w) reason s))).
Proof.
  cbv zeta. unfold speak.
  destruct (begin_session_health_of onLine onFinish w) as [Hh Hc].
  pose proof (health_of_policy _ _ (clock w) Hh) as Hpol.
  destruct (health_of_fields _ _ Hh) as (_ & Hq0 & Hl0 & _).
  set (w0 := begin_session onLine onFinish w) in *.
  destruct (blank t).
  { left. cbn [snd]. rewrite (proj2 (proj2 (call_onFinish_frame _))). exact Hh. }
  rewrite Hc.
  destruct (shouldUseFallbackDirectly (clock w) (speech w0)) eqn:Hp.
  { left. unfold speak_local. cbn [snd].
    rewrite (same_but_medium_health _ _ (useBrowserSpeechAPI_speech _ _ _ _)).
    exact Hh. }
  right. split; [symmetry; exact Hpol|].
  unfold speak_remote. rewrite Hc.
  match goal with |- context [synthesizeSpeech ?n ?x ?y ?v ?c ?s] =>
    destruct (synthesizeSpeech_returns n x y v c s) as (out & E & _); rewrite E;
    pose proof (synthesizeSpeech_outcomes _ _ _ _ _ _ _ E) as Hout end.
  cbn [snd].
  match goal with |- context [fold_left ?f ?ps ?x] =>
    destruct (fold_observe_frame ps x) as (A & _); cbv zeta in A;
    set (w1 := fold_left f ps x) in * end.
  cbn [with_speech speech] in A.
  set (w2 := if startsWith (so_value out) (lit "tts-fallback-") then _ else _).
  assert (H2 : health_of (speech w2) = health_of (so_state out)).
  { unfold w2. destruct (startsWith _ _).
    - rewrite (same_but_medium_health _ _ (useBrowserSpeechAPI_speech _ _ _ _)).
      rewrite A. reflexivity.
    - rewrite (same_but_medium_health _ _ (playSpeech_speech _ _ _ _ _)).
      rewrite A. reflexivity. }
  destruct (health_of_fields _ _ H2) as (_ & Hq & Hl & _).
  cbn [with_speech speech]. rewrite health_of_resetErrorState, Hq, Hl.
  destruct Hout as [(_ & Hs & _)|(_ & _ & _ & [(reason & Hs & _)|(a & _ & _ & Hs)])];
    rewrite Hs.
  - exists (fallbackReasonLog (speech w)). rewrite Hq0, Hl0.
    split; [reflexivity|]. left. reflexivity.
  - exists (fallbackReasonLog (recordFailure (clock w) reason (speech w))).
    rewrite recordFailure_quota, Hq0, !recordFailure_log, Hl0.
    split; [reflexivity|]. right. exists reason. rewrite recordFailure_log.
    reflexivity.
  - exists (fallbackReasonLog (speech w)).
    rewrite resetErrorState_quota, resetErrorState_log, Hq0, Hl0.
    split; [reflexivity|]. left. reflexivity.
Qed.

Lemma fire_speech (tm : timer) (w : world) : speech (fire tm w) = speech w.
Proof.
  unfold fire, call_lineNumber, call_onFinish.
  destruct (t_action tm); [destruct (lineNumberCallback _)|destruct (onFinishCallback _)];
    reflexivity.
Qed.

Lemma run_timers_speech (fuel : nat) (t : Z) :
  forall w, speech (run_timers fuel t w) = speech w.
Proof.
  induction fuel as [|f IH]; intros w; cbn [run_timers]; [reflexivity|].
  destruct (next_due t None (pending w)) as [tm|]; [|reflexivity].
  rewrite IH, fire_speech. reflexivity.
Qed.

Lemma audio_error_speech (b : browser) (a : audio_el) (w : world) :
  health_of (speech (audio_error b a w)) = health_of (speech w).
Proof.
  unfold audio_error.
  pose proof (useBrowserSpeechAPI_speech b (a_text a) (a_markers a) w) as H1.
  destruct (useBrowserSpeechAPI b (a_text a) (a_markers a) w) as [w1 markers].
  cbn [fst] in H1.
  rewrite (same_but_medium_health _ _ (useBrowserSpeechAPI_speech _ _ _ _)).
  cbn. apply same_but_medium_health in H1.
  destruct (health_of_fields _ _ H1) as (A & B & C & D & E).
  unfold health_of. cbn. rewrite A, B, C, D, E. reflexivity.
Qed.

(** One event leaves the backend health as it is, or it is a [speak] call that
    tried the remote backend, and the counters are reset. *)
Lemma step_health (b : browser) (e : event) (w w' : world) :
  step b e w = Some w' ->
  let s := speech w in
  health_of (speech w') = health_of s
  \/ (shouldUseFallbackDirectly (clock w) s = false
      /\ exists log',
          health_of (speech w') = (false, quotaExceededUntil s, log', 0%Z, None)
          /\ (log' = fallbackReasonLog s
              \/ exists reason,
                  log' = fallbackReasonLog (recordFailure (clock w) reason s))).
Proof.
  destruct e as [net t onLine onFinish voice code| |t|id|id|id|id|id|id|id];
    cbn [step]; cbv zeta.
  - pose proof (speak_health b net t onLine onFinish voice code
                  (observe (SpeakCalled (S (session w))) (with_session (S (session w)) w)))
      as H.
    destruct (speak b net t onLine onFinish voice code _) as [r w1].
    cbn [snd] in H. cbv zeta in H. intros E. injection E as <-. exact H.
  - intros E. injection E as <-. left. unfold stop.
    destruct (currentUtterance (speech w)) as [[id|id]|]; reflexivity.
  - destruct (clock w <=? t)%Z; [|discriminate]. intros E. injection E as <-.
    left. unfold advance. cbn [with_clock speech]. rewrite run_timers_speech.
    reflexivity.
  - destruct (find_utterance id w); [|discriminate]. intros E. injection E as <-.
    left. reflexivity.
  - destruct (find_utterance id w) as [u|]; [|discriminate].
    intros E. injection E as <-. left. unfold utterance_onend.
    rewrite (proj2 (proj2 (call_onFinish_frame _))). reflexivity.
  - destruct (find_utterance id w); [|discriminate]. intros E. injection E as <-.
    left. reflexivity.
  - destruct (find_audio id w); [|discriminate]. intros E. injection E as <-.
    left. reflexivity.
  - destruct (find_audio id w) as [a|]; [|discriminate].
    intros E. injection E as <-. left. unfold audio_onended.
    rewrite (proj2 (proj2 (call_onFinish_frame _))). reflexivity.
  - destruct (find_audio id w) as [a|]; [|discriminate].
    intros E. injection E as <-. left. apply audio_error_speech.
  - destruct (find_audio id w) as [a|]; [|discriminate].
    intros E. injection E as <-. left. unfold audio_play_rejected.
    rewrite (same_but_medium_health _ _ (useBrowserSpeechAPI_speech _ _ _ _)).
    reflexivity.
Qed.

(** The quota time stamp, which the second rule of the policy reads, is
    written by no event: it is for ever what it was. *)
Theorem quotaExceededUntil_never_written (b : browser) (es : list event) :
  forall w w' : world,
    run b es w = Some w' ->
    quotaExceededUntil (speech w') = quotaExceededUntil (speech w).
Proof.
  induction es as [|e es IH]; intros w w'; cbn [run].
  - intros E. injection E as <-. reflexivity.
  - destruct (step b e w) as [w1|] eqn:Hs; [|discriminate].
    intros E. rewrite (IH _ _ E).
    destruct (step_health _ _ _ _ Hs) as [H|(_ & log' & H & _)].
    + apply health_of_fields in H. tauto.
    + unfold health_of in H. injection H as _ -> _ _ _. reflexivity.
Qed.

Lemma quotaExceededUntil_never_written_witness :
  exists w',
    run chrome four_failures initialWorld = Some w'
    /\ quotaExceededUntil (speech w') = quotaExceededUntil (speech initialWorld).
Proof.
  destruct (run chrome four_failures initialWorld) as [w'|] eqn:E;
    [|vm_compute in E; discriminate].
  exists w'. split; [reflexivity|].
  exact (quotaExceededUntil_never_written chrome four_failures initialWorld w' E).
Defined.

Lemma healthy_policy (s : SpeechState) (now : Z) :
  healthy s -> shouldUseFallbackDirectly now s = false.
Proof.
  intros (A & B & C & D). unfold shouldUseFallbackDirectly.
  rewrite A, B, C, D. reflexivity.
Qed.

(** From a state without failures on record, every run of the page ends in
    such a state: [speak] resets the counters after the remote attempt, failed
    or not, so the policy never chooses the local backend at the start of a
    call. *)
Theorem health_restored_by_every_call (b : browser) (es : list event) :
  forall w w' : world,
    healthy (speech w) ->
    run b es w = Some w' ->
    healthy (speech w')
    /\ forall now, shouldUseFallbackDirectly now (speech w') = false.
Proof.
  assert (Hrun : forall w w', healthy (speech w) -> run b es w = Some w' ->
                              healthy (speech w')).
  { induction es as [|e es IH]; intros w w' Hw; cbn [run].
    - intros E. injection E as <-. exact Hw.
    - destruct (step b e w) as [w1|] eqn:Hs; [|discriminate].
      apply IH. destruct Hw as (A & B & C & D).
      destruct (step_health _ _ _ _ Hs) as [H|(_ & log' & H & _)].
      + apply health_of_fields in H. destruct H as (A1 & B1 & _ & C1 & D1).
        unfold healthy. rewrite A1, B1, C1, D1. repeat split; assumption.
      + unfold health_of in H. injection H as E1 E2 _ E3 E4.
        unfold healthy. rewrite E1, E2, E3, E4. repeat split. exact B. }
  intros w w' Hw E. pose proof (Hrun w w' Hw E) as H.
  split; [exact H|]. intros now. apply healthy_policy. exact H.
Qed.

Lemma health_restored_by_every_call_witness :
  healthy (speech initialWorld)
  /\ exists w',
      run chrome four_failures initialWorld = Some w'
      /\ healthy (speech w')
      /\ forall now, shouldUseFallbackDirectly now (speech w') = false.
Proof.
  assert (H0 : healthy (speech initialWorld)) by (repeat split).
  split; [exact H0|].
  destruct (run chrome four_failures initialWorld) as [w'|] eqn:E;
    [|vm_compute in E; discriminate].
  exists w'. split; [reflexivity|].
  exact (health_restored_by_every_call chrome four_failures initialWorld w' H0 E).
Defined.

Lemma recordFailure_log_length (now : Z) (reason : jsstring) (s : SpeechState) :
  length (fallbackReasonLog s) <= 10 ->
  length (fallbackReasonLog (recordFailure now reason s)) <= 10.
Proof.
  intros H. rewrite recordFailure_log.
  destruct (10 <? length (fallbackReasonLog s ++ [(now, reason)])) eqn:E.
  - destruct (fallbackReasonLog s) as [|x l]; cbn [app tl length] in *.
    + lia.
    + rewrite length_app. cbn [length]. lia.
  - apply Nat.ltb_ge in E. exact E.
Qed.

(** The log of fallback reasons holds at most ten entries, whatever happens
    to the page: a failure that would make it longer drops the oldest one. *)
Theorem reason_log_never_exceeds_ten (b : browser) (es : list event) :
  forall w w' : world,
    length (fallbackReasonLog (speech w)) <= 10 ->
    run b es w = Some w' ->
    length (fallbackReasonLog (speech w')) <= 10.
Proof.
  induction es as [|e es IH]; intros w w' Hw; cbn [run].
  - intros E. injection E as <-. exact Hw.
  - destruct (step b e w) as [w1|] eqn:Hs; [|discriminate].
    apply IH.
    destruct (step_health _ _ _ _ Hs) as [H|(_ & log' & H & Hl)].
    + apply health_of_fields in H. destruct H as (_ & _ & -> & _). exact Hw.
    + unfold health_of in H. injection H as _ _ -> _ _.
      destruct Hl as [->|[reason ->]]; [exact Hw|].
      apply recordFailure_log_length. exact Hw.
Qed.

Lemma reason_log_never_exceeds_ten_witness :
  length (fallbackReasonLog (speech initialWorld)) <= 10
  /\ exists w',
      run chrome four_failures initialWorld = Some w'
      /\ length (fallbackReasonLog (speech w')) <= 10.
Proof.
  split; [apply Nat.le_0_l|].
  destruct (run chrome four_failures initialWorld) as [w'|] eqn:E;
    [|vm_compute in E; discriminate].
  exists w'. split; [reflexivity|].
  exact (reason_log_never_exceeds_ten chrome four_failures initialWorld w'
           (Nat.le_0_l 10) E).
Defined.

(** The cooldown: after the first failure on record, at clock value [now],
    the policy chooses the local backend exactly while less than thirty
    seconds have passed. *)
Theorem cooldown_after_first_failure (now later : Z) (reason : jsstring)
      (s : SpeechState) :
  healthy s -> now <> 0%Z ->
  shouldUseFallbackDirectly later (recordFailure now reason s)
  = (later - now <? 30000)%Z.
Proof.
  intros (A & B & C & D) Hnow.
  destruct (recordFailure_fields now reason s) as (Hc & Hl & Hf).
  unfold shouldUseFallbackDirectly.
  rewrite Hf, Hc, Hl, recordFailure_quota, A, B, C. cbn.
  destruct (Z.eqb_spec now 0); [contradiction|]. cbn.
  destruct (later - now <? 30000)%Z; reflexivity.
Qed.

Lemma cooldown_after_first_failure_witness :
  shouldUseFallbackDirectly 30999 (recordFailure 1000 (lit "API error") initialSpeechState)
  = true
  /\ shouldUseFallbackDirectly 31000 (recordFailure 1000 (lit "API error") initialSpeechState)
     = false.
Proof.
  assert (H0 : healthy initialSpeechState) by (repeat split).
  assert (H1 : 1000%Z <> 0%Z) by discriminate.
  split.
  - exact (cooldown_after_first_failure 1000 30999 (lit "API error")
             initialSpeechState H0 H1).
  - exact (cooldown_after_first_failure 1000 31000 (lit "API error")
             initialSpeechState H0 H1).
Defined.

(* ------------------------------------------------------------------ *)
(** ** [stop] and the start of a call *)

Lemma stop_cancels_no_timer_facts (w : world) :
  pending (stop w) = pending w
  /\ lineNumberCallback (speech (stop w)) = lineNumberCallback (speech w)
  /\ onFinishCallback (speech (stop w)) = onFinishCallback (speech w).
Proof.
  unfold stop. destruct (currentUtterance (speech w)) as [[id|id]|];
    repeat split.
Qed.

(** [stop] pauses the current audio element or cancels the speech synthesis
    (nothing when no medium is current), clears [currentUtterance] and
    [isPlaying], and that is all it does: the other fields of the speech
    state, with both callbacks and the health record, every pending timer,
    the audio elements, the utterances and the clock stay as they are.
    Afterwards [isSpeaking()] is false, and a second [stop] in a row does
    nothing. *)
Theorem stop_cancels_no_timer (w : world) :
  history (stop w)
  = history w ++ match currentUtterance (speech w) with
                 | Some (AudioElement id) => [AudioPause id]
                 | Some (Utterance _) => [SynthCancel]
                 | None => []
                 end
  /\ speech (stop w)
     = set_isPlaying false (set_currentUtterance None (speech w))
  /\ pending (stop w) = pending w
  /\ audios (stop w) = audios w
  /\ utterances (stop w) = utterances w
  /\ clock (stop w) = clock w
  /\ fresh (stop w) = fresh w
  /\ session (stop w) = session w
  /\ lineNumberCallback (speech (stop w)) = lineNumberCallback (speech w)
  /\ onFinishCallback (speech (stop w)) = onFinishCallback (speech w)
  /\ health_of (speech (stop w)) = health_of (speech w)
  /\ currentUtterance (speech (stop w)) = None
  /\ isSpeaking (stop w) = false
  /\ stop (stop w) = stop w.
Proof.
  unfold stop, isSpeaking, health_of.
  destruct w as [s c p a u f n h]. destruct s. cbn.
  match goal with
  | |- context [match ?x with Some _ => _ | None => _ end] =>
      destruct x as [[id|id]|]
  end; cbn; rewrite ?app_nil_r; repeat split.
Qed.

Lemma call_onFinish_pending (w : world) :
  pending (call_onFinish w) = pending w
  /\ utterances (call_onFinish w) = utterances w
  /\ history (call_onFinish w)
     = history w ++ match onFinishCallback (speech w) with
                    | Some cb => [FinishCalled cb]
                    | None => []
                    end.
Proof.
  unfold call_onFinish. destruct (onFinishCallback (speech w)); cbn;
    rewrite ?app_nil_r; repeat split.
Qed.

(** A call with an empty or blank text stops the previous session, calls the
    new finish callback at once, and does nothing else: no timer is armed, no
    medium is made and nothing is sent. *)
Theorem speak_blank_finishes_at_once
      (b : browser) (net : network) (t : jsstring)
      (onLine onFinish : option callback) (voice : option VoiceOptions)
      (code : option jsstring) (w : world) :
  blank t = true ->
  let w' := snd (speak b net t onLine onFinish voice code w) in
  history w' = history (stop w) ++ match onFinish with
                                   | Some cb => [FinishCalled cb]
                                   | None => []
                                   end
  /\ pending w' = pending w
  /\ audios w' = audios w
  /\ utterances w' = utterances w
  /\ currentUtterance (speech w') = None.
Proof.
  intros Hb. cbv zeta. unfold speak. rewrite Hb. cbn [snd].
  destruct (call_onFinish_pending (begin_session onLine onFinish w)) as (A & B & C).
  destruct (call_onFinish_frame (begin_session onLine onFinish w)) as (D & _ & E).
  rewrite A, B, C, D, E.
  unfold begin_session, stop.
  destruct w as [s c p a u f n h]. cbn.
  destruct (currentUtterance s) as [[id|id]|]; cbn; repeat split.
Qed.

Lemma speak_blank_finishes_at_once_witness :
  history (snd (speak chrome (FetchRejects None) (lit "  ") (Some 1) (Some 1)
                      None None initialWorld))
  = [FinishCalled 1].
Proof.
  assert (Hb : blank (lit "  ") = true) by reflexivity.
  exact (proj1 (speak_blank_finishes_at_once chrome (FetchRejects None) (lit "  ")
                  (Some 1) (Some 1) None None initialWorld Hb)).
Defined.

Lemma recordFailure_isPlaying (now : Z) (reason : jsstring) (s : SpeechState) :
  isPlaying (recordFailure now reason s) = isPlaying s.
Proof.
  unfold recordFailure. cbn.
  repeat match goal with
         | |- context [if ?c then _ else _] => destruct c; cbn
         end; reflexivity.
Qed.

Lemma resetErrorState_isPlaying (now : Z) (s : SpeechState) :
  isPlaying (resetErrorState now s) = isPlaying s.
Proof. unfold resetErrorState. cbn. destruct (fallbackMode s); reflexivity. Qed.

Lemma begin_session_isPlaying (onLine onFinish : option callback) (w : world) :
  isPlaying (speech (begin_session onLine onFinish w)) = false.
Proof.
  unfold begin_session, stop.
  destruct (currentUtterance (speech w)) as [[id|id]|]; reflexivity.
Qed.

(* ------------------------------------------------------------------ *)
(** ** SSML conversion *)

Lemma trim_between (c d : char) (s : jsstring) :
  is_space c = false -> is_space d = false ->
  trim (c :: s ++ [d]) = c :: s ++ [d].
Proof.
  intros Hc Hd. unfold trim. cbn [drop_while]. rewrite Hc.
  change (c :: s ++ [d]) with ((c :: s) ++ [d]).
  rewrite rev_app_distr. cbn [rev app drop_while]. rewrite Hd.
  change (d :: rev s ++ [c]) with (rev [d] ++ rev (c :: s)).
  rewrite <- rev_app_distr, rev_involutive. reflexivity.
Qed.

Lemma textToSSML_trimmed (t : jsstring) (v : VoiceOptions) (f : bool) :
  startsWith (trim (textToSSML t v f)) (lit "<speak>") = true.
Proof.
  unfold textToSSML. cbv zeta.
  match goal with
  | |- context [lit "<speak><prosody rate=" ++ ?q1 ++ ?r ++ ?q2 ++ ?g ++ ?x ++ ?e] =>
      set (body := x)
  end.
  replace (lit "<speak><prosody rate=" ++ [dquote] ++ lit "0.95" ++ [dquote]
           ++ lit ">" ++ body ++ lit "</prosody></speak>")
    with (60%N :: (lit "speak><prosody rate=" ++ [dquote] ++ lit "0.95" ++ [dquote]
                   ++ lit ">" ++ body ++ lit "</prosody></speak") ++ [62%N]).
  2:{ rewrite <- ?app_assoc. cbn. rewrite <- ?app_assoc. reflexivity. }
  rewrite trim_between by reflexivity. reflexivity.
Qed.

Lemma wrappedSSML_of_no_code (t : jsstring) (v : VoiceOptions) :
  wrappedSSML_of t v None = textToSSML t v false.
Proof.
  unfold wrappedSSML_of. cbn [nonempty_code]. cbv zeta.
  rewrite textToSSML_trimmed. reflexivity.
Qed.

Lemma playSpeech_requests (b : browser) (a t : jsstring) (ms : list marker)
      (w : world) :
  requests_of (history (playSpeech b a t ms w)) = requests_of (history w).
Proof.
  unfold playSpeech.
  destruct (negb (startsWith a _)); [|reflexivity].
  destruct (length a <? 10);
    [exact (proj1 (proj2 (useBrowserSpeechAPI_frame b t ms w)))|].
  destruct (negb (test base64Regex a));
    [exact (proj1 (proj2 (useBrowserSpeechAPI_frame b t ms w)))|].
  destruct (atob (fix_padding a)) as [n|m];
    [|exact (proj1 (proj2 (useBrowserSpeechAPI_frame b t ms w)))].
  destruct (n <? 100);
    [exact (proj1 (proj2 (useBrowserSpeechAPI_frame b t ms w)))|].
  match goal with |- context [arm_highlights ?d ?i ?m ?x] =>
    destruct (arm_highlights_frame d m i x) as (_ & _ & _ & _ & C & _);
    destruct (arm_highlights d i m x) as [w2 timers] end.
  cbn in *. rewrite requests_of_app, C. cbn. apply app_nil_r.
Qed.

Lemma requests_of_map_Requested (ps : list payload) :
  requests_of (map Requested ps) = ps.
Proof. induction ps as [|p ps IH]; cbn; [reflexivity|]. f_equal. exact IH. Qed.

(** A call that starts with the remote backend sends exactly one request,
    whatever the network answers: the document is the output of [textToSSML]
    for the text as given, with the line markers kept, marked as SSML, with
    the language, the name and the gender of the voice. *)
Theorem speak_sends_one_request
      (b : browser) (net : network) (t : jsstring)
      (onLine onFinish : option callback) (voice : option VoiceOptions)
      (code : option jsstring) (w : world) :
  let v := match voice with Some v => v | None => defaultVoice end in
  blank t = false ->
  shouldUseFallbackDirectly (clock w) (speech w) = false ->
  utf8_length (textToSSML t v false) <= 5000 ->
  requests_of (history (snd (speak b net t onLine onFinish voice code w)))
  = requests_of (history w)
    ++ [mkPayload (textToSSML t v false) true (languageCode v) (name v)
                  (ssmlGender v)].
Proof.
  intros v Hb Hp Hsize. unfold speak. rewrite Hb.
  destruct (begin_session_health_of onLine onFinish w) as [Hh Hc].
  destruct (begin_session_frame onLine onFinish w) as [Hr _].
  rewrite (health_of_policy _ _ _ Hh), Hc, Hp.
  unfold speak_remote. rewrite Hc.
  match goal with |- context [synthesizeSpeech ?n ?x ?y ?v ?c ?s] =>
    destruct (synthesizeSpeech_returns n x y v c s) as (out & E & _); rewrite E;
    pose proof (synthesizeSpeech_outcomes _ _ _ _ _ _ _ E) as Hout end.
  fold v in Hout.
  rewrite wrappedSSML_of_no_code in Hout.
  rewrite (health_of_policy _ _ _ Hh), Hp in Hout.
  destruct Hout as [(_ & _ & _ & [Hbig|Habs])|(Hreq & _)];
    [lia | discriminate |].
  cbn [snd].
  match goal with |- context [fold_left ?f ?ps ?x] =>
    destruct (fold_observe_frame ps x) as (_ & _ & _ & _ & _ & _ & _ & Hh1);
    cbv zeta in Hh1; set (w1 := fold_left f ps x) in * end.
  cbn [with_speech history].
  assert (H1 : requests_of (history w1)
               = requests_of (history w) ++ [request_of t v None]).
  { rewrite Hh1. cbn [with_speech history].
    rewrite requests_of_app, requests_of_map_Requested, Hr, Hreq. reflexivity. }
  unfold request_of in H1. rewrite wrappedSSML_of_no_code in H1.
  destruct (startsWith _ _).
  - rewrite (proj1 (proj2 (useBrowserSpeechAPI_frame _ _ _ _))). exact H1.
  - rewrite playSpeech_requests. exact H1.
Qed.

Lemma speak_sends_one_request_witness :
  requests_of
    (history (snd (speak chrome (FetchRejects None) marked_text (Some 1) (Some 1)
                         None None initialWorld)))
  = [mkPayload (textToSSML marked_text defaultVoice false) true (lit "en-US")
               (lit "en-US-Neural2-D") MALE].
Proof.
  assert (Hb : blank marked_text = false) by reflexivity.
  assert (Hp : shouldUseFallbackDirectly (clock initialWorld) (speech initialWorld)
               = false) by reflexivity.
  assert (Hs : utf8_length (textToSSML marked_text defaultVoice false) <= 5000)
    by (apply Nat.leb_le; vm_compute; reflexivity).
  exact (speak_sends_one_request chrome (FetchRejects None) marked_text
           (Some 1) (Some 1) None None initialWorld Hb Hp Hs).
Defined.

(** *** Matches that need a code unit the text does not have *)

Lemma without_tail (a c : char) (s : jsstring) :
  without a (c :: s) = true -> c <> a /\ without a s = true.
Proof.
  unfold without. cbn [forallb]. intros H. apply andb_prop in H.
  destruct H as [H1 H2]. split; [|exact H2].
  intros ->. rewrite N.eqb_refl in H1. discriminate.
Qed.

(** The matcher only moves forward: a continuation that fails wherever [a]
    does not occur ahead makes the match fail there too. *)
Lemma rmatch_forward (a : char) (r : regex) :
  forall (k : cont) (st : mstate),
    without a (ms_rest st) = true ->
    (forall st', without a (ms_rest st') = true -> k st' = None) ->
    rmatch r k st = None.
Proof.
  induction r as [|p|r1 IH1 r2 IH2|r1 IH1 r2 IH2|r1 IH1|n r1 IH1| | |];
    intros k st Hst Hk; cbn [rmatch].
  - apply Hk. exact Hst.
  - destruct (ms_rest st) as [|c s] eqn:E; [reflexivity|].
    destruct (p c); [|reflexivity]. apply Hk. cbn [ms_rest].
    apply (without_tail a c s). exact Hst.
  - apply IH1; [exact Hst|]. intros st' Hst'. apply IH2; assumption.
  - rewrite IH1 by assumption. apply IH2; assumption.
  - generalize (S (length (ms_rest st))). intros fuel. revert st Hst.
    induction fuel as [|f IHf]; intros st Hst; cbn [star_loop].
    + apply Hk. exact Hst.
    + rewrite IH1; [apply Hk; exact Hst | exact Hst |].
      intros st' Hst'. destruct (length (ms_rest st') <? length (ms_rest st));
        [|reflexivity].
      apply IHf. exact Hst'.
  - apply IH1; [exact Hst|]. intros st' Hst'. apply Hk. exact Hst'.
  - destruct (ms_before st); [apply Hk; exact Hst | reflexivity].
  - destruct (ms_rest st) eqn:E; [apply Hk; rewrite E; exact Hst | reflexivity].
  - destruct (xorb _ _); [apply Hk; exact Hst | reflexivity].
Qed.

Lemma needs_miss (a : char) (r : regex) :
  needs a r ->
  forall (k : cont) (st : mstate),
    without a (ms_rest st) = true -> rmatch r k st = None.
Proof.
  induction r as [|p|r1 IH1 r2 IH2|r1 IH1 r2 IH2|r1 IH1|n r1 IH1| | |];
    cbn [needs]; try contradiction.
  - intros Hp k st Hst. cbn [rmatch].
    destruct (ms_rest st) as [|c s] eqn:E; [reflexivity|].
    destruct (p c) eqn:Hc; [|reflexivity].
    apply Hp in Hc. destruct (without_tail a c s Hst) as [Hn _]. contradiction.
  - intros [H|H] k st Hst; cbn [rmatch].
    + apply IH1; assumption.
    + apply (rmatch_forward a); [exact Hst|].
      intros st' Hst'. apply IH2; assumption.
  - intros [H1 H2] k st Hst. cbn [rmatch].
    rewrite IH1 by assumption. apply IH2; assumption.
  - intros H k st Hst. cbn [rmatch]. apply IH1; assumption.
Qed.

Lemma replace_from_needs (a : char) (r : regex) (f : rmatchres -> jsstring)
      (s : jsstring) :
  needs a r -> without a s = true ->
  forall bef, replace_from r f 0 bef s = s.
Proof.
  intros Hr. induction s as [|c s IH]; intros Hs bef.
  - cbn [replace_from]. unfold exec_at.
    rewrite (needs_miss a r Hr); [reflexivity|exact Hs].
  - cbn [replace_from]. unfold exec_at.
    rewrite (needs_miss a r Hr); [|exact Hs].
    rewrite IH; [reflexivity|]. apply (without_tail a c s Hs).
Qed.

(** *** Replacing single code units *)

Lemma replace_class (p : char -> bool) (by_ : jsstring) (s : jsstring) :
  forall bef,
    replace_from (Cls p) (fun _ => by_) 0 bef s
    = flat_map (fun c => if p c then by_ else [c]) s.
Proof.
  induction s as [|c s IH]; intros bef.
  - reflexivity.
  - cbn [replace_from flat_map]. rewrite exec_at_class.
    destruct (p c); cbn [mr_text length]; rewrite IH; reflexivity.
Qed.

Lemma without_flat_map (a : char) (g : char -> jsstring) (s : jsstring) :
  (forall c, c <> a -> without a (g c) = true) ->
  without a s = true -> without a (flat_map g s) = true.
Proof.
  intros Hg. induction s as [|c s IH]; intros Hs; [reflexivity|].
  destruct (without_tail a c s Hs) as [Hc Hs'].
  cbn [flat_map]. unfold without. rewrite forallb_app.
  apply andb_true_intro. split; [apply Hg; exact Hc | apply IH; exact Hs'].
Qed.

Lemma needs_lineMarkerRegex : needs 92%N lineMarkerRegex.
Proof.
  assert (Hb : needs 92%N bslash).
  { unfold bslash, Chr. cbn [needs]. intros c Hc. apply N.eqb_eq in Hc.
    symmetry. exact Hc. }
  unfold lineMarkerRegex. cbn [needs seqs]. split.
  - left. exact Hb.
  - right. right. right. left. exact Hb.
Qed.

Lemma replace_with_class (p : char -> bool) (by_ s : jsstring) :
  replace_with (Cls p) by_ s = flat_map (fun c => if p c then by_ else [c]) s.
Proof. unfold replace_with, replace_all. apply replace_class. Qed.

Lemma escapedText_of_entities (t : jsstring) :
  escapedText_of t = flat_map xml_entity t.
Proof.
  unfold escapedText_of, Chr. cbv zeta. rewrite !replace_with_class.
  induction t as [|c t IH]; [reflexivity|].
  cbn [flat_map]. rewrite !flat_map_app, IH. f_equal.
  unfold xml_entity, dquote.
  change (chr "&") with 38%N. change (chr "<") with 60%N.
  change (chr ">") with 62%N. change (chr "'") with 39%N.
  rewrite (N.eqb_sym c 38), (N.eqb_sym c 60), (N.eqb_sym c 62),
    (N.eqb_sym c 34), (N.eqb_sym c 39).
  cbv beta.
  destruct (N.eqb_spec 38 c) as [<-|H1]; [reflexivity|].
  cbn [flat_map app]. rewrite !app_nil_r.
  destruct (N.eqb_spec 60 c) as [<-|H2]; [reflexivity|].
  cbn [flat_map app]. rewrite !app_nil_r.
  destruct (N.eqb_spec 62 c) as [<-|H3]; [reflexivity|].
  cbn [flat_map app]. rewrite !app_nil_r.
  destruct (N.eqb_spec 34 c) as [<-|H4]; [reflexivity|].
  cbn [flat_map app]. rewrite !app_nil_r.
  destruct (N.eqb_spec 39 c) as [<-|H5]; reflexivity.
Qed.

Lemma xml_entity_plain (c : char) :
  forallb (fun x => negb (xml_special x)) (xml_entity c) = true.
Proof.
  unfold xml_entity.
  destruct (N.eqb_spec c 38); [reflexivity|].
  destruct (N.eqb_spec c 60); [reflexivity|].
  destruct (N.eqb_spec c 62); [reflexivity|].
  destruct (N.eqb_spec c 34); [reflexivity|].
  destruct (N.eqb_spec c 39); [reflexivity|].
  cbn [forallb]. rewrite andb_true_r. unfold xml_special, char_in.
  cbn [existsb].
  rewrite (proj2 (N.eqb_neq c 60)), (proj2 (N.eqb_neq c 62)),
    (proj2 (N.eqb_neq c 34)), (proj2 (N.eqb_neq c 39)) by assumption.
  reflexivity.
Qed.

Lemma xml_entity_keeps_out (a c : char) :
  N.eqb a 38%N = false -> is_word a = false -> N.eqb a 59%N = false ->
  c <> a -> without a (xml_entity c) = true.
Proof.
  intros Ha Hw Hs Hc. unfold xml_entity.
  assert (Hone : without a [c] = true).
  { unfold without. cbn. rewrite (proj2 (N.eqb_neq c a) Hc). reflexivity. }
  assert (Hent : forall e, forallb (fun x => (N.eqb x 38 || is_word x || N.eqb x 59)%bool) e = true ->
                           without a e = true).
  { intros e He. unfold without. induction e as [|x e IH]; [reflexivity|].
    cbn [forallb] in *. apply andb_prop in He. destruct He as [Hx He].
    rewrite IH by exact He. rewrite andb_true_r.
    destruct (N.eqb_spec x a) as [->|]; [|reflexivity].
    rewrite Ha, Hw, Hs in Hx. discriminate. }
  repeat match goal with
         | |- context [if ?b then _ else _] => destruct b
         end; try (apply Hent; reflexivity). exact Hone.
Qed.

(** The escaping of [textToSSML] is one pass over the text: each of the five
    special characters of XML becomes its entity, an ampersand that an
    earlier replacement wrote is not escaped again, and no [<], [>] or quote
    is left. *)
Theorem escaping_is_one_pass (t : jsstring) (v : VoiceOptions) :
  textToSSML t v false = ssml_of_escaped (escapedText_of t)
  /\ escapedText_of t = flat_map xml_entity t
  /\ forallb (fun c => negb (xml_special c)) (escapedText_of t) = true.
Proof.
  split; [reflexivity|]. split; [apply escapedText_of_entities|].
  rewrite escapedText_of_entities.
  induction t as [|c t IH]; [reflexivity|].
  cbn [flat_map]. rewrite forallb_app, IH, xml_entity_plain. reflexivity.
Qed.

(** The pattern that [textToSSML] removes line markers with is written with
    doubled backslashes, so each of its matches holds a backslash: on a text
    without one, asking for the removal changes nothing and the markers stay
    in the document. *)
Theorem line_markers_stay_in_ssml (t : jsstring) (v : VoiceOptions) :
  without 92%N t = true ->
  textToSSML t v true = textToSSML t v false.
Proof.
  intros Ht. unfold textToSSML. cbv zeta. cbn [negb].
  change (replace_with (Chr "'") (lit "&apos;")
            (replace_with (Cls (N.eqb dquote)) (lit "&quot;")
               (replace_with (Chr ">") (lit "&gt;")
                  (replace_with (Chr "<") (lit "&lt;")
                     (replace_with (Chr "&") (lit "&amp;") t)))))
    with (escapedText_of t).
  assert (He : without 92%N (escapedText_of t) = true).
  { rewrite escapedText_of_entities. apply without_flat_map; [|exact Ht].
    intros c Hc. apply xml_entity_keeps_out; [reflexivity..|exact Hc]. }
  unfold replace_with at 6. unfold replace_all.
  rewrite (replace_from_needs 92%N lineMarkerRegex _ _ needs_lineMarkerRegex He).
  reflexivity.
Qed.

Lemma line_markers_stay_in_ssml_witness :
  textToSSML marked_text defaultVoice true
  = textToSSML marked_text defaultVoice false.
Proof.
  assert (H : without 92%N marked_text = true) by reflexivity.
  exact (line_markers_stay_in_ssml marked_text defaultVoice H).
Defined.

(* ------------------------------------------------------------------ *)
(** ** Markers and the code they point into *)

Lemma look_ahead_range (codeLines : list jsstring) (n maxLine : Z) (fuel : nat) :
  forall i : Z,
    (0 <= i)%Z ->
    let ln := look_ahead codeLines n maxLine i fuel n in
    (n <= ln)%Z /\ (ln <= Z.max n maxLine)%Z.
Proof.
  induction fuel as [|f IH]; intros i Hi; cbn [look_ahead]; cbv zeta.
  - lia.
  - destruct (maxLine <? n + i)%Z eqn:E; [lia|].
    apply Z.ltb_ge in E.
    destruct (meaningful _); [lia|].
    apply IH. lia.
Qed.

Lemma validate_marker_range (codeLines : list jsstring) (mk : marker) :
  1 <= length codeLines ->
  (0 <= lineNumber (validate_marker codeLines mk) < Z.of_nat (length codeLines))%Z
  /\ text (validate_marker codeLines mk) = text mk.
Proof.
  intros Hlen. unfold validate_marker. cbv zeta. cbn [lineNumber text].
  split; [|reflexivity].
  match goal with |- context [look_ahead ?c ?n ?m 0 5 ?n] =>
    pose proof (look_ahead_range c n m 5 0%Z (Z.le_refl 0)) as H;
    cbv zeta in H; set (ln := look_ahead c n m 0 5 n) in *
  end.
  destruct (lineNumber mk <? 0)%Z eqn:E1.
  - lia.
  - apply Z.ltb_ge in E1.
    destruct (Z.of_nat (length codeLines) <=? lineNumber mk)%Z eqn:E2.
    + lia.
    + apply Z.leb_gt in E2. lia.
Qed.

Lemma synthetic_from_range (len interval : Z) (fuel : nat) :
  (0 <= interval)%Z ->
  forall i : Z,
    (0 <= i)%Z ->
    Forall (fun m => (0 <= lineNumber m < len)%Z)
           (synthetic_from len interval i fuel).
Proof.
  intros Hint. induction fuel as [|f IH]; intros i Hi; cbn [synthetic_from].
  - constructor.
  - cbv zeta. apply Forall_app. split.
    + destruct (i * interval <? len)%Z eqn:E; [|constructor].
      apply Z.ltb_lt in E. constructor; [|constructor].
      cbn [lineNumber]. split; [apply Z.mul_nonneg_nonneg; assumption | exact E].
    + apply IH. lia.
Qed.

(** Whatever the narration says, the markers extracted against a code all
    point into it: a line number is never negative and never past the last
    line.  When the text has references, validation keeps every one of them,
    with its text and in its place; only line numbers change. *)
Theorem markers_point_into_the_code (t code : jsstring) :
  code <> [] ->
  let codeLines := split_chr 10%N code in
  Forall (fun m => (0 <= lineNumber m < Z.of_nat (length codeLines))%Z)
         (extractLineReferences t (Some code))
  /\ (extractLineReferences t None <> [] ->
      map text (extractLineReferences t (Some code))
      = map text (extractLineReferences t None)).
Proof.
  intros Hcode. cbv zeta.
  pose proof (split_chr_length_pos 10%N code) as Hlen.
  unfold extractLineReferences. cbv zeta.
  destruct code as [|c0 code']; [contradiction|].
  cbn [nonempty_code].
  set (found := match primary_markers (cleanReferenceText t) with
                | [] => lenient_markers (cleanReferenceText t)
                | _ :: _ => primary_markers (cleanReferenceText t)
                end).
  destruct found as [|mk ms] eqn:Ef.
  - split; [|intros H; contradiction].
    unfold syntheticMarkers. cbv zeta.
    apply synthetic_from_range; [|lia].
    apply Z.div_pos; [lia|].
    pose proof (numMarkers_bounds (Z.of_nat (length (split_chr 10%N (c0 :: code'))))).
    lia.
  - split.
    + apply Forall_forall. intros m Hm. apply in_map_iff in Hm.
      destruct Hm as (m0 & <- & _).
      apply (validate_marker_range _ m0 Hlen).
    + intros _. rewrite map_map. apply map_ext. intros m.
      apply (validate_marker_range _ m Hlen).
Qed.

Lemma markers_point_into_the_code_witness :
  Forall (fun m => (0 <= lineNumber m < 6)%Z)
         (extractLineReferences (lit "See line 0 and [Line 99].")
                                (Some six_line_code)).
Proof.
  assert (H : six_line_code <> []) by discriminate.
  exact (proj1 (markers_point_into_the_code (lit "See line 0 and [Line 99].")
                  six_line_code H)).
Defined.

(** *** The markers the local backend makes from sentences *)

Lemma number_from_app (k : nat) (xs ys : list jsstring) :
  number_from k (xs ++ ys) = number_from k xs ++ number_from (k + length xs) ys.
Proof.
  revert k. induction xs as [|x xs IH]; intros k; cbn [app number_from length].
  - rewrite Nat.add_0_r. reflexivity.
  - rewrite IH. replace (S k + length xs) with (k + S (length xs)) by lia.
    reflexivity.
Qed.

Lemma number_from_length (k : nat) (ss : list jsstring) :
  length (number_from k ss) = length ss.
Proof.
  revert k. induction ss as [|s ss IH]; intros k; cbn; [|rewrite IH]; reflexivity.
Qed.

(** The loop of lines 817-828, from any turn on: with fewer than ten markers
    made, it adds the substantial sentences that follow, numbered on, until
    there are ten. *)
Lemma sentence_markers_spec (sentences : list jsstring) :
  forall acc : list marker,
    length acc < 10 ->
    sentence_markers sentences (Z.of_nat (length acc)) acc
    = acc ++ number_from (length acc)
               (firstn (10 - length acc) (filter substantial sentences)).
Proof.
  induction sentences as [|s rest IH]; intros acc Hlen;
    cbn [sentence_markers filter]; cbv zeta.
  - rewrite firstn_nil. cbn. rewrite app_nil_r. reflexivity.
  - unfold substantial at 1.
    destruct (10 <? length (trim s)) eqn:E; [|apply IH; exact Hlen].
    assert (Hmod : (Z.of_nat (length acc) mod 10 = Z.of_nat (length acc))%Z)
      by (apply Z.mod_small; lia).
    rewrite Hmod.
    destruct (10 - length acc) as [|n] eqn:En; [lia|].
    cbn [firstn number_from].
    destruct (10 <=? length (acc ++ [mkMarker s (Z.of_nat (length acc))])) eqn:E10.
    + apply Nat.leb_le in E10. rewrite length_app in E10. cbn [length] in E10.
      assert (n = 0) by lia. subst n. rewrite firstn_O. reflexivity.
    + apply Nat.leb_gt in E10.
      replace (Z.of_nat (length acc) + 1)%Z
        with (Z.of_nat (length (acc ++ [mkMarker s (Z.of_nat (length acc))])))
        by (rewrite length_app; cbn [length]; lia).
      rewrite (IH _ E10). rewrite length_app. cbn [length].
      rewrite <- app_assoc. cbn [app].
      replace (10 - (length acc + 1)) with n by lia.
      replace (length acc + 1) with (S (length acc)) by lia.
      reflexivity.
Qed.

(** When neither pattern finds a reference in the clean text, the local
    backend takes sentences for markers: the pieces that [/[.!?]\s+/] cuts
    the clean text into, those of more than ten code units once trimmed, the
    first ten of them, in their order; the text of a marker is the sentence
    and its line is the rank of the sentence, 0 for the first: the k-th such
    sentence highlights line k of the editor whatever the code is. *)
Theorem sentences_stand_in_for_markers (cleanText : jsstring) :
  primary_markers cleanText = [] ->
  lenient_markers cleanText = [] ->
  let sentences := split_re (seqs [OneOf ".!?"; Plus sp]) cleanText in
  let chosen := firstn 10 (filter substantial sentences) in
  local_markers cleanText [] = number_from 0 chosen
  /\ length (local_markers cleanText [])
     = Nat.min 10 (length (filter substantial sentences))
  /\ forall k s,
       nth_error chosen k = Some s ->
       nth_error (local_markers cleanText []) k = Some (mkMarker s (Z.of_nat k)).
Proof.
  intros Hp Hl. cbv zeta.
  assert (E : local_markers cleanText []
              = number_from 0
                  (firstn 10 (filter substantial
                                (split_re (seqs [OneOf ".!?"; Plus sp]) cleanText)))).
  { unfold local_markers. rewrite Hp, Hl.
    apply (sentence_markers_spec _ []). cbn. lia. }
  split; [exact E|]. split.
  - rewrite E, number_from_length, length_firstn. reflexivity.
  - rewrite E.
    generalize (firstn 10 (filter substantial
                             (split_re (seqs [OneOf ".!?"; Plus sp]) cleanText))).
    intros l.
    assert (G : forall (l : list jsstring) base k s,
               nth_error l k = Some s ->
               nth_error (number_from base l) k = Some (mkMarker s (Z.of_nat (base + k)))).
    { clear. induction l as [|x l IH]; intros base k s H.
      - destruct k; discriminate.
      - destruct k as [|k]; cbn in H |- *.
        + injection H as <-. rewrite Nat.add_0_r. reflexivity.
        + rewrite (IH (S base) k s H).
          replace (S base + k) with (base + S k) by lia. reflexivity. }
    intros k s H. apply (G l 0 k s H).
Qed.

Lemma sentences_stand_in_for_markers_witness :
  local_markers (lit "This part reads the input. Then it sorts the items! Done.") []
  = [mkMarker (lit "This part reads the input") 0;
     mkMarker (lit "Then it sorts the items") 1].
Proof.
  assert (Hp : primary_markers
                 (lit "This part reads the input. Then it sorts the items! Done.") = [])
    by (vm_compute; reflexivity).
  assert (Hl : lenient_markers
                 (lit "This part reads the input. Then it sorts the items! Done.") = [])
    by (vm_compute; reflexivity).
  exact (proj1 (sentences_stand_in_for_markers _ Hp Hl)).
Defined.

(* ------------------------------------------------------------------ *)
(** ** Timers *)

Lemma arm_highlights_pending (delay : nat -> marker -> option Q) (ms : list marker) :
  forall (index : nat) (w : world),
    exists new,
      pending (fst (arm_highlights delay index ms w)) = pending w ++ new
      /\ map t_id new = snd (arm_highlights delay index ms w)
      /\ Forall (fun tm => exists l, t_action tm = Highlight l) new.
Proof.
  induction ms as [|mk rest IH]; intros index w; cbn [arm_highlights].
  - exists []. rewrite app_nil_r. repeat split. constructor.
  - destruct (delay index mk) as [d|]; [|apply IH].
    destruct (IH (S index) (fst (setTimeout (Highlight (lineNumber mk)) d w)))
      as (new & Hp & Hi & Hf).
    cbn [setTimeout fst] in Hp, Hi |- *.
    destruct (arm_highlights delay (S index) rest _) as [w2 ids] eqn:E.
    cbn [fst snd] in *.
    eexists (_ :: new). rewrite Hp. cbn [with_fresh with_pending pending].
    rewrite <- app_assoc. cbn [app map t_id]. rewrite Hi.
    repeat split. constructor; [eexists; reflexivity | exact Hf].
Qed.

Lemma fire_pending (tm : timer) (w : world) : pending (fire tm w) = pending w.
Proof.
  unfold fire, call_lineNumber, call_onFinish.
  destruct (t_action tm); [destruct (lineNumberCallback _)|destruct (onFinishCallback _)];
    reflexivity.
Qed.

Lemma clearTimeouts_Forall (P : timer -> Prop) (ids : list nat) (w : world) :
  Forall P (pending w) -> Forall P (pending (clearTimeouts ids w)).
Proof.
  intros H. unfold clearTimeouts. cbn [with_pending pending].
  apply Forall_forall. intros tm Hin. apply filter_In in Hin.
  rewrite Forall_forall in H. apply H. tauto.
Qed.

Lemma next_due_In (t : Z) (ts : list timer) :
  forall best tm,
    next_due t best ts = Some tm -> best = Some tm \/ In tm ts.
Proof.
  induction ts as [|x ts IH]; intros best tm; cbn [next_due].
  - intros H. left. exact H.
  - destruct (Qle_bool (t_due x) (inject_Z t)).
    + destruct best as [bt|].
      * destruct (Qle_bool (t_due bt) (t_due x)); intros H; apply IH in H;
          destruct H as [H|H]; try (right; right; exact H).
        -- left. exact H.
        -- injection H as <-. right. left. reflexivity.
      * intros H. apply IH in H. destruct H as [H|H].
        -- injection H as <-. right. left. reflexivity.
        -- right. right. exact H.
    + intros H. apply IH in H. destruct H as [H|H]; [left|right; right]; exact H.
Qed.

(** While only highlight timers are pending, the passing of time fires
    highlights and nothing else. *)
Lemma run_timers_highlights (fuel : nat) (t : Z) :
  forall (P : timer -> Prop) (w : world),
    Forall (fun tm => exists l, t_action tm = Highlight l) (pending w) ->
    Forall P (pending w) ->
    let w' := run_timers fuel t w in
    Forall P (pending w')
    /\ filter is_finish (history w') = filter is_finish (history w)
    /\ speech w' = speech w /\ audios w' = audios w.
Proof.
  induction fuel as [|f IH]; intros P w Hh HP; cbn [run_timers]; cbv zeta.
  - repeat split; assumption.
  - destruct (next_due t None (pending w)) as [tm|] eqn:E;
      [|repeat split; assumption].
    apply next_due_In in E. destruct E as [E|E]; [discriminate|].
    rewrite Forall_forall in Hh. destruct (Hh tm E) as [l Hl].
    assert (Hh' : Forall (fun tm0 => exists l0, t_action tm0 = Highlight l0)
                         (pending (fire tm (clearTimeouts [t_id tm] w)))).
    { rewrite fire_pending. apply clearTimeouts_Forall.
      apply Forall_forall. exact Hh. }
    assert (HP' : Forall P (pending (fire tm (clearTimeouts [t_id tm] w)))).
    { rewrite fire_pending. apply clearTimeouts_Forall. exact HP. }
    destruct (IH P _ Hh' HP') as (A & B & C & D). cbv zeta in A, B, C, D.
    rewrite B, C, D, fire_speech.
    split; [exact A|]. unfold fire. rewrite Hl. unfold call_lineNumber.
    cbn [clearTimeouts with_pending speech history audios].
    destruct (lineNumberCallback (speech w)); cbn [observe history audios];
      [rewrite filter_app; cbn; rewrite app_nil_r|]; repeat split.
Qed.

Lemma clearTimeouts_all (ids : list nat) (w : world) :
  Forall (fun tm => In (t_id tm) ids) (pending w) ->
  pending (clearTimeouts ids w) = [].
Proof.
  intros H. unfold clearTimeouts. cbn [with_pending pending].
  induction (pending w) as [|tm ts IH]; [reflexivity|].
  inversion H as [|? ? H1 H2]; subst. cbn [filter].
  assert (E : existsb (Nat.eqb (t_id tm)) ids = true).
  { apply existsb_exists. exists (t_id tm). split; [exact H1|apply Nat.eqb_refl]. }
  rewrite E. cbn [negb]. apply IH. exact H2.
Qed.

(* ------------------------------------------------------------------ *)
(** ** The remote backend, when the audio plays to its end *)

Lemma useBrowserSpeechAPI_medium (b : browser) (t : jsstring) (ms : list marker)
      (w : world) :
  let w' := fst (useBrowserSpeechAPI b t ms w) in
  currentUtterance (speech w') = currentUtterance (speech w)
  \/ exists id, currentUtterance (speech w') = Some (Utterance id).
Proof.
  cbv zeta. destruct (hasSpeechSynthesis b) eqn:Hb.
  - right. exact (proj2 (proj2 (useBrowserSpeechAPI_frame b t ms w)) Hb).
  - left. unfold useBrowserSpeechAPI. rewrite Hb. cbn [negb fst].
    rewrite (proj2 (proj2 (call_onFinish_frame _))). cbn [setTimeout fst with_fresh with_pending speech].
    destruct ((0 <? length ms) && _)%bool; [|reflexivity].
    rewrite arm_highlights_speech. reflexivity.
Qed.

(** [playSpeech] hands over to the local backend, or does nothing, or makes
    the audio element with the timers of its highlights. *)
Lemma playSpeech_cases (b : browser) (a t : jsstring) (ms : list marker) (w : world) :
  playSpeech b a t ms w = fst (useBrowserSpeechAPI b t ms w)
  \/ playSpeech b a t ms w = w
  \/ exists w2 timers,
      arm_highlights (fun _ mk => remoteHighlightTime t mk) 0 ms w = (w2, timers)
      /\ playSpeech b a t ms w
         = observe (AudioPlay (fresh w2))
             (with_speech (set_currentUtterance (Some (AudioElement (fresh w2))))
                (with_audios (audios w2 ++ [mkAudio (fresh w2) timers t ms])
                   (with_fresh (S (fresh w2)) w2))).
Proof.
  unfold playSpeech.
  destruct (negb (startsWith a _)); [|right; left; reflexivity].
  destruct (length a <? 10); [left; reflexivity|].
  destruct (negb (test base64Regex a)); [left; reflexivity|].
  destruct (atob (fix_padding a)) as [n|m]; [|left; reflexivity].
  destruct (n <? 100); [left; reflexivity|].
  right. right.
  destruct (arm_highlights _ 0 ms w) as [w2 timers].
  exists w2, timers. split; reflexivity.
Qed.

Lemma resetErrorState_callbacks (now : Z) (s : SpeechState) :
  onFinishCallback (resetErrorState now s) = onFinishCallback s
  /\ lineNumberCallback (resetErrorState now s) = lineNumberCallback s.
Proof. unfold resetErrorState. cbn. destruct (fallbackMode s); split; reflexivity. Qed.

Lemma recordFailure_callbacks (now : Z) (reason : jsstring) (s : SpeechState) :
  onFinishCallback (recordFailure now reason s) = onFinishCallback s
  /\ lineNumberCallback (recordFailure now reason s) = lineNumberCallback s
  /\ currentUtterance (recordFailure now reason s) = currentUtterance s.
Proof.
  unfold recordFailure. cbn.
  repeat match goal with
         | |- context [if ?c then _ else _] => destruct c; cbn
         end; repeat split.
Qed.

Lemma begin_session_fields (onLine onFinish : option callback) (w : world) :
  let w0 := begin_session onLine onFinish w in
  pending w0 = pending w /\ audios w0 = audios w
  /\ currentUtterance (speech w0) = None
  /\ onFinishCallback (speech w0) = onFinish
  /\ lineNumberCallback (speech w0) = onLine
  /\ filter is_finish (history w0) = filter is_finish (history w).
Proof.
  unfold begin_session, stop.
  destruct (currentUtterance (speech w)) as [[id|id]|]; cbn;
    rewrite ?filter_app; cbn; rewrite ?app_nil_r; repeat split.
Qed.

Lemma filter_finish_requests (ps : list payload) :
  filter is_finish (map Requested ps) = [].
Proof. induction ps as [|p ps IH]; [reflexivity|exact IH]. Qed.

(** What a call leaves when it has made an audio element. *)
Lemma speak_with_audio (b : browser) (net : network) (t : jsstring)
      (onLine onFinish : option callback) (voice : option VoiceOptions)
      (code : option jsstring) (w : world) (id : nat) :
  let w1 := snd (speak b net t onLine onFinish voice code w) in
  currentUtterance (speech w1) = Some (AudioElement id) ->
  exists new timers,
    pending w1 = pending w ++ new
    /\ map t_id new = timers
    /\ Forall (fun tm => exists l, t_action tm = Highlight l) new
    /\ audios w1 = audios w
                   ++ [mkAudio id timers t (extractLineReferences t code)]
    /\ onFinishCallback (speech w1) = onFinish
    /\ filter is_finish (history w1) = filter is_finish (history w).
Proof.
  cbv zeta. unfold speak.
  destruct (begin_session_fields onLine onFinish w) as (Hp0 & Ha0 & Hu0 & Hf0 & _ & Hh0).
  cbv zeta in Hp0, Ha0, Hu0, Hf0, Hh0.
  set (w0 := begin_session onLine onFinish w) in *.
  destruct (blank t).
  { cbn [snd]. rewrite (proj2 (proj2 (call_onFinish_frame _))), Hu0. discriminate. }
  destruct (shouldUseFallbackDirectly (clock w0) (speech w0)).
  { unfold speak_local. cbn [snd].
    destruct (useBrowserSpeechAPI_medium b t (extractLineReferences t code) w0)
      as [H|[i H]]; cbv zeta in H; rewrite H, ?Hu0; discriminate. }
  unfold speak_remote.
  match goal with |- context [synthesizeSpeech ?n ?x ?y ?v ?c ?s] =>
    destruct (synthesizeSpeech_returns n x y v c s) as (out & E & _); rewrite E;
    pose proof (synthesizeSpeech_outcomes _ _ _ _ _ _ _ E) as Hout end.
  cbn [snd].
  match goal with |- context [fold_left ?f ?ps ?x] =>
    destruct (fold_observe_frame ps x) as (A1 & _ & A3 & A4 & _ & _ & _ & A8);
    cbv zeta in A1, A3, A4, A8; set (w1 := fold_left f ps x) in * end.
  cbn [with_speech speech pending audios history] in A1, A3, A4, A8.
  assert (Hs1 : currentUtterance (so_state out) = None
                /\ onFinishCallback (so_state out) = onFinish).
  { destruct Hout as [(_ & Hs & _)|(_ & _ & _ & [(reason & Hs & _)|(a & _ & _ & Hs)])];
      rewrite Hs.
    - split; assumption.
    - destruct (recordFailure_callbacks (clock w0) reason (speech w0)) as (X & _ & Y).
      rewrite X, Y. split; assumption.
    - rewrite resetErrorState_currentUtterance,
        (proj1 (resetErrorState_callbacks _ _)). split; assumption. }
  destruct Hs1 as [Hu1 Hf1].
  cbn [with_speech speech pending audios history].
  rewrite resetErrorState_currentUtterance, (proj1 (resetErrorState_callbacks _ _)).
  destruct (startsWith (so_value out) (lit "tts-fallback-")).
  { destruct (useBrowserSpeechAPI_medium b t (extractLineReferences t code) w1)
      as [H|[i H]]; cbv zeta in H; rewrite H, ?A1, ?Hu1; discriminate. }
  destruct (playSpeech_cases b (so_value out) t (extractLineReferences t code) w1)
    as [H|[H|(w2 & timers & Harm & H)]]; rewrite H.
  { destruct (useBrowserSpeechAPI_medium b t (extractLineReferences t code) w1)
      as [H'|[i H']]; cbv zeta in H'; rewrite H', ?A1, ?Hu1; discriminate. }
  { rewrite A1, Hu1. discriminate. }
  cbn [observe with_speech with_audios with_fresh speech pending audios history
       set_currentUtterance currentUtterance onFinishCallback].
  intros Hid. injection Hid as <-.
  destruct (arm_highlights_pending (fun _ mk => remoteHighlightTime t mk)
              (extractLineReferences t code) 0 w1) as (new & Hp & Hi & Hn).
  destruct (arm_highlights_frame (fun _ mk => remoteHighlightTime t mk)
              (extractLineReferences t code) 0 w1) as (B1 & _ & B3 & _ & B5 & _).
  cbv zeta in B1, B3, B5. rewrite Harm in Hp, Hi, B1, B3, B5. cbn [fst snd] in *.
  exists new, timers.
  rewrite Hp, A3, Hp0, B3, A4, Ha0, B1, A1, Hf1, filter_app, B5, A8, filter_app,
    filter_finish_requests, Hh0.
  cbn. rewrite !app_nil_r. repeat split; assumption.
Qed.

(** When a call has made an audio element and, any time later, the audio
    plays to its end, the session is over for good: the finish callback is
    called once, then and not before, and no timer is left pending, so
    nothing can call it again. *)
Theorem remote_audio_ends_clean
      (b : browser) (net : network) (t : jsstring)
      (onLine onFinish : option callback) (voice : option VoiceOptions)
      (code : option jsstring) (w : world) (id : nat) (later : Z) :
  pending w = [] -> audios w = [] ->
  let w1 := snd (speak b net t onLine onFinish voice code w) in
  currentUtterance (speech w1) = Some (AudioElement id) ->
  exists a,
    find_audio id w1 = Some a
    /\ let w2 := audio_onended a (advance later w1) in
       pending w2 = []
       /\ filter is_finish (history w2)
          = filter is_finish (history w)
            ++ match onFinish with Some cb => [FinishCalled cb] | None => [] end
       /\ isSpeaking w2 = false.
Proof.
  intros Hp Ha w1 Hcur.
  destruct (speak_with_audio b net t onLine onFinish voice code w id Hcur)
    as (new & timers & Hp1 & Hi & Hn & Ha1 & Hf1 & Hh1).
  fold w1 in Hp1, Ha1, Hf1, Hh1. rewrite Hp in Hp1. rewrite Ha in Ha1.
  cbn [app] in Hp1, Ha1.
  exists (mkAudio id timers t (extractLineReferences t code)).
  split.
  { unfold find_audio. rewrite Ha1. cbn [find a_id]. rewrite Nat.eqb_refl.
    reflexivity. }
  cbv zeta.
  assert (Hin : Forall (fun tm => In (t_id tm) timers) (pending w1)).
  { rewrite Hp1, <- Hi. apply Forall_forall. intros tm Htm.
    apply in_map. exact Htm. }
  rewrite <- Hp1 in Hn.
  destruct (run_timers_highlights (length (pending w1)) later _ w1 Hn Hin)
    as (A & B & C & _).
  cbv zeta in A, B, C.
  unfold audio_onended, advance, isSpeaking. cbn [a_timers].
  set (wr := run_timers (length (pending w1)) later w1) in *.
  destruct (call_onFinish_pending
              (clearTimeouts timers
                 (with_speech (set_isPlaying false) (with_clock later wr))))
    as (D & _ & E).
  rewrite D, E, (proj2 (proj2 (call_onFinish_frame _))).
  cbn [clearTimeouts with_pending with_speech with_clock speech history pending
       set_isPlaying onFinishCallback isPlaying].
  rewrite filter_app, B, Hh1, C, Hf1.
  split; [|split; [|reflexivity]].
  - exact (clearTimeouts_all timers wr A).
  - destruct onFinish; reflexivity.
Qed.

Lemma remote_audio_ends_clean_witness :
  exists a,
    find_audio 2 (snd (speak chrome good_response narration (Some 1) (Some 1)
                             None None initialWorld)) = Some a
    /\ pending (audio_onended a
                  (advance 2000
                     (snd (speak chrome good_response narration (Some 1) (Some 1)
                                 None None initialWorld)))) = [].
Proof.
  assert (Hc : currentUtterance
                 (speech (snd (speak chrome good_response narration (Some 1)
                                     (Some 1) None None initialWorld)))
               = Some (AudioElement 2)) by (vm_compute; reflexivity).
  destruct (remote_audio_ends_clean chrome good_response narration (Some 1) (Some 1)
              None None initialWorld 2 2000 eq_refl eq_refl Hc)
    as (a & Hfind & Hpend & _).
  exists a. split; [exact Hfind | exact Hpend].
Defined.

(* ------------------------------------------------------------------ *)
(** ** The local backend, started from the handlers of the audio element *)

Lemma useBrowserSpeechAPI_speaks (b : browser) (t : jsstring) (ms : list marker)
      (w : world) :
  hasSpeechSynthesis b = true ->
  let w' := fst (useBrowserSpeechAPI b t ms w) in
  exists u,
    utterances w' = utterances w ++ [u]
    /\ u_text u = cleanSpeechText t
    /\ history w' = history w ++ [SynthSpeak (u_id u)].
Proof.
  intros Hb. cbv zeta. unfold useBrowserSpeechAPI. rewrite Hb. cbn [negb].
  set (w1 := if ((0 <? length ms) && is_some (lineNumberCallback (speech w)))%bool
             then _ else w).
  assert (H1 : utterances w1 = utterances w /\ history w1 = history w).
  { unfold w1. destruct ((0 <? length ms) && _)%bool; [|split; reflexivity].
    match goal with |- context [arm_highlights ?d ?i ?m ?x] =>
      destruct (arm_highlights_frame d m i x) as (_ & _ & _ & A & B & _) end.
    split; assumption. }
  destruct H1 as [Hu Hh].
  match goal with |- context [arm_highlights ?d ?i ?m ?x] =>
    destruct (arm_highlights_frame d m i x) as (_ & _ & _ & A & B & _);
    destruct (arm_highlights d i m x) as [w2 timers] end.
  cbn [fst] in A, B. cbn [setTimeout fst with_fresh with_pending utterances history] in A, B.
  eexists. cbn [fst observe with_speech with_utterances with_fresh utterances history].
  rewrite A, B, Hu, Hh. cbn [u_text u_id]. repeat split.
Qed.

(** An error event of the audio element runs two handlers, the listener added
    when the element was made and the [onerror] handler assigned last, and
    each starts the local backend: the text is spoken twice. *)
Theorem audio_error_speaks_twice (b : browser) (a : audio_el) (w : world) :
  hasSpeechSynthesis b = true ->
  exists u1 u2,
    utterances (audio_error b a w) = utterances w ++ [u1; u2]
    /\ u_text u1 = cleanSpeechText (a_text a)
    /\ u_text u2 = cleanSpeechText (a_text a)
    /\ history (audio_error b a w)
       = history w ++ [SynthSpeak (u_id u1); SynthSpeak (u_id u2)].
Proof.
  intros Hb. unfold audio_error.
  destruct (useBrowserSpeechAPI_speaks b (a_text a) (a_markers a) w Hb)
    as (u1 & Hu1 & Ht1 & Hh1).
  cbv zeta in Hu1, Hh1.
  destruct (useBrowserSpeechAPI b (a_text a) (a_markers a) w) as [w1 markers].
  cbn [fst] in Hu1, Hh1.
  destruct (useBrowserSpeechAPI_speaks b (a_text a) markers
              (clearTimeouts (a_timers a) (with_speech (set_isPlaying false) w1)) Hb)
    as (u2 & Hu2 & Ht2 & Hh2).
  cbv zeta in Hu2, Hh2.
  cbn [clearTimeouts with_pending with_speech utterances history] in Hu2, Hh2.
  exists u1, u2. rewrite Hu2, Hh2, Hu1, Hh1, <- !app_assoc.
  repeat split; assumption.
Qed.

Lemma audio_error_speaks_twice_witness :
  exists u1 u2,
    utterances (audio_error chrome (mkAudio 0 [] narration []) initialWorld)
    = [u1; u2]
    /\ u_text u1 = u_text u2.
Proof.
  destruct (audio_error_speaks_twice chrome (mkAudio 0 [] narration []) initialWorld
              eq_refl) as (u1 & u2 & Hu & H1 & H2 & _).
  exists u1, u2. split; [exact Hu|]. rewrite H1, H2. reflexivity.
Defined.

(* ------------------------------------------------------------------ *)
(** ** What the remote call returns *)

Lemma fix_padding_length (a : jsstring) : length (fix_padding a) mod 4 = 0.
Proof.
  unfold fix_padding.
  destruct ((length a mod 4) =? 0) eqn:E; cbn [negb].
  - apply Nat.eqb_eq. exact E.
  - apply Nat.eqb_neq in E.
    pose proof (Nat.mod_upper_bound (length a) 4 ltac:(discriminate)) as Hlt.
    assert (Hp : ((4 - length a mod 4) <? 4) = true) by (apply Nat.ltb_lt; lia).
    rewrite Hp. unfold pad_eq. rewrite length_app, repeat_length.
    rewrite (Nat.div_mod_eq (length a) 4) at 1.
    replace (4 * (length a / 4) + length a mod 4 + (4 - length a mod 4))
      with ((1 + length a / 4) * 4) by lia.
    apply Nat.Div0.mod_mul.
Qed.

Lemma fix_padding_prefix (a : jsstring) :
  exists n, n < 4 /\ fix_padding a = a ++ pad_eq n.
Proof.
  unfold fix_padding.
  destruct ((length a mod 4) =? 0) eqn:E; cbn [negb].
  - exists 0. split; [lia|]. cbn. rewrite app_nil_r. reflexivity.
  - destruct ((4 - length a mod 4) <? 4) eqn:Hp.
    + apply Nat.ltb_lt in Hp. eexists. split; [exact Hp|reflexivity].
    + exists 0. split; [lia|]. cbn. rewrite app_nil_r. reflexivity.
Qed.

Lemma fallbackId_not_audio (net : network) (a : jsstring) :
  failure_mode net -> accepted_audio net a -> False.
Proof.
  intros F (r & d & -> & Hok & Hj & Hs & Ha & Hne & Hb & Hd).
  inversion F as [|r0 H0|r0 m H0 H1|r0 d0 H0 H1 H2|r0 d0 H0 H1 H2|r0 d0 H0 H1 H2];
    subst.
  - congruence.
  - congruence.
  - rewrite Hj in H1. injection H1 as <-. rewrite Hs, Ha in H2.
    destruct a; [contradiction|discriminate].
  - rewrite Hj in H1. injection H1 as <-. rewrite Ha in H2. cbn [str_or_empty] in H2. congruence.
  - rewrite Hj in H1. injection H1 as <-. rewrite Ha in H2. cbn [str_or_empty] in H2. congruence.
Qed.

(** Whatever [synthesizeSpeech] returns that is not a fallback identifier is
    audio the caller can take for base64: not empty, made of base64
    characters only, of a length that is a multiple of four (the response's
    text with at most three [=] added); one request was sent for it and the
    error counters are reset. *)
Theorem audio_returned_is_base64 (now : Z) (net : network) (t : jsstring)
      (v : VoiceOptions) (code : option jsstring) (s : SpeechState)
      (out : synth_out) :
  synthesizeSpeech now net t v code s = Ok out ->
  startsWith (so_value out) (lit "tts-fallback-") = false ->
  so_value out <> []
  /\ test base64Regex (so_value out) = true
  /\ length (so_value out) mod 4 = 0
  /\ (exists a n, accepted_audio net a /\ n < 4 /\ so_value out = a ++ pad_eq n)
  /\ so_requests out = [request_of t v code]
  /\ so_state out = resetErrorState now s.
Proof.
  intros E Hv. apply synthesizeSpeech_outcomes in E.
  destruct E as [(_ & _ & Hf & _)|(Hr & _ & _ & [(reason & _ & Hf)|(a & Ha & Hval & Hs)])];
    try (rewrite Hf, fallbackId_prefix in Hv; discriminate).
  pose proof Ha as (r & d & _ & _ & _ & _ & _ & Hne & Hb & _).
  destruct (fix_padding_prefix a) as (n & Hn & Hpad).
  rewrite Hval. repeat split; try assumption.
  - rewrite Hpad. destruct a; [contradiction|discriminate].
  - apply fix_padding_length.
  - exists a, n. repeat split; assumption.
Qed.

Lemma audio_returned_is_base64_witness :
  exists out,
    synthesizeSpeech 0 good_response narration defaultVoice None initialSpeechState
    = Ok out
    /\ length (so_value out) mod 4 = 0.
Proof.
  destruct (synthesizeSpeech 0 good_response narration defaultVoice None
              initialSpeechState) as [out|m] eqn:E; [|vm_compute in E; discriminate].
  exists out. split; [reflexivity|].
  assert (Hv : startsWith (so_value out) (lit "tts-fallback-") = false).
  { vm_compute in E. injection E as <-. reflexivity. }
  exact (proj1 (proj2 (proj2 (audio_returned_is_base64 0 good_response narration
                                defaultVoice None initialSpeechState out E Hv)))).
Defined.

(** An answer of the network is a failure that the code detects, or it
    carries audio that the code accepts. *)
Lemma failure_or_accepted (net : network) :
  failure_mode net \/ exists a, accepted_audio net a.
Proof.
  destruct net as [m|r]; [left; constructor|].
  destruct (response_ok r) eqn:Hok; [|left; apply BadStatus; exact Hok].
  destruct (body_json r) as [d|m] eqn:Hj;
    [|left; eapply MalformedJson; eassumption].
  destruct (success d && truthy_str (audio d))%bool eqn:Hs;
    [|left; eapply MissingAudio; eassumption].
  apply andb_prop in Hs. destruct Hs as [Hs Ht].
  destruct (audio d) as [[|c a]|] eqn:Ha; try discriminate Ht.
  destruct (test base64Regex (fix_padding (c :: a))) eqn:Hb.
  2:{ left. eapply InvalidBase64Chars; try eassumption. rewrite Ha. exact Hb. }
  destruct (atob_length (substring 0 100 (fix_padding (c :: a)))) eqn:Hd.
  2:{ left. eapply UndecodableBase64; try eassumption. rewrite Ha. exact Hd. }
  right. exists (c :: a), r, d.
  repeat split; try assumption; try discriminate. rewrite Hd. discriminate.
Qed.

Lemma api_call_accepted (now : Z) (net : network) (req : payload)
      (s : SpeechState) (a : jsstring)
      (handler : option jsstring -> result synth_out) :
  accepted_audio net a ->
  try_catch (api_call now net req s) handler
  = Ok (mkOut (fix_padding a) (resetErrorState now s) [req]).
Proof.
  intros (r & d & -> & Hok & Hj & Hs & Ha & Hne & Hb & Hd).
  unfold api_call. cbn [bind]. rewrite Hok. cbn [negb]. rewrite Hj, Hs, Ha.
  destruct a as [|c a]; [contradiction|].
  cbn [truthy_str str_or_empty andb length Nat.ltb Nat.leb].
  rewrite Hb. cbn [negb]. unfold atob.
  destruct (atob_length (substring 0 100 (fix_padding (c :: a))));
    [reflexivity|contradiction].
Qed.

Lemma synthesizeSpeech_accepted (now : Z) (net : network) (t : jsstring)
      (v : VoiceOptions) (code : option jsstring) (s : SpeechState)
      (a : jsstring) :
  utf8_length (wrappedSSML_of t v code) <= 5000 ->
  shouldUseFallbackDirectly now s = false ->
  accepted_audio net a ->
  synthesizeSpeech now net t v code s
  = Ok (mkOut (fix_padding a) (resetErrorState now s) [request_of t v code]).
Proof.
  intros Hsize Hp Ha. unfold synthesizeSpeech. cbv zeta.
  apply Nat.ltb_ge in Hsize. rewrite Hsize, Hp.
  apply api_call_accepted. exact Ha.
Qed.

Lemma synthesizeSpeech_failed (now : Z) (net : network) (t : jsstring)
      (v : VoiceOptions) (code : option jsstring) (s : SpeechState) :
  failure_mode net ->
  utf8_length (wrappedSSML_of t v code) <= 5000 ->
  shouldUseFallbackDirectly now s = false ->
  exists reason,
    synthesizeSpeech now net t v code s
    = Ok (mkOut (fallbackId now) (recordFailure now reason s) [request_of t v code]).
Proof.
  intros F Hsize Hp.
  destruct (synthesizeSpeech_returns now net t v code s) as (out & E & _).
  pose proof (synthesizeSpeech_outcomes _ _ _ _ _ _ _ E) as H.
  destruct H as [(_ & _ & _ & [Hbig|Habs])|(Hr & _ & _ & [(reason & Hs & Hf)|(a & Ha & _)])].
  - lia.
  - congruence.
  - exists reason. rewrite E. destruct out as [val st reqs]. cbn in *. subst.
    reflexivity.
  - destruct (fallbackId_not_audio net a F Ha).
Qed.

(** The answers that count as failed, and what a failure costs.  When the
    document passes the size guard and the policy lets the request go, one
    request is sent.  A rejected [fetch], a status that is not ok, a body
    that does not parse, [success] false, audio missing or empty, a character
    outside the base64 alphabet, or a first hundred characters that do not
    decode: each gives the fallback identifier and the state after exactly
    one [recordFailure] at the time of the call.  Every other answer is
    returned as audio with the counters reset; what comes after the first
    hundred characters is not looked at. *)
Theorem failed_request_is_recorded_once (now : Z) (net : network) (t : jsstring)
      (v : VoiceOptions) (code : option jsstring) (s : SpeechState) :
  utf8_length (wrappedSSML_of t v code) <= 5000 ->
  shouldUseFallbackDirectly now s = false ->
  (failure_mode net ->
   exists reason,
     synthesizeSpeech now net t v code s
     = Ok (mkOut (fallbackId now) (recordFailure now reason s) [request_of t v code])
     /\ consecutiveErrors (recordFailure now reason s) = (consecutiveErrors s + 1)%Z
     /\ lastErrorTime (recordFailure now reason s) = Some now)
  /\ (~ failure_mode net ->
      exists a,
        accepted_audio net a
        /\ synthesizeSpeech now net t v code s
           = Ok (mkOut (fix_padding a) (resetErrorState now s)
                       [request_of t v code])).
Proof.
  intros Hsize Hp. split.
  - intros F.
    destruct (synthesizeSpeech_failed now net t v code s F Hsize Hp) as (reason & E).
    exists reason. destruct (recordFailure_fields now reason s) as (A & B & _).
    split; [exact E|split; assumption].
  - intros NF. destruct (failure_or_accepted net) as [F|(a & Ha)]; [contradiction|].
    exists a. split; [exact Ha|].
    apply synthesizeSpeech_accepted; assumption.
Qed.

Lemma failed_request_is_recorded_once_witness :
  (exists reason,
      synthesizeSpeech 1000 (FetchRejects None) narration defaultVoice None
                       initialSpeechState
      = Ok (mkOut (fallbackId 1000) (recordFailure 1000 reason initialSpeechState)
                  [request_of narration defaultVoice None]))
  /\ synthesizeSpeech 1000 good_response narration defaultVoice None
                      initialSpeechState
     = Ok (mkOut good_audio (resetErrorState 1000 initialSpeechState)
                 [request_of narration defaultVoice None]).
Proof.
  assert (Hs : utf8_length (wrappedSSML_of narration defaultVoice None) <= 5000)
    by (apply Nat.leb_le; vm_compute; reflexivity).
  split.
  - destruct (proj1 (failed_request_is_recorded_once 1000 (FetchRejects None)
                       narration defaultVoice None initialSpeechState Hs eq_refl)
                    (NetworkError None))
      as (reason & E & _).
    exists reason. exact E.
  - assert (NF : ~ failure_mode good_response).
    { intros F. apply (fallbackId_not_audio good_response good_audio F).
      exists (mkResponse 200 (Ok []) (Ok (mkData true (Some good_audio) None))),
             (mkData true (Some good_audio) None).
      repeat split; try reflexivity; try discriminate. }
    destruct (proj2 (failed_request_is_recorded_once 1000 good_response
                       narration defaultVoice None initialSpeechState Hs eq_refl)
                    NF)
      as (a & Ha & E).
    destruct Ha as (r & d & Hn & _ & Hj & _ & Hau & _).
    injection Hn as <-. cbn in Hj. injection Hj as <-. cbn in Hau.
    injection Hau as <-. exact E.
Defined.

(* ------------------------------------------------------------------ *)
(** ** The first extractor *)

Lemma empty_or_comment_valid (line : jsstring) :
  empty_or_comment line = negb (valid_line line).
Proof.
  unfold empty_or_comment, valid_line.
  destruct line as [|c s]; [reflexivity|].
  destruct (startsWith (c :: s) (lit "//")), (startsWith (c :: s) (lit "/*")),
    (startsWith (c :: s) (lit "*")); reflexivity.
Qed.

Lemma next_valid_spec (codeLines : list jsstring) (fuel : nat) :
  forall n : nat,
    length codeLines <= n + fuel ->
    match next_valid codeLines n fuel with
    | Some k =>
        n <= k < length codeLines
        /\ valid_line (trim (nth k codeLines [])) = true
        /\ forall j, n <= j < k -> valid_line (trim (nth j codeLines [])) = false
    | None =>
        forall j, n <= j < length codeLines ->
                  valid_line (trim (nth j codeLines [])) = false
    end.
Proof.
  induction fuel as [|f IH]; intros n Hn; cbn [next_valid].
  - intros j Hj. lia.
  - destruct (n <? length codeLines) eqn:E.
    + apply Nat.ltb_lt in E. cbv zeta.
      destruct (valid_line (trim (nth n codeLines []))) eqn:Hv.
      * split; [lia|]. split; [exact Hv|]. intros j Hj. lia.
      * specialize (IH (S n) ltac:(lia)).
        destruct (next_valid codeLines (S n) f) as [k|].
        -- destruct IH as (A & B & C). split; [lia|]. split; [exact B|].
           intros j Hj. destruct (Nat.eq_dec j n) as [->|Hne]; [exact Hv|].
           apply C. lia.
        -- intros j Hj. destruct (Nat.eq_dec j n) as [->|Hne]; [exact Hv|].
           apply IH. lia.
    + apply Nat.ltb_ge in E. intros j Hj. lia.
Qed.

(** A reference to line [n] of the code (counted from one) that is empty or a
    comment is moved, but not onto the valid line that the loop finds: with
    [k] the editor line (counted from zero) of the first valid line after the
    line referred to, the marker gets the editor line [k - 1], the line just
    before it, which is not valid; when the very next line is valid, that is
    the line referred to itself.  When no valid line follows, the reference
    gives no marker. *)
Theorem skipped_reference_stops_one_line_early
      (t : jsstring) (codeLines : list jsstring) (m : rmatchres) (n : Z) :
  parseInt_cap (cap_or (cap_or (cap 1 m) (cap 2 m)) (cap 3 m)) = Some n ->
  (1 <= n <= Z.of_nat (length codeLines))%Z ->
  line_valid codeLines (n - 1) = false ->
  match numbered_of_match t (Some codeLines) m with
  | [] =>
      forall j, (n <= j < Z.of_nat (length codeLines))%Z ->
                line_valid codeLines j = false
  | [mk] =>
      exists k : Z,
        n_lineNumber mk = Some (k - 1)%Z
        /\ (n <= k < Z.of_nat (length codeLines))%Z
        /\ line_valid codeLines k = true
        /\ line_valid codeLines (k - 1) = false
        /\ forall j, (n <= j < k)%Z -> line_valid codeLines j = false
  | _ => False
  end.
Proof.
  intros Hn Hrange Hline. unfold numbered_of_match. rewrite Hn. cbv zeta.
  assert (E1 : ((0 <? n) && (n <=? Z.of_nat (length codeLines)))%Z%bool = true).
  { apply andb_true_intro. split; [apply Z.ltb_lt|apply Z.leb_le]; lia. }
  rewrite E1.
  unfold line_valid in Hline.
  assert (E0 : (0 <=? n - 1)%Z = true) by (apply Z.leb_le; lia).
  rewrite E0 in Hline. cbn [andb] in Hline.
  rewrite empty_or_comment_valid, Hline. cbn [negb].
  pose proof (next_valid_spec codeLines (length codeLines) (Z.to_nat n) ltac:(lia)) as H.
  assert (Hlv : forall j : Z, (0 <= j)%Z ->
                  line_valid codeLines j = valid_line (trim (nth (Z.to_nat j) codeLines []))).
  { intros j Hj. unfold line_valid.
    assert (E : (0 <=? j)%Z = true) by (apply Z.leb_le; exact Hj).
    rewrite E. reflexivity. }
  destruct (next_valid codeLines (Z.to_nat n) (length codeLines)) as [k|].
  - destruct H as (A & B & C).
    exists (Z.of_nat k). cbn [n_lineNumber]. split; [reflexivity|].
    split; [lia|]. split; [rewrite Hlv by lia; rewrite Nat2Z.id; exact B|].
    assert (Hbefore : forall j, (n - 1 <= j < Z.of_nat k)%Z ->
                                line_valid codeLines j = false).
    { intros j Hj. rewrite Hlv by lia.
      destruct (Z.eq_dec j (n - 1)) as [->|Hne]; [exact Hline|].
      apply C. lia. }
    split; [apply Hbefore; lia|]. intros j Hj. apply Hbefore. lia.
  - intros j Hj. rewrite Hlv by lia. apply H. lia.
Qed.

Lemma skipped_reference_stops_one_line_early_witness :
  map n_lineNumber
      (extractLineNumbers (lit "[Line 1] sets up the state.") (Some commented_code))
  = [Some 0%Z]
  /\ line_valid (split_chr 10%N commented_code) 0 = false
  /\ line_valid (split_chr 10%N commented_code) 1 = true.
Proof.
  assert (Hm : exists m,
             scan numberedLineRegex (lit "[Line 1] sets up the state.") = [m]
             /\ parseInt_cap (cap_or (cap_or (cap 1 m) (cap 2 m)) (cap 3 m))
                = Some 1%Z).
  { eexists. split; vm_compute; reflexivity. }
  destruct Hm as (m & Hscan & Hnum).
  assert (Hr : (1 <= 1 <= Z.of_nat (length (split_chr 10%N commented_code)))%Z)
    by (vm_compute; split; discriminate).
  assert (Hl : line_valid (split_chr 10%N commented_code) (1 - 1) = false)
    by reflexivity.
  pose proof (skipped_reference_stops_one_line_early
                (lit "[Line 1] sets up the state.")
                (split_chr 10%N commented_code) m 1%Z Hnum Hr Hl) as H.
  split; [|split; reflexivity].
  unfold extractLineNumbers. cbn [nonempty_code commented_code].
  change (nonempty_code (Some commented_code)) with (Some commented_code).
  rewrite Hscan. cbn [flat_map]. rewrite app_nil_r.
  destruct (numbered_of_match _ _ m) as [|mk [|mk2 rest]]; try contradiction.
  - exfalso. specialize (H 1%Z ltac:(vm_compute; split; [discriminate|reflexivity])).
    discriminate.
  - destruct H as (k & Hk & Hrng & Hv & Hb & Hall).
    cbn [map]. rewrite Hk. f_equal. f_equal.
    assert (k = 1)%Z; [|subst; reflexivity].
    destruct (Z.eq_dec k 1) as [|Hne]; [assumption|].
    assert (Hlt : (1 <= 1 < k)%Z) by lia.
    specialize (Hall 1%Z Hlt). discriminate.
Defined.

(* ------------------------------------------------------------------ *)
(** ** Base64, as the endpoint writes it and the page reads it *)

Lemma base64_digit_letter (i : N) :
  (i < 64)%N -> base64_letter (base64_digit i) = true.
Proof.
  intros Hi.
  assert (Hall : forallb (fun n => base64_letter (base64_digit (N.of_nat n)))
                         (seq 0 64) = true) by (vm_compute; reflexivity).
  rewrite forallb_forall in Hall.
  specialize (Hall (N.to_nat i)). rewrite N2Nat.id in Hall. apply Hall.
  apply in_seq. lia.
Qed.

Lemma list_ind3 (A : Type) (P : list A -> Prop) :
  P [] -> (forall a, P [a]) -> (forall a b, P [a; b]) ->
  (forall a b c l, P l -> P (a :: b :: c :: l)) ->
  forall l, P l.
Proof.
  intros H0 H1 H2 H3.
  assert (H : forall n l, length l <= n -> P l).
  { induction n as [|n IH]; intros l Hl.
    - destruct l; [exact H0|cbn in Hl; lia].
    - destruct l as [|a [|b [|c l]]]; try auto.
      apply H3. apply IH. cbn in Hl. lia. }
  intros l. apply (H (length l)). lia.
Qed.

(** The shape of an encoding: letters of the alphabet, then at most two [=],
    four characters for every three bytes begun. *)
Lemma toBase64_shape (bytes : list N) :
  exists body p,
    toBase64 bytes = body ++ pad_eq p
    /\ forallb base64_letter body = true
    /\ p <= 2
    /\ (length body + p) mod 4 = 0
    /\ length body mod 4 <> 1
    /\ length body * 6 / 8 = length bytes
    /\ length bytes <= length body.
Proof.
  induction bytes as [|a|a b|a b c rest IH] using list_ind3.
  - exists [], 0. repeat split; cbn; try lia; try discriminate.
  - eexists [_; _], 2. cbn [toBase64 app pad_eq repeat].
    split; [reflexivity|]. cbn [forallb].
    rewrite !base64_digit_letter by (apply N.mod_upper_bound; discriminate).
    repeat split; cbn; try lia; try discriminate.
  - eexists [_; _; _], 1. cbn [toBase64 app pad_eq repeat].
    split; [reflexivity|]. cbn [forallb].
    rewrite !base64_digit_letter by (apply N.mod_upper_bound; discriminate).
    repeat split; cbn; try lia; try discriminate.
  - destruct IH as (body & p & E & Hb & Hp & Hm & Hn & Hl & Hle).
    eexists (_ :: _ :: _ :: _ :: body), p.
    cbn [toBase64 app]. rewrite E. split; [reflexivity|]. cbn [forallb].
    rewrite !base64_digit_letter by (apply N.mod_upper_bound; discriminate).
    cbn [andb length].
    split; [exact Hb|]. split; [exact Hp|].
    replace (S (S (S (S (length body)))) + p) with (length body + p + 1 * 4) by lia.
    rewrite Nat.Div0.mod_add.
    replace (S (S (S (S (length body))))) with (length body + 1 * 4) by lia.
    rewrite Nat.Div0.mod_add.
    split; [exact Hm|]. split; [exact Hn|].
    split; [|lia].
    replace ((length body + 1 * 4) * 6) with (length body * 6 + 3 * 8) by lia.
    rewrite Nat.div_add by discriminate. lia.
Qed.

Ltac split_char c :=
  destruct c as [|c]; [|do 6 (try destruct c as [c|c|])].

Lemma strip_trailing_eq_pad (body : jsstring) (p : nat) :
  forallb base64_letter body = true -> p <= 2 ->
  strip_trailing_eq (body ++ pad_eq p) = body.
Proof.
  intros Hb Hp. unfold strip_trailing_eq. rewrite rev_app_distr.
  assert (Hrev : forallb base64_letter (rev body) = true).
  { rewrite forallb_forall in *. intros x Hx. apply Hb. apply in_rev. exact Hx. }
  assert (Hbody : rev (rev body) = body) by apply rev_involutive.
  destruct (rev body) as [|c r].
  - cbn [rev] in Hbody. subst body.
    destruct p as [|[|[|p]]]; [reflexivity..|lia].
  - cbn [forallb] in Hrev. apply andb_prop in Hrev. destruct Hrev as [Hc _].
    destruct p as [|[|[|p]]]; [| | |lia]; cbn [pad_eq repeat rev app];
      rewrite ?app_nil_r;
      split_char c; try discriminate Hc; cbn [rev app] in *;
        rewrite ?Hbody; reflexivity.
Qed.

Lemma letter_is_base64 (c : char) :
  base64_letter c = true -> is_base64_char c = true /\ c <> 61%N.
Proof.
  unfold base64_letter. intros H. apply andb_prop in H. destruct H as [A B].
  split; [exact A|]. intros ->. discriminate B.
Qed.

Lemma base64_char_not_space (c : char) :
  is_base64_char c = true -> is_ascii_ws c = false.
Proof.
  intros H. unfold is_ascii_ws, char_in. cbn [existsb].
  repeat match goal with
         | |- context [N.eqb c ?k] =>
             destruct (N.eqb_spec c k) as [->|]; [discriminate H|]
         end.
  reflexivity.
Qed.

Lemma filter_not_space (s : jsstring) :
  forallb is_base64_char s = true ->
  filter (fun c => negb (is_ascii_ws c)) s = s.
Proof.
  induction s as [|c s IH]; intros H; [reflexivity|].
  cbn [forallb] in H. apply andb_prop in H. destruct H as [Hc Hs].
  cbn [filter]. rewrite (base64_char_not_space c Hc). cbn [negb].
  rewrite IH by exact Hs. reflexivity.
Qed.

Lemma forallb_letters_base64 (s : jsstring) :
  forallb base64_letter s = true -> forallb is_base64_char s = true.
Proof.
  intros H. rewrite forallb_forall in *. intros c Hc.
  apply (letter_is_base64 c). apply H. exact Hc.
Qed.

Lemma pad_eq_base64 (p : nat) : forallb is_base64_char (pad_eq p) = true.
Proof. induction p as [|p IH]; [reflexivity|exact IH]. Qed.

(** Decoding letters followed by at most two [=]. *)
Lemma atob_length_padded (body : jsstring) (p : nat) :
  forallb base64_letter body = true -> p <= 2 ->
  (length body + p) mod 4 = 0 -> length body mod 4 <> 1 ->
  atob_length (body ++ pad_eq p) = Some (length body * 6 / 8).
Proof.
  intros Hb Hp Hm Hn. unfold atob_length. cbv zeta.
  rewrite filter_not_space.
  2:{ rewrite forallb_app, (forallb_letters_base64 _ Hb), pad_eq_base64. reflexivity. }
  assert (El : length (body ++ pad_eq p) mod 4 = 0).
  { rewrite length_app. unfold pad_eq. rewrite repeat_length. exact Hm. }
  rewrite El. cbn [Nat.eqb]. rewrite strip_trailing_eq_pad by assumption.
  destruct (length body mod 4 =? 1) eqn:E1;
    [apply Nat.eqb_eq in E1; contradiction|].
  replace (forallb (fun c => (is_base64_char c && negb (N.eqb c 61))%bool) body)
    with (forallb base64_letter body) by reflexivity.
  rewrite Hb. reflexivity.
Qed.

Lemma atob_length_toBase64 (bytes : list N) :
  atob_length (toBase64 bytes) = Some (length bytes).
Proof.
  destruct (toBase64_shape bytes) as (body & p & E & Hb & Hp & Hm & Hn & Hl & _).
  rewrite E, atob_length_padded by assumption. rewrite Hl. reflexivity.
Qed.

Lemma toBase64_chars (bytes : list N) :
  forallb is_base64_char (toBase64 bytes) = true
  /\ length (toBase64 bytes) mod 4 = 0
  /\ length bytes <= length (toBase64 bytes).
Proof.
  destruct (toBase64_shape bytes) as (body & p & E & Hb & Hp & Hm & Hn & Hl & Hle).
  rewrite E, forallb_app, (forallb_letters_base64 _ Hb), pad_eq_base64, length_app.
  unfold pad_eq. rewrite repeat_length. repeat split; [exact Hm|lia].
Qed.

Lemma forallb_firstn (p : char -> bool) (n : nat) :
  forall s : jsstring, forallb p s = true -> forallb p (firstn n s) = true.
Proof.
  induction n as [|n IH]; intros [|c s] H; try reflexivity.
  cbn [forallb firstn] in *. apply andb_prop in H. destruct H as [Hc Hs].
  rewrite Hc, (IH s Hs). reflexivity.
Qed.

(** The first hundred characters of the encoding of a hundred bytes or more
    decode by themselves. *)
Lemma atob_length_sample (bytes : list N) :
  100 <= length bytes ->
  atob_length (substring 0 100 (toBase64 bytes)) = Some 75.
Proof.
  intros Hlen.
  destruct (toBase64_shape bytes) as (body & p & E & Hb & Hp & Hm & Hn & Hl & Hle).
  unfold substring. cbn [skipn Nat.sub]. rewrite E.
  rewrite firstn_app.
  replace (100 - length body) with 0 by lia. cbn [firstn]. rewrite app_nil_r.
  assert (H100 : length (firstn 100 body) = 100) by (rewrite length_firstn; lia).
  assert (Hx : atob_length (firstn 100 body ++ pad_eq 0) = Some 75).
  { rewrite atob_length_padded.
    - rewrite H100. reflexivity.
    - apply forallb_firstn. exact Hb.
    - lia.
    - rewrite H100. reflexivity.
    - rewrite H100. discriminate. }
  cbn [pad_eq repeat] in Hx. rewrite app_nil_r in Hx. exact Hx.
Qed.

Lemma test_base64Regex (s : jsstring) :
  s <> [] -> forallb is_base64_char s = true -> test base64Regex s = true.
Proof.
  intros Hne Hs. destruct s as [|c s]; [contradiction|].
  cbn [forallb] in Hs. apply andb_prop in Hs. destruct Hs as [Hc Hs].
  unfold test, scan. cbn [scan_from]. unfold exec_at, base64Regex.
  cbn [seqs]. rewrite rmatch_seq. cbn [rmatch ms_before].
  unfold Plus. rewrite rmatch_seq, (rmatch_cls_hit _ _ _ _ _ _ Hc).
  rewrite <- (app_nil_r s).
  erewrite rmatch_star_class; [reflexivity|exact Hs|exact I|].
  cbn [rmatch ms_rest]. reflexivity.
Qed.

Lemma base64_not_fallback (s : jsstring) :
  forallb is_base64_char s = true ->
  startsWith s (lit "tts-fallback-") = false.
Proof.
  intros H.
  destruct s as [|c1 [|c2 [|c3 [|c4 s]]]]; cbn [lit map list_ascii_of_string startsWith];
    rewrite ?andb_false_r; try reflexivity.
  cbn [forallb] in H.
  repeat (apply andb_prop in H; destruct H as [? H]).
  assert (E : N.eqb (N_of_ascii "-") c4 = false).
  { apply N.eqb_neq. intros <-. discriminate. }
  rewrite E. cbn [andb]. rewrite !andb_false_r. reflexivity.
Qed.

(* ------------------------------------------------------------------ *)
(** ** The endpoint and the page *)

Lemma error_response_shape (e : thrown) :
  In (r_status (error_response e)) [403; 404; 429; 500]%Z
  /\ r_audio (error_response e) = None
  /\ r_success (error_response e) = Some false
  /\ r_error (error_response e) <> None.
Proof.
  unfold error_response. cbv zeta.
  destruct (instanceof_Error e && _)%bool.
  - cbn. repeat split; try discriminate. tauto.
  - destruct (includes _ (lit "permission denied") || _)%bool;
      [|destruct (includes _ (lit "not found"))];
      cbn; repeat split; try discriminate; tauto.
Qed.

Lemma synthesize_with_shape (c : tts_client) (body : outcome request_body)
      (r : json_response) :
  synthesize_with c body = Returns r ->
  (r_status r = 200%Z
   /\ exists bytes,
       100 <= length bytes /\ r_audio r = Some (toBase64 bytes)
       /\ r_success r = Some true /\ r_error r = None)
  \/ (In (r_status r) [400; 500]%Z
      /\ r_audio r = None /\ r_success r <> Some true /\ r_error r <> None).
Proof.
  unfold synthesize_with.
  destruct body as [body|e]; [|discriminate].
  destruct (b_text body) as [[|x s]|].
  1,3: intros E; injection E as <-; right; cbn; repeat split; try discriminate; tauto.
  cbv zeta.
  match goal with |- context [c ?q] => destruct (c q) as [[[|y bytes]|]|e] end;
    try discriminate.
  1,3: intros E; injection E as <-; right; cbn; repeat split; try discriminate; tauto.
  destruct (length (y :: bytes) <? 100) eqn:El.
  - intros E; injection E as <-; right; cbn; repeat split; try discriminate; tauto.
  - apply Nat.ltb_ge in El. intros E; injection E as <-. left.
    split; [reflexivity|]. exists (y :: bytes). repeat split. exact El.
Qed.

Lemma POST_shape (env : environment) (st : route_state) (body : outcome request_body) :
  let r := fst (POST env st body) in
  (r_status r = 200%Z
   /\ exists bytes,
       100 <= length bytes /\ r_audio r = Some (toBase64 bytes)
       /\ r_success r = Some true /\ r_error r = None)
  \/ (In (r_status r) [400; 403; 404; 429; 500]%Z
      /\ r_audio r = None /\ r_success r <> Some true /\ r_error r <> None).
Proof.
  cbv zeta. unfold POST.
  destruct (initClient env st) as [ok st1].
  destruct ok; cbn [negb].
  2:{ right. cbn. repeat split; try discriminate. tauto. }
  destruct (client st1) as [c|].
  2:{ right. cbn. repeat split; try discriminate. tauto. }
  destruct (synthesize_with c body) as [r|e] eqn:E; cbn [fst].
  - destruct (synthesize_with_shape c body r E) as [H|(H & A & B & C)];
      [left; exact H|right].
    repeat split; try assumption. cbn in H |- *. tauto.
  - destruct (error_response_shape e) as (H & A & B & C). right.
    repeat split; try assumption; [cbn in H |- *; tauto|].
    rewrite B. discriminate.
Qed.

(** The handler always answers, with one of six statuses.  Status 200 comes
    with [success: true] and the base64 text of at least a hundred bytes of
    audio, and with no error; every other status comes with an error text,
    without audio and without [success: true]. *)
Theorem route_answers_with_audio_or_error
      (env : environment) (st : route_state) (body : outcome request_body) :
  let r := fst (POST env st body) in
  In (r_status r) [200; 400; 403; 404; 429; 500]%Z
  /\ (r_status r = 200%Z ->
      exists bytes,
        100 <= length bytes /\ r_audio r = Some (toBase64 bytes)
        /\ r_success r = Some true /\ r_error r = None)
  /\ (r_status r <> 200%Z ->
      r_audio r = None /\ r_success r <> Some true /\ r_error r <> None).
Proof.
  cbv zeta. destruct (POST_shape env st body) as [(H & Hb)|(H & A & B & C)];
    cbv zeta in *.
  - split; [rewrite H; left; reflexivity|]. split; [intros _; exact Hb|].
    intros Hn. contradiction.
  - split; [right; exact H|]. split.
    + intros E. rewrite E in H. cbn in H.
      repeat (destruct H as [H|H]; try discriminate H). contradiction.
    + intros _. repeat split; assumption.
Qed.

Lemma fix_padding_fixed (a : jsstring) :
  length a mod 4 = 0 -> fix_padding a = a.
Proof.
  intros H. unfold fix_padding. rewrite H. reflexivity.
Qed.

(** The page takes the encoding of a hundred bytes or more for audio. *)
Lemma api_call_accepts (now : Z) (code : Z) (bodyText : jsstring)
      (bytes : list N) (err : option jsstring) (req : payload) (s : SpeechState) :
  (200 <= code <= 299)%Z -> 100 <= length bytes ->
  api_call now
    (FetchResolves
       (mkResponse code (Ok bodyText)
          (Ok (mkData true (Some (toBase64 bytes)) err)))) req s
  = Ok (mkOut (toBase64 bytes) (resetErrorState now s) [req]).
Proof.
  intros Hst Hlen.
  destruct (toBase64_chars bytes) as (Hc & Hm & Hle).
  unfold api_call, response_ok. cbn [bind status body_json success audio].
  assert (Hok : ((200 <=? code) && (code <=? 299))%Z%bool = true).
  { apply andb_true_intro. split; apply Z.leb_le; lia. }
  rewrite Hok. cbn [negb].
  destruct (toBase64 bytes) as [|c a] eqn:E; [cbn in Hle; lia|].
  cbn [truthy_str str_or_empty andb].
  assert (Hpos : (0 <? length (c :: a)) = true) by reflexivity.
  rewrite Hpos. rewrite fix_padding_fixed by exact Hm.
  rewrite test_base64Regex by (try discriminate; exact Hc). cbn [negb].
  rewrite <- E. unfold atob. rewrite atob_length_sample by exact Hlen.
  reflexivity.
Qed.

Lemma playSpeech_accepts (b : browser) (bytes : list N) (t : jsstring)
      (ms : list marker) (w : world) :
  100 <= length bytes ->
  exists id,
    currentUtterance (speech (playSpeech b (toBase64 bytes) t ms w))
    = Some (AudioElement id).
Proof.
  intros Hlen.
  destruct (toBase64_chars bytes) as (Hc & Hm & Hle).
  unfold playSpeech. rewrite base64_not_fallback by exact Hc. cbn [negb].
  assert (H10 : (length (toBase64 bytes) <? 10) = false)
    by (apply Nat.ltb_ge; lia).
  rewrite H10.
  rewrite test_base64Regex; [|intros E; rewrite E in Hle; cbn in Hle; lia|exact Hc].
  cbn [negb]. rewrite fix_padding_fixed by exact Hm.
  unfold atob. rewrite atob_length_toBase64.
  assert (H100 : (length bytes <? 100) = false) by (apply Nat.ltb_ge; lia).
  rewrite H100.
  destruct (arm_highlights _ 0 ms w) as [w2 timers].
  eexists. reflexivity.
Qed.

(** The endpoint and the page agree.  What the route sends with status 200 is
    audio that [synthesizeSpeech] accepts (the counters are reset) and that
    [playSpeech] decodes, to as many bytes as Google gave, and plays from an
    audio element, with no fallback.  Whatever it sends with another status,
    a quota error (429) included, is one more failure on record and the
    fallback identifier. *)
Theorem page_plays_what_the_route_sends
      (env : environment) (st : route_state) (body : outcome request_body)
      (bodyText : jsstring) (now : Z) (req : payload) (s : SpeechState) :
  let r := fst (POST env st body) in
  let net := fetched r bodyText in
  (r_status r = 200%Z ->
   exists bytes,
     r_audio r = Some (toBase64 bytes)
     /\ api_call now net req s
        = Ok (mkOut (toBase64 bytes) (resetErrorState now s) [req])
     /\ atob_length (toBase64 bytes) = Some (length bytes)
     /\ forall b t ms w,
         exists id,
           currentUtterance (speech (playSpeech b (toBase64 bytes) t ms w))
           = Some (AudioElement id))
  /\ (r_status r <> 200%Z ->
      failure_mode net
      /\ exists reason,
          api_call now net req s
          = Ok (mkOut (fallbackId now) (recordFailure now reason s) [req])).
Proof.
  cbv zeta. destruct (POST_shape env st body) as [(H & bytes & Hlen & Ha & Hs & He)
                                                  |(H & A & B & C)];
    cbv zeta in *.
  - split; [|intros Hn; contradiction]. intros _.
    exists bytes. split; [exact Ha|]. split; [|split].
    + unfold fetched. rewrite H, Ha, Hs. apply api_call_accepts; [lia|exact Hlen].
    + apply atob_length_toBase64.
    + intros b t ms w. apply playSpeech_accepts. exact Hlen.
  - assert (Hnok : response_ok (mkResponse (r_status (fst (POST env st body)))
                                (Ok bodyText)
                                (Ok (mkData
                                       (match r_success (fst (POST env st body)) with
                                        | Some b => b
                                        | None => false
                                        end)
                                       (r_audio (fst (POST env st body)))
                                       (r_error (fst (POST env st body))))))
                   = false).
    { unfold response_ok. cbn [status]. cbn in H.
      repeat (destruct H as [H|H]; [rewrite <- H; reflexivity|]). contradiction. }
    split.
    + intros E. rewrite E in H. cbn in H.
      repeat (destruct H as [H|H]; try discriminate H). contradiction.
    + intros _. split.
      * unfold fetched. apply BadStatus. exact Hnok.
      * unfold fetched, api_call. cbn [bind]. rewrite Hnok. cbn [negb body_text bind].
        eexists. reflexivity.
Qed.

Lemma page_plays_what_the_route_sends_witness :
  r_status (fst (POST working_environment fresh_route ssml_body)) = 200%Z
  /\ exists bytes,
      r_audio (fst (POST working_environment fresh_route ssml_body))
      = Some (toBase64 bytes)
      /\ atob_length (toBase64 bytes) = Some (length bytes).
Proof.
  assert (H : r_status (fst (POST working_environment fresh_route ssml_body))
              = 200%Z) by reflexivity.
  split; [exact H|].
  destruct (proj1 (page_plays_what_the_route_sends working_environment fresh_route
                     ssml_body [] 0%Z
                     (request_of narration defaultVoice None)
                     initialSpeechState) H)
    as (bytes & Ha & _ & Hd & _).
  exists bytes. split; [exact Ha | exact Hd].
Defined.

(* ------------------------------------------------------------------ *)
(** ** The event loop *)

Lemma next_due_is_due (t : Z) (ts : list timer) :
  forall best tm,
    (forall b, best = Some b -> due t b = true) ->
    next_due t best ts = Some tm -> due t tm = true.
Proof.
  induction ts as [|x ts IH]; intros best tm Hbest; cbn [next_due].
  - intros H. apply Hbest. exact H.
  - destruct (Qle_bool (t_due x) (inject_Z t)) eqn:Ex.
    + destruct best as [bt|].
      * destruct (Qle_bool (t_due bt) (t_due x)); apply IH.
        -- exact Hbest.
        -- intros b0 Hb. injection Hb as <-. exact Ex.
      * apply IH. intros b0 Hb. injection Hb as <-. exact Ex.
    + apply IH. exact Hbest.
Qed.

Lemma next_due_none (t : Z) (ts : list timer) :
  forall best,
    next_due t best ts = None -> best = None /\ forallb (fun tm => negb (due t tm)) ts = true.
Proof.
  induction ts as [|x ts IH]; intros best; cbn [next_due forallb].
  - intros H. split; [exact H|reflexivity].
  - unfold due at 1. destruct (Qle_bool (t_due x) (inject_Z t)) eqn:Ex.
    + destruct best as [bt|].
      * destruct (Qle_bool (t_due bt) (t_due x)); intros H; apply IH in H;
          destruct H as [H _]; discriminate.
      * intros H. apply IH in H. destruct H as [H _]. discriminate.
    + intros H. apply IH in H. destruct H as [H1 H2]. split; [exact H1|].
      cbn [negb andb]. exact H2.
Qed.

Lemma filter_other_handles (ps : list timer) (tm : timer) :
  NoDup (map t_id ps) -> In tm ps ->
  exists l1 l2,
    ps = l1 ++ tm :: l2
    /\ filter (fun x => negb (existsb (Nat.eqb (t_id x)) [t_id tm])) ps = l1 ++ l2.
Proof.
  induction ps as [|x ps IH]; intros Hnd Hin; [contradiction|].
  cbn [map] in Hnd. inversion Hnd as [|? ? Hx Hnd']; subst.
  cbn [filter existsb]. rewrite orb_false_r.
  destruct Hin as [->|Hin].
  - exists [], ps. split; [reflexivity|]. rewrite Nat.eqb_refl. cbn [negb app].
    clear IH Hnd. induction ps as [|y ps IH]; [reflexivity|].
    cbn [filter existsb]. rewrite orb_false_r.
    cbn [map] in Hx, Hnd'. inversion Hnd' as [|? ? Hy Hnd'']; subst.
    destruct (Nat.eqb_spec (t_id y) (t_id tm)) as [E|E].
    + exfalso. apply Hx. left. exact E.
    + cbn [negb]. f_equal. apply IH; [|exact Hnd''].
      intros H. apply Hx. right. exact H.
  - destruct (IH Hnd' Hin) as (l1 & l2 & E & F).
    exists (x :: l1), l2. split; [rewrite E; reflexivity|].
    destruct (Nat.eqb_spec (t_id x) (t_id tm)) as [Eq|Ne].
    + exfalso. apply Hx. rewrite Eq. apply in_map. exact Hin.
    + cbn [negb app]. f_equal. rewrite <- F. apply filter_ext. intros a.
      cbn [existsb]. rewrite orb_false_r. reflexivity.
Qed.

Lemma filter_all (A : Type) (p : A -> bool) (l : list A) :
  forallb p l = true -> filter p l = l.
Proof.
  induction l as [|x l IH]; cbn [forallb filter]; [reflexivity|].
  intros H. apply andb_prop in H. destruct H as [Hx Hl].
  rewrite Hx, IH by exact Hl. reflexivity.
Qed.

Lemma filter_none (A : Type) (p q : A -> bool) (l : list A) :
  forallb (fun x => negb (p x)) l = true -> filter (fun x => (p x && q x)%bool) l = [].
Proof.
  induction l as [|x l IH]; cbn [forallb filter]; [reflexivity|].
  intros H. apply andb_prop in H. destruct H as [Hx Hl].
  apply negb_true_iff in Hx. rewrite Hx, IH by exact Hl. reflexivity.
Qed.

(** The event loop, run up to clock value [t]: the timers due by then are
    gone and the others stay, in their order, and the finish callback has
    been called once for every watchdog that was due. *)
Lemma run_timers_spec (t : Z) (cb : callback) (fuel : nat) :
  forall w : world,
    onFinishCallback (speech w) = Some cb ->
    NoDup (map t_id (pending w)) ->
    length (pending w) <= fuel ->
    let w' := run_timers fuel t w in
    pending w' = filter (fun tm => negb (due t tm)) (pending w)
    /\ filter is_finish (history w')
       = filter is_finish (history w)
         ++ repeat (FinishCalled cb)
                   (length (filter (fun tm => (due t tm && is_watchdog tm)%bool)
                                   (pending w)))
    /\ speech w' = speech w /\ fresh w' = fresh w
    /\ utterances w' = utterances w /\ clock w' = clock w.
Proof.
  induction fuel as [|f IH]; intros w Hcb Hnd Hlen; cbn [run_timers]; cbv zeta.
  - destruct (pending w); [|cbn in Hlen; lia]. cbn. rewrite app_nil_r. repeat split.
  - destruct (next_due t None (pending w)) as [tm|] eqn:E.
    + pose proof (next_due_is_due t _ None tm ltac:(discriminate) E) as Hdue.
      apply next_due_In in E. destruct E as [E|Hin]; [discriminate|].
      destruct (filter_other_handles _ tm Hnd Hin) as (l1 & l2 & Ep & Ef).
      set (w1 := fire tm (clearTimeouts [t_id tm] w)).
      assert (Hp1 : pending w1 = l1 ++ l2).
      { unfold w1. rewrite fire_pending. exact Ef. }
      assert (Hs1 : speech w1 = speech w) by (unfold w1; rewrite fire_speech; reflexivity).
      assert (Hnd1 : NoDup (map t_id (pending w1))).
      { rewrite Hp1. rewrite Ep, map_app in Hnd. cbn [map] in Hnd.
        apply NoDup_remove_1 in Hnd. rewrite map_app. exact Hnd. }
      assert (Hlen1 : length (pending w1) <= f).
      { rewrite Hp1. rewrite Ep in Hlen. rewrite length_app in *. cbn [length] in Hlen.
        lia. }
      assert (Hcb1 : onFinishCallback (speech w1) = Some cb) by (rewrite Hs1; exact Hcb).
      destruct (IH w1 Hcb1 Hnd1 Hlen1) as (A & B & C & D & F & G).
      cbv zeta in A, B, C, D, F, G.
      rewrite A, B, C, D, F, G, Hp1, Hs1, Ep, !filter_app. cbn [filter].
      rewrite Hdue. cbn [negb andb].
      assert (Hrest : fresh w1 = fresh w /\ utterances w1 = utterances w
                      /\ clock w1 = clock w
                      /\ filter is_finish (history w1)
                         = filter is_finish (history w)
                           ++ (if is_watchdog tm then [FinishCalled cb] else [])).
      { unfold w1, fire, is_watchdog, call_lineNumber, call_onFinish.
        destruct (t_action tm); cbn [clearTimeouts with_pending speech].
        - destruct (lineNumberCallback (speech w)); cbn; rewrite ?filter_app; cbn;
            rewrite ?app_nil_r; repeat split.
        - rewrite Hcb. cbn. rewrite filter_app. cbn. repeat split. }
      destruct Hrest as (R1 & R2 & R3 & R4). rewrite R1, R2, R3, R4.
      split; [reflexivity|]. split; [|repeat split].
      rewrite <- app_assoc. f_equal.
      destruct (is_watchdog tm); cbn [app length]; rewrite !length_app;
        cbn [length]; [|reflexivity].
      rewrite Nat.add_succ_r. reflexivity.
    + apply next_due_none in E. destruct E as [_ E].
      rewrite (filter_all _ _ _ E), (filter_none _ _ _ _ E). cbn.
      rewrite app_nil_r. repeat split.
Qed.

(* ------------------------------------------------------------------ *)
(** ** The watchdog of the local backend *)

Lemma arm_highlights_handles (delay : nat -> marker -> option Q) (ms : list marker) :
  forall (index : nat) (w : world),
    exists new,
      pending (fst (arm_highlights delay index ms w)) = pending w ++ new
      /\ snd (arm_highlights delay index ms w) = map t_id new
      /\ map t_id new = seq (fresh w) (length new)
      /\ fresh (fst (arm_highlights delay index ms w)) = fresh w + length new
      /\ forallb (fun tm => negb (is_watchdog tm)) new = true.
Proof.
  induction ms as [|mk rest IH]; intros index w; cbn [arm_highlights].
  - exists []. cbn. rewrite app_nil_r, Nat.add_0_r. repeat split.
  - destruct (delay index mk) as [d|]; [|apply IH].
    destruct (IH (S index) (fst (setTimeout (Highlight (lineNumber mk)) d w)))
      as (new & Hp & Hi & Hq & Hf & Hw).
    cbn [setTimeout fst] in Hp, Hi, Hq, Hf |- *.
    destruct (arm_highlights delay (S index) rest _) as [w2 ids] eqn:E.
    cbn [fst snd with_fresh with_pending pending fresh] in *.
    eexists (_ :: new). rewrite Hp, <- app_assoc. cbn [app map t_id length seq forallb].
    rewrite Hi, Hq, Hf. unfold is_watchdog at 1. cbn [t_action negb andb].
    repeat split; [lia | exact Hw].
Qed.

Lemma due_watchdog (c later : Z) (tm : timer) :
  t_due tm = (inject_Z c + 15000)%Q -> (c + 15000 <= later)%Z -> due later tm = true.
Proof.
  intros E H. unfold due. rewrite E. apply Qle_bool_iff.
  unfold Qle, Qplus, inject_Z. cbn. lia.
Qed.

Lemma filter_filter (A : Type) (p q : A -> bool) (l : list A) :
  filter p (filter q l) = filter (fun x => (q x && p x)%bool) l.
Proof.
  induction l as [|x l IH]; [reflexivity|]. cbn [filter].
  destruct (q x); cbn [filter andb]; [destruct (p x)|]; rewrite IH; reflexivity.
Qed.

Lemma filter_watchdogs (g : timer -> bool) (l : list timer) :
  forallb (fun tm => negb (is_watchdog tm)) l = true ->
  filter (fun tm => (g tm && is_watchdog tm)%bool) l = [].
Proof.
  induction l as [|x l IH]; [reflexivity|]. cbn [forallb filter].
  intros H. apply andb_prop in H. destruct H as [Hx Hl].
  apply negb_true_iff in Hx. rewrite Hx, andb_false_r. apply IH. exact Hl.
Qed.

Lemma NoDup_map_filter (p : timer -> bool) (l : list timer) :
  NoDup (map t_id l) -> NoDup (map t_id (filter p l)).
Proof.
  induction l as [|x l IH]; [intros H; exact H|]. cbn [map filter].
  intros H. inversion H as [|? ? Hx Hl]; subst.
  destruct (p x); [|apply IH; exact Hl].
  cbn [map]. constructor; [|apply IH; exact Hl].
  intros Hin. apply Hx. apply in_map_iff in Hin. destruct Hin as (y & Ey & Hy).
  apply filter_In in Hy. apply in_map_iff. exists y. tauto.
Qed.

(** What the local backend leaves pending when it has started an utterance:
    fail-safe highlights, the watchdog of fifteen seconds, and the adaptive
    highlights, which alone are in the list that [onend] clears. *)
Lemma useBrowserSpeechAPI_timers (b : browser) (t : jsstring) (ms : list marker)
      (w : world) :
  hasSpeechSynthesis b = true -> pending w = [] ->
  let w1 := fst (useBrowserSpeechAPI b t ms w) in
  exists failsafe watchdog adaptive u,
    pending w1 = failsafe ++ watchdog :: adaptive
    /\ forallb (fun tm => negb (is_watchdog tm)) failsafe = true
    /\ forallb (fun tm => negb (is_watchdog tm)) adaptive = true
    /\ is_watchdog watchdog = true
    /\ t_due watchdog = (inject_Z (clock w) + 15000)%Q
    /\ map t_id (failsafe ++ watchdog :: adaptive)
       = seq (fresh w) (length (failsafe ++ watchdog :: adaptive))
    /\ utterances w1 = utterances w ++ [u]
    /\ u_timers u = map t_id adaptive
    /\ speech w1 = set_currentUtterance (Some (Utterance (u_id u))) (speech w)
    /\ history w1 = history w ++ [SynthSpeak (u_id u)].
Proof.
  intros Hb Hp. cbv zeta. unfold useBrowserSpeechAPI. rewrite Hb. cbn [negb].
  set (wa := if ((0 <? length ms) && is_some (lineNumberCallback (speech w)))%bool
             then _ else w).
  assert (Ha : exists F,
             pending wa = F
             /\ forallb (fun tm => negb (is_watchdog tm)) F = true
             /\ map t_id F = seq (fresh w) (length F)
             /\ fresh wa = fresh w + length F
             /\ speech wa = speech w /\ clock wa = clock w
             /\ utterances wa = utterances w /\ history wa = history w).
  { unfold wa. destruct ((0 <? length ms) && _)%bool.
    - match goal with |- context [arm_highlights ?d ?i ?m ?x] =>
        destruct (arm_highlights_handles d m i x) as (F & A1 & _ & A3 & A4 & A5);
        destruct (arm_highlights_frame d m i x) as (B1 & B2 & _ & B4 & B5 & _) end.
      cbv zeta in B1, B2, B4, B5. rewrite Hp in A1. cbn [app] in A1.
      exists F. repeat split; assumption.
    - exists []. rewrite Hp, Nat.add_0_r. repeat split. }
  destruct Ha as (F & A1 & A2 & A3 & A4 & A5 & A6 & A7 & A8).
  set (wb := fst (setTimeout EnsureFinish 15000 wa)).
  match goal with |- context [arm_highlights ?d 0 ?m wb] =>
    destruct (arm_highlights_handles d m 0 wb) as (A & C1 & C2 & C3 & C4 & C5);
    destruct (arm_highlights_frame d m 0 wb) as (D1 & D2 & _ & D4 & D5 & _);
    destruct (arm_highlights d 0 m wb) as [wc timers] end.
  cbv zeta in D1, D2, D4, D5. cbn [fst snd] in *.
  unfold wb in C1, C3, C4, D1, D2, D4, D5.
  cbn [setTimeout fst with_fresh with_pending pending fresh speech clock utterances
       history] in C1, C3, C4, D1, D2, D4, D5.
  exists F, (mkTimer (fresh wa) (inject_Z (clock wa) + 15000)%Q EnsureFinish (session wa)),
    A, (mkUtterance (fresh wc) (cleanSpeechText t) timers).
  cbn [observe with_speech with_utterances with_fresh pending utterances speech
       history u_timers u_id t_due].
  rewrite C1, A1, <- app_assoc. cbn [app].
  rewrite D1, D4, D5, A5, A6, A7, A8.
  repeat split; try assumption.
  rewrite map_app, length_app. cbn [map length t_id]. rewrite seq_app. cbn [seq].
  rewrite A3, C3, A4. repeat (f_equal; try lia).
Qed.

Lemma filter_around_watchdog (g : timer -> bool) (failsafe adaptive : list timer)
      (watchdog : timer) :
  forallb (fun tm => negb (is_watchdog tm)) failsafe = true ->
  forallb (fun tm => negb (is_watchdog tm)) adaptive = true ->
  is_watchdog watchdog = true ->
  filter (fun tm => (g tm && is_watchdog tm)%bool) (failsafe ++ watchdog :: adaptive)
  = if g watchdog then [watchdog] else [].
Proof.
  intros Hf Ha Hw. rewrite filter_app. cbn [filter].
  rewrite (filter_watchdogs g failsafe Hf), (filter_watchdogs g adaptive Ha), Hw,
    andb_true_r.
  destruct (g watchdog); reflexivity.
Qed.

(** Whatever the text: when the local backend has started an utterance and
    the utterance ends, at any time, the finish callback has been called
    exactly twice once fifteen seconds have passed since the call, by [onend]
    and by the watchdog, which [onend] does not clear (it clears the inner
    list of timers only). *)
Theorem local_backend_finishes_twice
      (b : browser) (t : jsstring) (ms : list marker) (w : world)
      (cb : callback) (ended later : Z) :
  hasSpeechSynthesis b = true ->
  pending w = [] ->
  onFinishCallback (speech w) = Some cb ->
  (clock w + 15000 <= later)%Z ->
  let w1 := fst (useBrowserSpeechAPI b t ms w) in
  exists u,
    utterances w1 = utterances w ++ [u]
    /\ filter is_finish
         (history (advance later (utterance_onend u (advance ended w1))))
       = filter is_finish (history w) ++ [FinishCalled cb; FinishCalled cb].
Proof.
  intros Hb Hp Hcb Hlater w1.
  destruct (useBrowserSpeechAPI_timers b t ms w Hb Hp)
    as (F & S & A & u & Hp1 & HF & HA & HS & Hdue & Hids & Hu & Hut & Hs1 & Hh1).
  fold w1 in Hp1, Hu, Hs1, Hh1.
  exists u. split; [exact Hu|].
  assert (Hcb1 : onFinishCallback (speech w1) = Some cb) by (rewrite Hs1; exact Hcb).
  assert (Hnd : NoDup (map t_id (pending w1))).
  { rewrite Hp1, Hids. apply seq_NoDup. }
  assert (Hnot : existsb (Nat.eqb (t_id S)) (u_timers u) = false).
  { rewrite Hut. destruct (existsb _ _) eqn:E; [|reflexivity].
    apply existsb_exists in E. destruct E as (x & Hx & Ex).
    apply Nat.eqb_eq in Ex. subst x.
    rewrite Hp1, map_app in Hnd. cbn [map] in Hnd.
    apply NoDup_remove_2 in Hnd. exfalso. apply Hnd. apply in_or_app. right.
    exact Hx. }
  (* the page up to the end of the utterance *)
  unfold advance at 2.
  destruct (run_timers_spec ended cb (length (pending w1)) w1 Hcb1 Hnd (Nat.le_refl _))
    as (P1 & H1 & S1 & _).
  cbv zeta in P1, H1, S1.
  set (wr := run_timers (length (pending w1)) ended w1) in *.
  (* the end of the utterance *)
  set (wB := utterance_onend u (with_clock ended wr)).
  assert (HB : pending wB = filter (fun tm => negb (existsb (Nat.eqb (t_id tm)) (u_timers u)))
                                   (pending wr)
               /\ speech wB = set_isPlaying false (speech wr)
               /\ history wB = history wr ++ [FinishCalled cb]).
  { unfold wB, utterance_onend.
    destruct (call_onFinish_pending
                (clearTimeouts (u_timers u)
                   (with_speech (set_isPlaying false) (with_clock ended wr))))
      as (X1 & _ & X3).
    rewrite X1, X3, (proj2 (proj2 (call_onFinish_frame _))).
    cbn [clearTimeouts with_pending with_speech with_clock speech pending history
         set_isPlaying onFinishCallback].
    rewrite S1, Hcb1. repeat split. }
  destruct HB as (PB & SB & HhB).
  assert (HcbB : onFinishCallback (speech wB) = Some cb).
  { rewrite SB, S1. exact Hcb1. }
  assert (HndB : NoDup (map t_id (pending wB))).
  { rewrite PB, P1. apply NoDup_map_filter, NoDup_map_filter. exact Hnd. }
  unfold advance.
  destruct (run_timers_spec later cb (length (pending wB)) wB HcbB HndB (Nat.le_refl _))
    as (_ & H2 & _).
  cbv zeta in H2. cbn [with_clock history]. rewrite H2, HhB, filter_app, H1.
  cbn [filter is_finish]. rewrite <- !app_assoc. f_equal.
  { rewrite Hh1, filter_app. cbn. apply app_nil_r. }
  (* the watchdogs that fire before and after the end *)
  rewrite PB, P1, !filter_filter, Hp1.
  rewrite (filter_around_watchdog (due ended) F A S HF HA HS).
  rewrite (filter_ext _ (fun tm =>
             ((negb (due ended tm)
               && negb (existsb (Nat.eqb (t_id tm)) (u_timers u))
               && due later tm) && is_watchdog tm)%bool)).
  2:{ intros tm. rewrite !andb_assoc. reflexivity. }
  rewrite (filter_around_watchdog _ F A S HF HA HS).
  rewrite Hnot, (due_watchdog (clock w) later S Hdue Hlater).
  destruct (due ended S); reflexivity.
Qed.

Lemma local_backend_finishes_twice_witness :
  exists u,
    utterances (fst (useBrowserSpeechAPI chrome narration []
                       (with_speech (set_callbacks (Some 1) (Some 1)) initialWorld)))
    = [u]
    /\ filter is_finish
         (history
            (advance 15000
               (utterance_onend u
                  (advance 2000
                     (fst (useBrowserSpeechAPI chrome narration []
                             (with_speech (set_callbacks (Some 1) (Some 1))
                                          initialWorld)))))))
       = [FinishCalled 1; FinishCalled 1].
Proof.
  exact (local_backend_finishes_twice chrome narration []
           (with_speech (set_callbacks (Some 1) (Some 1)) initialWorld) 1 2000 15000
           eq_refl eq_refl eq_refl ltac:(discriminate)).
Defined.

(* ------------------------------------------------------------------ *)
(** ** [stop] and the timers *)

(** What the event loop does depends on the pending timers and on the two
    callbacks only. *)
Lemma run_timers_same (t : Z) (fuel : nat) :
  forall w w' : world,
    pending w = pending w' ->
    lineNumberCallback (speech w) = lineNumberCallback (speech w') ->
    onFinishCallback (speech w) = onFinishCallback (speech w') ->
    exists fired,
      history (run_timers fuel t w) = history w ++ fired
      /\ history (run_timers fuel t w') = history w' ++ fired
      /\ pending (run_timers fuel t w) = pending (run_timers fuel t w').
Proof.
  induction fuel as [|f IH]; intros w w' Hp Hl Hf; cbn [run_timers].
  - exists []. rewrite !app_nil_r. repeat split. exact Hp.
  - rewrite <- Hp. destruct (next_due t None (pending w)) as [tm|].
    + set (w1 := fire tm (clearTimeouts [t_id tm] w)).
      set (w1' := fire tm (clearTimeouts [t_id tm] w')).
      assert (H1 : pending w1 = pending w1'
                   /\ speech w1 = speech w /\ speech w1' = speech w'
                   /\ exists o, history w1 = history w ++ o
                                /\ history w1' = history w' ++ o).
      { unfold w1, w1'. rewrite !fire_pending, !fire_speech.
        cbn [clearTimeouts with_pending pending speech]. rewrite Hp.
        repeat split.
        unfold fire, call_lineNumber, call_onFinish, clearTimeouts.
        cbn [with_pending speech]. rewrite <- Hl, <- Hf.
        destruct (t_action tm).
        - destruct (lineNumberCallback (speech w)).
          + eexists. split; reflexivity.
          + exists []. rewrite !app_nil_r. split; reflexivity.
        - destruct (onFinishCallback (speech w)).
          + eexists. split; reflexivity.
          + exists []. rewrite !app_nil_r. split; reflexivity. }
      destruct H1 as (Hp1 & Hs1 & Hs1' & o & Ho & Ho').
      destruct (IH w1 w1' Hp1) as (fired & A & B & C).
      * rewrite Hs1, Hs1'. exact Hl.
      * rewrite Hs1, Hs1'. exact Hf.
      * exists (o ++ fired). rewrite A, B, Ho, Ho', <- !app_assoc.
        repeat split. exact C.
    + exists []. rewrite !app_nil_r. repeat split. exact Hp.
Qed.

(** [stop] does not reach the timers: from the call on, the highlight and
    finish callbacks are called by the timers exactly as they would have been
    without it. *)
Theorem stop_does_not_reach_the_timers (w : world) (later : Z) :
  exists fired,
    history (advance later w) = history w ++ fired
    /\ history (advance later (stop w)) = history (stop w) ++ fired
    /\ pending (advance later (stop w)) = pending (advance later w).
Proof.
  destruct (stop_cancels_no_timer_facts w) as (Hp & Hl & Hf).
  unfold advance. cbn [with_clock history pending]. rewrite Hp.
  destruct (run_timers_same later (length (pending w)) w (stop w)
              (eq_sym Hp) (eq_sym Hl) (eq_sym Hf)) as (fired & A & B & C).
  exists fired. repeat split; [exact A | exact B | symmetry; exact C].
Qed.

(* ------------------------------------------------------------------ *)
(** ** The size of the SSML document *)

Lemma utf8_length_ge (s : jsstring) : length s <= utf8_length s.
Proof.
  assert (H : forall n s, length s <= n -> length s <= utf8_length s).
  { induction n as [|n IH]; intros [|c s'] Hl; cbn [length] in *; try lia.
    cbn [utf8_length].
    pose proof (IH s' ltac:(lia)) as H1.
    destruct (N.ltb c 128); [lia|]. destruct (N.ltb c 2048); [lia|].
    destruct (in_range 55296%N 56319%N c); [|lia].
    destruct s' as [|d s'']; [cbn; lia|].
    cbn [length] in *. pose proof (IH s'' ltac:(lia)) as H2.
    destruct (in_range 56320%N 57343%N d); lia. }
  apply (H (length s)). lia.
Qed.

(** A global replacement that puts at least as much as it takes does not
    shorten the text. *)
Lemma replace_from_grows (r : regex) (f : rmatchres -> jsstring) :
  (forall bef s m, exec_at r bef s = Some m -> length (mr_text m) <= length (f m)) ->
  forall s skip bef, length s <= length (replace_from r f skip bef s) + skip.
Proof.
  intros Hf. induction s as [|c s IH]; intros skip bef.
  - cbn. lia.
  - destruct skip as [|k]; cbn [replace_from length].
    + destruct (exec_at r bef (c :: s)) as [m|] eqn:E.
      * pose proof (Hf _ _ _ E) as Hm. rewrite length_app.
        destruct (length (mr_text m)) as [|n] eqn:El.
        -- cbn [length]. specialize (IH 0 (c :: bef)). lia.
        -- specialize (IH n (c :: bef)). lia.
      * cbn [length]. specialize (IH 0 (c :: bef)). lia.
    + specialize (IH k (c :: bef)). lia.
Qed.

Lemma replace_all_grows (r : regex) (f : rmatchres -> jsstring) (s : jsstring) :
  (forall bef s m, exec_at r bef s = Some m -> length (mr_text m) <= length (f m)) ->
  length s <= length (replace_all r f s).
Proof.
  intros Hf. unfold replace_all.
  pose proof (replace_from_grows r f Hf s 0 []). lia.
Qed.

Lemma exec_at_two_classes (p q : char -> bool) (bef : list char) (s : jsstring)
      (m : rmatchres) :
  exec_at (Seq (Cls p) (Cls q)) bef s = Some m -> length (mr_text m) = 2.
Proof.
  unfold exec_at. cbn [rmatch ms_rest ms_before ms_caps].
  destruct s as [|c1 [|c2 s']]; try discriminate.
  - destruct (p c1); discriminate.
  - destruct (p c1); [|discriminate]. destruct (q c2); [|discriminate].
    intros H. injection H as <-. cbn [mr_text ms_rest].
    assert (E : length (c1 :: c2 :: s') - length s' = 2) by (cbn [length]; lia).
    change (length (firstn (length (c1 :: c2 :: s') - length s') (c1 :: c2 :: s')) = 2).
    rewrite E. reflexivity.
Qed.

Lemma flat_map_grows (g : char -> jsstring) (s : jsstring) :
  (forall c, 1 <= length (g c)) -> length s <= length (flat_map g s).
Proof.
  intros Hg. induction s as [|c s IH]; [cbn; lia|].
  cbn [flat_map length]. rewrite length_app. specialize (Hg c). lia.
Qed.

Lemma xml_entity_length (c : char) : 1 <= length (xml_entity c).
Proof.
  unfold xml_entity.
  repeat match goal with |- context [if ?b then _ else _] => destruct b end;
    cbn; lia.
Qed.

(** The match of [`([^`]+)`]: two backticks around the captured text. *)
Lemma exec_at_backtick (bef : list char) (s : jsstring) (m : rmatchres) :
  exec_at backtickRegex bef s = Some m ->
  length (mr_text m) = length (cap_text 1 m) + 2.
Proof.
  unfold exec_at, backtickRegex. cbn [seqs]. rewrite rmatch_seq.
  destruct (rmatch _ _ _) as [res|] eqn:E; [|discriminate].
  intros H. injection H as <-. cbn [mr_text mr_caps].
  cbn [rmatch ms_rest] in E. unfold Chr at 1 in E. cbn [rmatch ms_rest] in E.
  destruct s as [|c s1]; [discriminate|].
  destruct (N.eqb (chr "`") c); [|discriminate].
  cbn [ms_before ms_caps] in E.
  apply (rmatch_consumes (Plus (NotChr "`"))) in E.
  destruct E as (st1 & xs & [Hadv1 Hadv2] & _ & Hk).
  cbn [ms_rest ms_before] in Hadv1, Hadv2.
  unfold Chr in Hk. cbn [rmatch ms_rest ms_before ms_caps] in Hk.
  destruct (ms_rest st1) as [|c' rest''] eqn:Er; [discriminate|].
  destruct (N.eqb (chr "`") c'); [|discriminate].
  injection Hk as <-. cbn [ms_rest ms_caps].
  unfold cap_text, cap. cbn [mr_caps cap_lookup Nat.eqb].
  rewrite Hadv2.
  replace (length (rev xs ++ c :: bef) - S (length bef)) with (length (rev xs))
    by (rewrite length_app; cbn [length]; lia).
  rewrite firstn_app, Nat.sub_diag, firstn_all. cbn [firstn]. rewrite app_nil_r.
  rewrite rev_involutive, Hadv1.
  rewrite length_firstn. cbn [length]. rewrite length_app. cbn [length]. lia.
Qed.

Lemma emphasis_length (x : jsstring) : length x + 2 <= length (emphasis x).
Proof. unfold emphasis. rewrite !length_app. cbn. lia. Qed.

Lemma ssml_of_escaped_grows (e : jsstring) : length e <= length (ssml_of_escaped e).
Proof.
  unfold ssml_of_escaped. cbv zeta. rewrite !length_app.
  match goal with |- _ <= _ + (_ + (_ + (_ + (_ + (length ?x + _))))) =>
    assert (H : length e <= length x); [|lia] end.
  unfold replace_with.
  repeat match goal with
         | |- length e <= length (replace_all ?r ?f ?x) =>
             apply (Nat.le_trans _ (length x));
             [|apply replace_all_grows; intros bef0 s0 m0 Hm0]
         end; try apply Nat.le_refl.
  - apply exec_at_two_classes in Hm0. rewrite Hm0, !length_app. cbn. lia.
  - apply exec_at_two_classes in Hm0. rewrite Hm0, !length_app. cbn. lia.
  - apply exec_at_two_classes in Hm0. rewrite Hm0, !length_app. cbn. lia.
  - apply exec_at_two_classes in Hm0. rewrite Hm0, !length_app. cbn. lia.
  - apply exec_at_two_classes in Hm0. rewrite Hm0, !length_app. cbn. lia.
  - pose proof (emphasis_length (mr_text m0)). lia.
  - apply exec_at_backtick in Hm0. pose proof (emphasis_length (cap_text 1 m0)). lia.
Qed.

Lemma textToSSML_grows (t : jsstring) (v : VoiceOptions) :
  length t <= length (textToSSML t v false).
Proof.
  change (textToSSML t v false) with (ssml_of_escaped (escapedText_of t)).
  apply (Nat.le_trans _ (length (escapedText_of t))); [|apply ssml_of_escaped_grows].
  rewrite escapedText_of_entities. apply flat_map_grows. apply xml_entity_length.
Qed.

Lemma long_text_exceeds_the_limit (t : jsstring) (v : VoiceOptions) :
  5000 < length t -> (5000 <? utf8_length (wrappedSSML_of t v None)) = true.
Proof.
  intros H. apply Nat.ltb_lt. rewrite wrappedSSML_of_no_code.
  pose proof (textToSSML_grows t v). pose proof (utf8_length_ge (textToSSML t v false)).
  lia.
Qed.

(** A text of more than 5000 code units is never sent, whatever it holds:
    [textToSSML] only adds to a text and UTF-8 takes at least one byte for a
    code unit, so the document is over the limit of 5000 bytes.
    [synthesizeSpeech] returns the fallback identifier and leaves the state
    alone, and [speak] sends no request and makes no audio element. *)
Theorem long_text_is_never_sent
      (b : browser) (net : network) (t : jsstring)
      (onLine onFinish : option callback) (voice : option VoiceOptions)
      (code : option jsstring) (w : world) (now : Z) (s : SpeechState) :
  5000 < length t ->
  (forall v, synthesizeSpeech now net t v None s = Ok (mkOut (fallbackId now) s []))
  /\ requests_of (history (snd (speak b net t onLine onFinish voice code w)))
     = requests_of (history w)
  /\ audios (snd (speak b net t onLine onFinish voice code w)) = audios w.
Proof.
  intros Hlen.
  assert (Hs : forall now v s,
             synthesizeSpeech now net t v None s = Ok (mkOut (fallbackId now) s [])).
  { intros now0 v s0. unfold synthesizeSpeech.
    rewrite (long_text_exceeds_the_limit t v Hlen). reflexivity. }
  split; [intros v; apply Hs|].
  destruct (begin_session_frame onLine onFinish w) as [Hr Ha].
  unfold speak. destruct (blank t).
  { cbn [snd]. destruct (call_onFinish_frame (begin_session onLine onFinish w))
      as (A & B & _). rewrite A, B. split; assumption. }
  destruct (shouldUseFallbackDirectly _ _).
  - unfold speak_local. cbn [snd].
    destruct (useBrowserSpeechAPI_frame b t (extractLineReferences t code)
                (begin_session onLine onFinish w)) as (A & B & _).
    cbv zeta in A, B. rewrite A, B. split; assumption.
  - unfold speak_remote. rewrite Hs.
    cbn [so_value so_state so_requests fold_left snd].
    rewrite fallbackId_prefix.
    match goal with |- context [useBrowserSpeechAPI b t ?m ?x] =>
      destruct (useBrowserSpeechAPI_frame b t m x) as (A & B & _) end.
    cbv zeta in A, B.
    cbn [with_speech speech audios history clock pending utterances fresh session].
    rewrite A, B. cbn [with_speech speech audios history]. split; assumption.
Qed.

Lemma long_text_is_never_sent_witness :
  requests_of
    (history (snd (speak chrome good_response (repeat 32%N 5000 ++ lit "x")
                         (Some 1) (Some 1) None None initialWorld)))
  = [].
Proof.
  assert (H : 5000 < length (repeat 32%N 5000 ++ lit "x")).
  { rewrite length_app, repeat_length. cbn. lia. }
  exact (proj1 (proj2 (long_text_is_never_sent chrome good_response
                         (repeat 32%N 5000 ++ lit "x") (Some 1) (Some 1) None None
                         initialWorld 0%Z initialSpeechState H))).
Defined.

(* ------------------------------------------------------------------ *)
(** ** The times of the remote highlights *)

Lemma take_drop_while (p : char -> bool) (s : jsstring) :
  s = take_while p s ++ drop_while p s.
Proof.
  induction s as [|c s IH]; [reflexivity|].
  cbn. destruct (p c); [cbn; f_equal; exact IH | reflexivity].
Qed.

Lemma forallb_take_while (p : char -> bool) (s : jsstring) :
  forallb p (take_while p s) = true.
Proof.
  induction s as [|c s IH]; [reflexivity|].
  cbn. destruct (p c) eqn:E; [cbn; rewrite E; exact IH | reflexivity].
Qed.

Lemma stops_drop_while (p : char -> bool) (s : jsstring) :
  stops p (drop_while p s).
Proof.
  induction s as [|c s IH]; [exact I|].
  cbn. destruct (p c) eqn:E; [exact IH | exact E].
Qed.

(** [p+] at a code unit of the class takes the whole run. *)
Lemma exec_at_plus_run (p : char -> bool) (bef : list char) (c : char)
      (xs r : jsstring) :
  p c = true -> forallb p xs = true -> stops p r ->
  exists m, exec_at (Plus (Cls p)) bef (c :: xs ++ r) = Some m
            /\ length (mr_text m) = S (length xs).
Proof.
  intros Hc Hxs Hr. unfold exec_at, Plus.
  change (rmatch (Seq (Cls p) (Star (Cls p))) Some (MS bef (c :: xs ++ r) []))
    with (if p c then rmatch (Star (Cls p)) Some (MS (c :: bef) (xs ++ r) []) else None).
  rewrite Hc.
  rewrite (rmatch_star_class p Some xs r (c :: bef) []
             (MS (rev xs ++ c :: bef) r []) Hxs Hr eq_refl).
  eexists. split; [reflexivity|].
  cbn [mr_text ms_rest].
  assert (E : length (c :: xs ++ r) - length r = S (length xs)).
  { cbn [length]. rewrite length_app. lia. }
  rewrite E. cbn [firstn length]. f_equal.
  rewrite firstn_app, Nat.sub_diag, firstn_all. cbn. rewrite app_nil_r. reflexivity.
Qed.

Lemma exec_at_plus_class (p : char -> bool) (bef : list char) (c : char)
      (s : jsstring) :
  p c = true ->
  exists m, exec_at (Plus (Cls p)) bef (c :: s) = Some m
            /\ length (mr_text m) = S (length (take_while p s)).
Proof.
  intros Hc.
  destruct (exec_at_plus_run p bef c (take_while p s) (drop_while p s) Hc
              (forallb_take_while p s) (stops_drop_while p s)) as [m [E Hm]].
  rewrite <- take_drop_while in E. exists m. split; assumption.
Qed.

Lemma exec_at_plus_class_none (p : char -> bool) (bef : list char) (c : char)
      (s : jsstring) :
  p c = false -> exec_at (Plus (Cls p)) bef (c :: s) = None.
Proof.
  intros Hc. unfold exec_at, Plus.
  change (rmatch (Seq (Cls p) (Star (Cls p))) Some (MS bef (c :: s) []))
    with (if p c then rmatch (Star (Cls p)) Some (MS (c :: bef) s []) else None).
  rewrite Hc. reflexivity.
Qed.

(** Splitting at the runs of a class gives one piece more than there are
    runs. *)
Lemma split_from_runs (p : char -> bool) (s : jsstring) :
  forall (k : nat) (bef : list char) (cur : jsstring),
    (k = 0 ->
     length (split_from (Plus (Cls p)) k bef cur s) = S (runs p false s))
    /\ (k = length (take_while p s) ->
        length (split_from (Plus (Cls p)) k bef cur s) = S (runs p true s)).
Proof.
  induction s as [|c s IH]; intros k bef cur.
  - split; intros ->; reflexivity.
  - assert (H0 : length (split_from (Plus (Cls p)) 0 bef cur (c :: s))
                 = S (runs p false (c :: s))).
    { cbn [split_from runs]. destruct (p c) eqn:Hc.
      - destruct (exec_at_plus_class p bef c s Hc) as [m [-> Hm]].
        rewrite Hm. cbn [length].
        rewrite (proj2 (IH (length (take_while p s)) (c :: bef) []) eq_refl).
        reflexivity.
      - rewrite (exec_at_plus_class_none p bef c s Hc).
        apply (proj1 (IH 0 (c :: bef) (c :: cur)) eq_refl). }
    split; intros ->; [exact H0|].
    cbn [take_while runs]. destruct (p c) eqn:Hc.
    + cbn [length split_from].
      apply (proj2 (IH (length (take_while p s)) (c :: bef) cur) eq_refl).
    + cbn [length]. rewrite H0. cbn [runs]. rewrite Hc. reflexivity.
Qed.

Lemma split_re_runs (p : char -> bool) (s : jsstring) :
  length (split_re (Plus (Cls p)) s) = S (runs p false s).
Proof. apply (proj1 (split_from_runs p s 0 [] []) eq_refl). Qed.

Lemma runs_firstn (p : char -> bool) (s : jsstring) :
  forall (k : nat) (b : bool), runs p b (firstn k s) <= runs p b s.
Proof.
  induction s as [|c s IH]; intros k b.
  - rewrite firstn_nil. apply le_n.
  - destruct k as [|k]; [apply Nat.le_0_l|].
    cbn. destruct (p c).
    + apply Nat.add_le_mono_l, IH.
    + apply IH.
Qed.

(** A text has at least as many words as any prefix of it. *)
Lemma words_of_prefix (k : nat) (s : jsstring) :
  1 <= length (split_re (Plus sp) (substring 0 k s))
  /\ length (split_re (Plus sp) (substring 0 k s))
     <= length (split_re (Plus sp) s).
Proof.
  unfold sp, substring. rewrite !split_re_runs. cbn [skipn]. rewrite Nat.sub_0_r.
  split; [lia|]. apply le_n_S, runs_firstn.
Qed.

(** Where [playSpeech] arms a highlight for a marker, the delay is
    [highlightTime] of two word counts, computed in doubles: the pieces that
    the white space cuts the text before the marker into, and those of the
    whole text.  The first is at least one, also for a marker at the very
    start, and never more than the second. *)
Theorem remote_highlight_counts_words (t : jsstring) (mk : marker) (d : Q) :
  remoteHighlightTime t mk = Some d ->
  exists markerPosition wordsBefore wordCount,
    indexOf t (text mk) = Some markerPosition
    /\ wordsBefore = S (runs is_space false (firstn markerPosition t))
    /\ wordCount = S (runs is_space false t)
    /\ 1 <= wordsBefore <= wordCount
    /\ d = match highlightTime wordsBefore wordCount with
           | Some ms => inject_Z ms
           | None => 0%Q
           end.
Proof.
  unfold remoteHighlightTime. cbv zeta. intros H.
  destruct (indexOf t (text mk)) as [pos|]; [|discriminate].
  injection H as <-.
  destruct (words_of_prefix pos t) as [H1 H2].
  exists pos, (length (split_re (Plus sp) (substring 0 pos t))),
         (length (split_re (Plus sp) t)).
  split; [reflexivity|]. split.
  { unfold sp, substring. rewrite split_re_runs. cbn [skipn].
    rewrite Nat.sub_0_r. reflexivity. }
  split; [unfold sp; apply split_re_runs|].
  split; [split; assumption|reflexivity].
Qed.

Lemma remote_highlight_counts_words_witness :
  exists markerPosition wordsBefore wordCount,
    indexOf (lit "alpha beta gamma") (lit "beta") = Some markerPosition
    /\ wordsBefore = S (runs is_space false (firstn markerPosition (lit "alpha beta gamma")))
    /\ wordCount = S (runs is_space false (lit "alpha beta gamma"))
    /\ 1 <= wordsBefore <= wordCount
    /\ inject_Z 799
       = match highlightTime wordsBefore wordCount with
         | Some ms => inject_Z ms
         | None => 0%Q
         end.
Proof.
  exact (remote_highlight_counts_words
           (lit "alpha beta gamma") (mkMarker (lit "beta") 1)
           (inject_Z 799) eq_refl).
Defined.

(* ------------------------------------------------------------------ *)
(** ** The credentials of the endpoint *)

(** [initClient] returns [true] exactly when it leaves a client; when it
    returns [false] the error it leaves is one of two texts. *)
Lemma initClient_outcomes (env : environment) (st : route_state) :
  (fst (initClient env st) = true
   /\ exists c, client (snd (initClient env st)) = Some c)
  \/ (fst (initClient env st) = false
      /\ client (snd (initClient env st)) = None
      /\ (initError (snd (initClient env st))
          = Some (lit "No valid credentials found. Please provide valid Google Cloud credentials.")
          \/ exists e,
              key_file env = Some (Throws e)
              /\ initError (snd (initClient env st))
                 = Some (lit "Client initialization error: " ++ message_of e))).
Proof.
  assert (P : forall ie,
             (fst (initClient_from_path env ie) = true
              /\ exists c, client (snd (initClient_from_path env ie)) = Some c)
             \/ (fst (initClient_from_path env ie) = false
                 /\ client (snd (initClient_from_path env ie)) = None
                 /\ initError (snd (initClient_from_path env ie))
                    = Some (lit "No valid credentials found. Please provide valid Google Cloud credentials."))).
  { intros ie. unfold initClient_from_path.
    destruct (credentials_path env) as [[c|e]|]; cbn [fst snd client initError].
    - left. split; [reflexivity|]. exists c. reflexivity.
    - right. repeat split.
    - right. repeat split. }
  assert (Q : forall ie,
             (fst (initClient_from_path env ie) = true
              /\ exists c, client (snd (initClient_from_path env ie)) = Some c)
             \/ (fst (initClient_from_path env ie) = false
                 /\ client (snd (initClient_from_path env ie)) = None
                 /\ (initError (snd (initClient_from_path env ie))
                     = Some (lit "No valid credentials found. Please provide valid Google Cloud credentials.")
                     \/ exists e,
                         key_file env = Some (Throws e)
                         /\ initError (snd (initClient_from_path env ie))
                            = Some (lit "Client initialization error: " ++ message_of e)))).
  { intros ie. destruct (P ie) as [H|(A & B & C)]; [left; exact H|right].
    repeat split; try assumption. left. exact C. }
  assert (K : forall c : tts_client,
             (fst (true, mkRouteState (Some c) (initError st)) = true
              /\ exists c', client (snd (true, mkRouteState (Some c) (initError st))) = Some c')).
  { intros c. split; [reflexivity|]. exists c. reflexivity. }
  unfold initClient. cbv zeta.
  destruct (credentials_json env) as [[c|e0]|]; [left; apply K| |];
    (destruct (key_file env) as [[[c|e]|e]|] eqn:Ek;
     [left; apply K | apply Q | | apply Q]);
    right; cbn [fst snd client initError]; repeat split;
    right; exists e; split; reflexivity.
Qed.

(** The credentials and the answer.  [initClient] returns [true] exactly when
    it leaves a client, so the second guard of the handler never answers.
    When it returns [false], the answer is status 500 with one of two texts:
    that no valid credentials were found, or what reading the key file threw;
    the text made when the key file does not parse is never sent. *)
Theorem credentials_failure_has_two_messages
        (env : environment) (st : route_state) (body : outcome request_body) :
  let ok := fst (initClient env st) in
  let r := fst (POST env st body) in
  (ok = true <-> client (snd (initClient env st)) <> None)
  /\ r <> mkJson 500 None (Some (lit "Text-to-Speech client not initialized")) None None
  /\ (ok = false ->
      exists m,
        r = mkJson 500 None (Some (lit "Failed to initialize TTS client: " ++ m)) None None
        /\ (m = lit "No valid credentials found. Please provide valid Google Cloud credentials."
            \/ exists e,
                key_file env = Some (Throws e)
                /\ m = lit "Client initialization error: " ++ message_of e)).
Proof.
  cbv zeta. unfold POST.
  destruct (initClient_outcomes env st) as [(Hok & c & Hc)|(Hok & Hc & Hm)];
    destruct (initClient env st) as [ok st1]; cbn [fst snd] in *; subst ok;
    cbn [negb].
  - rewrite Hc. split; [split; [discriminate|reflexivity]|].
    split; [|discriminate].
    destruct (synthesize_with c body) as [r|e] eqn:E; cbn [fst].
    + destruct (synthesize_with_shape c body r E) as [(H & _)|(_ & _ & _ & H)];
        intros ->; [discriminate H | ].
      revert E. unfold synthesize_with.
      destruct body as [body|e]; [|discriminate].
      destruct (b_text body) as [[|x s]|]; try discriminate.
      cbv zeta.
      match goal with |- context [c ?q] => destruct (c q) as [[[|y bytes]|]|e] end;
        try discriminate.
      destruct (length (y :: bytes) <? 100); discriminate.
    + destruct (error_response_shape e) as (_ & _ & H & _).
      intros E1. rewrite E1 in H. discriminate H.
  - rewrite Hc. split; [split; [discriminate|intros H; contradiction]|].
    split; [discriminate|]. intros _. cbn [fst].
    destruct Hm as [Hm|(e & Hk & Hm)]; rewrite Hm; cbn [show_initError].
    + eexists. split; [reflexivity|]. left. reflexivity.
    + eexists. split; [reflexivity|]. right. exists e. split; [exact Hk|reflexivity].
Qed.

(* ------------------------------------------------------------------ *)
(** ** The duration estimate of the local backend *)





(* ------------------------------------------------------------------ *)
(** ** What the remote adapter reports as a failure *)

(** A regex that starts with [^] matches only where the text starts. *)
Lemma scan_from_Bol (r : regex) (s : jsstring) :
  forall (skip : nat) (bef : list char),
    bef <> [] -> scan_from (Seq Bol r) skip bef s = [].
Proof.
  induction s as [|c s IH]; intros skip bef Hb.
  - destruct skip; cbn [scan_from]; [|reflexivity].
    unfold exec_at. cbn [rmatch ms_before]. destruct bef; [contradiction|reflexivity].
  - destruct skip as [|k]; cbn [scan_from].
    + unfold exec_at. cbn [rmatch ms_before]. destruct bef; [contradiction|].
      apply IH. discriminate.
    + apply IH. discriminate.
Qed.

(** A text that passes [base64Regex] holds characters of its class only. *)
Lemma test_base64Regex_chars (s : jsstring) :
  test base64Regex s = true -> forallb is_base64_char s = true.
Proof.
  unfold test, scan, base64Regex. cbn [seqs].
  destruct s as [|c s].
  { cbn. discriminate. }
  cbn [scan_from].
  destruct (exec_at _ [] (c :: s)) as [m|] eqn:E.
  2:{ rewrite scan_from_Bol by discriminate. discriminate. }
  intros _. unfold exec_at in E.
  destruct (rmatch _ Some (MS [] (c :: s) [])) as [st|] eqn:R; [|discriminate].
  cbn [rmatch ms_before] in R.
  change (rmatch (Plus (Cls is_base64_char)) (rmatch Eol Some) (MS [] (c :: s) [])
          = Some st) in R.
  apply rmatch_consumes in R. destruct R as (st1 & xs & [A _] & F & K).
  cbn [rmatch] in K. destruct (ms_rest st1) eqn:Er; [|discriminate].
  cbn [ms_rest] in A. rewrite app_nil_r in A. rewrite A.
  eapply forallb_weaken; [|exact F].
  intros x Hx. cbn in Hx. destruct (is_base64_char x); [reflexivity|discriminate].
Qed.

Lemma accepted_audio_not_fallback (net : network) (a : jsstring) :
  accepted_audio net a ->
  startsWith (fix_padding a) (lit "tts-fallback-") = false.
Proof.
  intros (r & d & _ & _ & _ & _ & _ & _ & Hb & _).
  apply base64_not_fallback, test_base64Regex_chars. exact Hb.
Qed.

(** C10, as the code has it.  For every text, voice, state and behaviour of
    the network [synthesizeSpeech] resolves to a string and never rejects.
    The string is the fallback identifier, which begins with "tts-fallback-",
    when the document is over 5000 bytes, when the policy chooses the local
    backend, and for each failure the code detects: a rejected [fetch], a
    status that is not ok, a body that is not JSON, [success] false, audio
    missing or empty, a character outside the base64 alphabet, a first
    hundred characters that do not decode.  Every other answer is returned as
    the audio text, padded, and that never begins with "tts-fallback-". *)
Theorem C10_synthesizeSpeech_never_rejects
  (now : Z) (net : network) (t : jsstring) (voice : VoiceOptions)
  (code : option jsstring) (s : SpeechState) :
  exists out,
    synthesizeSpeech now net t voice code s = Ok out
    /\ ((5000 < utf8_length (wrappedSSML_of t voice code)
         \/ shouldUseFallbackDirectly now s = true
         \/ failure_mode net) ->
        so_value out = fallbackId now
        /\ startsWith (so_value out) (lit "tts-fallback-") = true)
    /\ (~ (5000 < utf8_length (wrappedSSML_of t voice code)
           \/ shouldUseFallbackDirectly now s = true
           \/ failure_mode net) ->
        exists a,
          accepted_audio net a
          /\ so_value out = fix_padding a
          /\ startsWith (so_value out) (lit "tts-fallback-") = false).
Proof.
  destruct (synthesizeSpeech_returns now net t voice code s) as (out & E & F).
  exists out. split; [exact E|]. split.
  - intros H.
    assert (V : so_value out = fallbackId now).
    { destruct (synthesizeSpeech_outcomes _ _ _ _ _ _ _ E)
        as [(_ & _ & Hv & _)|(_ & Hsize & Hp & _)]; [exact Hv|].
      destruct H as [H|[H|H]]; [lia|congruence|exact (F H)]. }
    split; [exact V|]. rewrite V. apply fallbackId_prefix.
  - intros H.
    assert (Hsize : utf8_length (wrappedSSML_of t voice code) <= 5000).
    { apply Nat.nlt_ge. intros C. apply H. left. exact C. }
    assert (Hp : shouldUseFallbackDirectly now s = false).
    { destruct (shouldUseFallbackDirectly now s) eqn:Ep; [|reflexivity].
      exfalso. apply H. right. left. reflexivity. }
    destruct (failure_or_accepted net) as [Fm|(a & Ha)].
    { exfalso. apply H. right. right. exact Fm. }
    exists a. split; [exact Ha|].
    rewrite (synthesizeSpeech_accepted now net t voice code s a Hsize Hp Ha) in E.
    injection E as <-. cbn [so_value].
    split; [reflexivity|]. apply (accepted_audio_not_fallback net a Ha).
Qed.

(** C10, a counterexample to the claim as stated.  The endpoint answers with
    140 characters that are not base64 (a padding character stands after the
    first hundred, and [atob] throws on the text): [synthesizeSpeech] returns
    them as audio and resets the error counters.  It does the same with
    twelve characters, nine bytes that are no audio. *)
Lemma C10_invalid_base64_is_returned :
  atob_length bad_audio = None
  /\ synthesizeSpeech 0 (answer_with bad_audio) narration defaultVoice None
                      initialSpeechState
     = Ok (mkOut bad_audio (resetErrorState 0 initialSpeechState)
                 [request_of narration defaultVoice None])
  /\ startsWith bad_audio (lit "tts-fallback-") = false
  /\ atob_length short_audio = Some 9
  /\ synthesizeSpeech 0 (answer_with short_audio) narration defaultVoice None
                      initialSpeechState
     = Ok (mkOut short_audio (resetErrorState 0 initialSpeechState)
                 [request_of narration defaultVoice None]).
Proof. vm_compute. repeat split. Qed.

(* ------------------------------------------------------------------ *)
(** ** [speak] and the playing flag *)

Lemma observe_with_speech (f : SpeechState -> SpeechState) (o : obs) (w : world) :
  with_speech f (observe o w) = observe o (with_speech f w).
Proof. destruct w. reflexivity. Qed.

(** A call that nothing interrupts is [speak_start] and then, when a request
    was sent, [speak_resume] in the state that [speak_start] has left. *)
Lemma speak_in_two_runs (b : browser) (net : network) (t : jsstring)
      (onLine onFinish : option callback) (voice : option VoiceOptions)
      (code : option jsstring) (w : world) :
  speak b net t onLine onFinish voice code w
  = match speak_start b t onLine onFinish voice code w with
    | Returned result w' => (result, w')
    | Awaiting req lineMarkers w' => speak_resume b net t req lineMarkers w'
    end.
Proof.
  unfold speak, speak_start. cbv zeta.
  set (w0 := begin_session onLine onFinish w).
  destruct (blank t); [reflexivity|].
  destruct (shouldUseFallbackDirectly (clock w0) (speech w0)) eqn:Hp;
    [reflexivity|].
  unfold speak_remote, synthesizeSpeech. cbv zeta.
  destruct (5000 <? utf8_length _) eqn:Hbig.
  { cbn [so_state so_requests so_value fold_left]. rewrite fallbackId_prefix.
    destruct w0. reflexivity. }
  rewrite Hp. unfold speak_resume. cbv zeta.
  cbn [clock speech observe].
  match goal with
  | |- context [try_catch (api_call ?n net ?r ?s) ?h] =>
      destruct (try_catch (api_call n net r s) h) as [out|m] eqn:E
  end.
  - destruct (api_call_outcomes _ _ _ _ _ E) as [Hr _]. rewrite Hr.
    cbn [fold_left]. rewrite observe_with_speech. reflexivity.
  - unfold try_catch in E.
    destruct (api_call _ net _ _); discriminate E.
Qed.

(** [speak] clears the playing flag before it waits for the endpoint, and
    nothing that it runs sets it: the run after the answer leaves the flag as
    it finds it.  So when [speak] returns, [isSpeaking] is false unless a
    handler ([onplay] of an audio element, [onstart] of an utterance) has run
    while the call was waiting; it is false when nothing interrupts the
    call. *)
Theorem speak_returns_before_playing
      (b : browser) (net : network) (t : jsstring)
      (onLine onFinish : option callback) (voice : option VoiceOptions)
      (code : option jsstring) :
  (forall w : world,
      match speak_start b t onLine onFinish voice code w with
      | Returned _ w' => isSpeaking w' = false
      | Awaiting _ _ w' => isSpeaking w' = false
      end)
  /\ (forall (req : payload) (lineMarkers : list marker) (w1 : world),
         isSpeaking (snd (speak_resume b net t req lineMarkers w1))
         = isSpeaking w1)
  /\ (forall w : world,
         isSpeaking (snd (speak b net t onLine onFinish voice code w)) = false).
Proof.
  assert (A : forall w : world,
             match speak_start b t onLine onFinish voice code w with
             | Returned _ w' => isSpeaking w' = false
             | Awaiting _ _ w' => isSpeaking w' = false
             end).
  { intros w. unfold speak_start, isSpeaking. cbv zeta.
    pose proof (begin_session_isPlaying onLine onFinish w) as H0.
    set (w0 := begin_session onLine onFinish w) in *.
    assert (L : forall ms,
               isPlaying (speech (fst (useBrowserSpeechAPI b t ms w0))) = false).
    { intros ms.
      rewrite (proj1 (same_but_medium_flags _ _ (useBrowserSpeechAPI_speech _ _ _ _))).
      exact H0. }
    destruct (blank t).
    { rewrite (proj2 (proj2 (call_onFinish_frame _))). exact H0. }
    destruct (shouldUseFallbackDirectly (clock w0) (speech w0)); [apply L|].
    destruct (5000 <? utf8_length _).
    { cbn [with_speech speech]. rewrite resetErrorState_isPlaying. apply L. }
    destruct w0. exact H0. }
  assert (B : forall (req : payload) (lineMarkers : list marker) (w1 : world),
             isSpeaking (snd (speak_resume b net t req lineMarkers w1))
             = isSpeaking w1).
  { intros req ms w1. unfold speak_resume, isSpeaking. cbv zeta.
    match goal with
    | |- context [try_catch (api_call ?n net ?r ?s) ?h] =>
        destruct (try_catch (api_call n net r s) h) as [out|m] eqn:E
    end; cbn [snd].
    - destruct (api_call_outcomes _ _ _ _ _ E)
        as [_ [(reason & Hs & _)|(a & _ & _ & Hs)]];
        cbn [with_speech speech]; rewrite resetErrorState_isPlaying;
        destruct (startsWith _ _);
        rewrite ?(proj1 (same_but_medium_flags _ _ (useBrowserSpeechAPI_speech _ _ _ _))),
                ?(proj1 (same_but_medium_flags _ _ (playSpeech_speech _ _ _ _ _)));
        cbn [with_speech speech]; rewrite Hs,
          ?recordFailure_isPlaying, ?resetErrorState_isPlaying; reflexivity.
    - rewrite (proj1 (same_but_medium_flags _ _ (useBrowserSpeechAPI_speech _ _ _ _))).
      cbn [with_speech speech]. apply recordFailure_isPlaying. }
  split; [exact A|]. split; [exact B|].
  intros w. rewrite speak_in_two_runs. specialize (A w).
  destruct (speak_start b t onLine onFinish voice code w) as [r w'|req ms w'];
    cbn [snd]; [exact A|]. rewrite B. exact A.
Qed.
